(** * SDoC: the retrying SDC writer of [add-delpher-urls-to-sdc.py]

    A shallow embedding of the statement reconciler, the label reconciler,
    the retrying mutator [mw_mutate] and the checkpointing row loop, with the
    properties the specification states about them.

    Conventions of the embedding
    - A Python [str] is a [string]; its characters are the code points below
      256.  The predicates [isspace], [lower] and the regular-expression
      classes are Python's, restricted to that range.
    - A parsed JSON document is a [json] tree; a Python [dict] inside one is an
      association list whose first binding of a key is the live one.
    - Effects (HTTP calls, sleeping, the random generator, the workbook) go
      through an environment; every call is recorded in an event log, in
      order, so that "how many writes" is a statement about the log.
    - Seconds are rationals ([Q]): the arithmetic of a backoff is exact here
      where Python rounds to a double.  The float that [float()] reads from
      a header is a [pyfloat]: it may also be an infinity or not-a-number. *)

From Stdlib Require Import ZArith QArith Ascii String List Bool Lia DecimalString.
From Stdlib Require Import DecimalPos DecimalZ.
From stdpp Require Import base option gmap strings.

Set Warnings "-register-all".
Set Default Proof Using "Type".

Local Open Scope string_scope.
Local Open Scope list_scope.
Local Open Scope Z_scope.

(* ===================================================================== *)
(** ** Python strings *)
(* ===================================================================== *)

Module Py.

Definition code (c : ascii) : N := N_of_ascii c.

(** [str.isspace] on one code point below 256: TAB..CR, FS..US, space,
    NEL (0x85) and NBSP (0xA0). *)
Definition isspace (c : ascii) : bool :=
  let n := code c in
  ((9 <=? n) && (n <=? 13) || (28 <=? n) && (n <=? 32)
   || (n =? 133) || (n =? 160))%N.

Definition isdigit (c : ascii) : bool :=
  let n := code c in ((48 <=? n) && (n <=? 57))%N.

(** [str.lower] on one code point below 256. *)
Definition lower_char (c : ascii) : ascii :=
  let n := code c in
  if ((65 <=? n) && (n <=? 90)
      || (192 <=? n) && (n <=? 222) && negb (n =? 215))%N
  then ascii_of_N (n + 32) else c.

(** [str.upper] on the ASCII letters (the only ones the program upper-cases
    and then inspects). *)
Definition upper_char (c : ascii) : ascii :=
  let n := code c in
  if ((97 <=? n) && (n <=? 122))%N then ascii_of_N (n - 32) else c.

Fixpoint smap (f : ascii -> ascii) (s : string) : string :=
  match s with
  | EmptyString => EmptyString
  | String c t => String (f c) (smap f t)
  end.

Definition lower : string -> string := smap lower_char.
Definition upper : string -> string := smap upper_char.

Fixpoint lstrip (s : string) : string :=
  match s with
  | String c t => if isspace c then lstrip t else s
  | EmptyString => EmptyString
  end.

Fixpoint rstrip (s : string) : string :=
  match s with
  | EmptyString => EmptyString
  | String c t =>
      match rstrip t with
      | EmptyString => if isspace c then EmptyString else String c EmptyString
      | t' => String c t'
      end
  end.

(** [s.strip()] *)
Definition strip (s : string) : string := rstrip (lstrip s).

(** [not s] for a string: it is empty. *)
Definition is_empty (s : string) : bool :=
  match s with EmptyString => true | _ => false end.

(** [s[k:]] and [s[:k]] for [0 <= k]. *)
Fixpoint drop (k : nat) (s : string) : string :=
  match k, s with
  | O, _ => s
  | S k', String _ t => drop k' t
  | S _, EmptyString => EmptyString
  end.

Fixpoint take (k : nat) (s : string) : string :=
  match k, s with
  | O, _ => EmptyString
  | S k', String c t => String c (take k' t)
  | S _, EmptyString => EmptyString
  end.

(** [s.startswith(p)] *)
Fixpoint startswith (p s : string) : bool :=
  match p, s with
  | EmptyString, _ => true
  | String a p', String b s' => Ascii.eqb a b && startswith p' s'
  | String _ _, EmptyString => false
  end.

(** [p in s] for strings. *)
Fixpoint contains (p s : string) : bool :=
  startswith p s
  || match s with
     | String _ t => contains p t
     | EmptyString => false
     end.

(** [s.replace(a, b)] for one-character [a] and [b]. *)
Definition replace_char (a b : ascii) : string -> string :=
  smap (fun c => if Ascii.eqb c a then b else c).

(** [re.sub(r"\s+", " ", s)]: every maximal run of white space becomes one
    space. *)
Fixpoint collapse_run (in_run : bool) (s : string) : string :=
  match s with
  | EmptyString => EmptyString
  | String c t =>
      if isspace c
      then (if in_run then collapse_run true t
            else String " "%char (collapse_run true t))
      else String c (collapse_run false t)
  end.

Definition collapse_ws : string -> string := collapse_run false.

End Py.

(* ===================================================================== *)
(** ** Regular expressions *)
(* ===================================================================== *)

(** The patterns of the program are small; they are written as terms of
    [regex] and matched by derivatives.  Every pattern that is searched for
    ends in [$] and is applied to text that cannot end in a line feed that the
    pattern would leave unread, so a search is: the leftmost position whose
    whole remainder is in the language of the pattern. *)
Module Re.

Inductive regex : Type :=
| Void
| Eps
| Sym (p : ascii -> bool)
| Seq (r1 r2 : regex)
| Alt (r1 r2 : regex)
| Star (r : regex).

Fixpoint nullable (r : regex) : bool :=
  match r with
  | Void => false
  | Eps => true
  | Sym _ => false
  | Seq r1 r2 => nullable r1 && nullable r2
  | Alt r1 r2 => nullable r1 || nullable r2
  | Star _ => true
  end.

Fixpoint deriv (c : ascii) (r : regex) : regex :=
  match r with
  | Void | Eps => Void
  | Sym p => if p c then Eps else Void
  | Seq r1 r2 =>
      if nullable r1
      then Alt (Seq (deriv c r1) r2) (deriv c r2)
      else Seq (deriv c r1) r2
  | Alt r1 r2 => Alt (deriv c r1) (deriv c r2)
  | Star r1 => Seq (deriv c r1) (Star r1)
  end.

(** [re.fullmatch(r, s) is not None] *)
Fixpoint fullmatch (r : regex) (s : string) : bool :=
  match s with
  | EmptyString => nullable r
  | String c t => fullmatch (deriv c r) t
  end.

(** [re.search(r + "$", s)]: the start of the leftmost match. *)
Fixpoint search_end (r : regex) (s : string) : option nat :=
  if fullmatch r s then Some O
  else match s with
       | EmptyString => None
       | String _ t => S <$> search_end r t
       end.

(** Pattern atoms. *)
Definition chr (c : ascii) : regex := Sym (Ascii.eqb c).

(** A literal letter under [re.IGNORECASE]. *)
Definition chr_i (c : ascii) : regex :=
  Sym (fun x => Ascii.eqb (Py.lower_char x) (Py.lower_char c)).

Fixpoint lit_i (s : string) : regex :=
  match s with
  | EmptyString => Eps
  | String c t => Seq (chr_i c) (lit_i t)
  end.

Definition space : regex := Sym Py.isspace.             (* \s *)
Definition digit : regex := Sym Py.isdigit.             (* \d *)
Definition plus (r : regex) : regex := Seq r (Star r).  (* r+ *)
Definition opt (r : regex) : regex := Alt Eps r.        (* r? *)
Definition one_of (cs : string) : regex :=
  Sym (fun x => existsb (Ascii.eqb x) (list_ascii_of_string cs)).
Definition none_of (cs : string) : regex :=
  Sym (fun x => negb (existsb (Ascii.eqb x) (list_ascii_of_string cs))).
(** [.] without [re.DOTALL]: anything but a line feed. *)
Definition dot : regex := Sym (fun x => negb (Ascii.eqb x "010"%char)).

Fixpoint alts (rs : list regex) : regex :=
  match rs with
  | [] => Void
  | [r] => r
  | r :: rs' => Alt r (alts rs')
  end.

End Re.

(* ===================================================================== *)
(** ** Title utilities *)
(* ===================================================================== *)

(** [IA_TRAIL_RE = re.compile(r"\s*\(IA[^)]*\)\s*$", re.IGNORECASE)],
    without its final [$]. *)
Definition IA_TRAIL_RE : Re.regex :=
  Re.Seq (Re.Star Re.space)
    (Re.Seq (Re.chr "(")
       (Re.Seq (Re.lit_i "IA")
          (Re.Seq (Re.Star (Re.none_of ")"))
             (Re.Seq (Re.chr ")") (Re.Star Re.space))))).

(** [r"\.(pdf|jpg|jpeg|png|tif|tiff|djvu)$"] under [re.IGNORECASE], without
    its final [$]. *)
Definition EXT_RE : Re.regex :=
  Re.Seq (Re.chr ".")
    (Re.alts (map Re.lit_i ["pdf"; "jpg"; "jpeg"; "png"; "tif"; "tiff"; "djvu"])).

Definition derive_caption_from_live_title (live_title : string) : string :=
  if Py.is_empty (Py.strip live_title) then ""
  else
    let name := Py.strip live_title in
    (* 1) strip "File:" prefix *)
    let name :=
      if String.eqb (Py.lower (Py.take 5 name)) "file:"
      then Py.drop 5 name else name in
    (* 2) underscores -> spaces *)
    let name := Py.strip (Py.replace_char "_" " " name) in
    (* 3) remove known file extension at end *)
    let name :=
      match Re.search_end EXT_RE name with
      | Some i => Py.take i name
      | None => name
      end in
    (* 4) remove trailing " (IA ...)" *)
    let name :=
      Py.strip (match Re.search_end IA_TRAIL_RE name with
                | Some i => Py.take i name
                | None => name
                end) in
    (* 5) collapse internal whitespace *)
    Py.strip (Py.collapse_ws name).

(* ===================================================================== *)
(** ** Parsed JSON and Python's dynamic operations on it *)
(* ===================================================================== *)

(** What [r.json()] returns.  The numbers of the payloads read here
    (numeric ids) are integers. *)
Inductive json : Type :=
| JNull
| JBool (b : bool)
| JInt (n : Z)
| JStr (s : string)
| JList (l : list json)
| JDict (d : list (string * json)).

(** The exceptions of the program.  [HTTPError], [TransportError] (time-outs,
    connection errors) and [JSONDecodeError] are the subclasses of
    [requests.RequestException] that occur; [OverflowError] is what
    [time.sleep] raises for a wait beyond the range of the clock. *)
Record response : Type := Response {
  status_code : Z;
  retry_after : option string;   (* r.headers.get("Retry-After") *)
  body : option json             (* None: the body is not JSON *)
}.

Inductive exn : Type :=
| TypeError (msg : string)
| ValueError (msg : string)
| AttributeError
| RuntimeError (msg : string)
| HTTPError (r : response)
| TransportError (msg : string)
| JSONDecodeError
| SystemExit (code : Z)
| OverflowError (msg : string).

Definition is_HTTPError (e : exn) : bool :=
  match e with HTTPError _ => true | _ => false end.

Definition is_RequestException (e : exn) : bool :=
  match e with
  | HTTPError _ | TransportError _ | JSONDecodeError => true
  | _ => false
  end.

(** [except Exception]: everything but [SystemExit]. *)
Definition is_Exception (e : exn) : bool :=
  match e with SystemExit _ => false | _ => true end.

(** Pure code that can raise: [inl e] is the exception [e]. *)
#[global] Instance exn_ret : MRet (sum exn) := λ A a, inr a.
#[global] Instance exn_bind : MBind (sum exn) :=
  λ A B f m, match m with inl e => inl e | inr a => f a end.

Module Dyn.

Fixpoint assoc (k : string) (d : list (string * json)) : option json :=
  match d with
  | [] => None
  | (k', v) :: d' => if String.eqb k k' then Some v else assoc k d'
  end.

(** [bool(x)] *)
Definition truthy (x : json) : bool :=
  match x with
  | JNull => false
  | JBool b => b
  | JInt n => negb (n =? 0)
  | JStr s => negb (Py.is_empty s)
  | JList l => match l with [] => false | _ => true end
  | JDict d => match d with [] => false | _ => true end
  end.

Definition is_dict (x : json) : bool :=
  match x with JDict _ => true | _ => false end.

(** [x.get(k)], with [None] for a missing key; [AttributeError] when [x]
    has no [get]. *)
Definition get (x : json) (k : string) : exn + json :=
  match x with
  | JDict d => inr (default JNull (assoc k d))
  | _ => inl AttributeError
  end.

(** [x.get(k, dflt)] *)
Definition get_default (x : json) (k : string) (dflt : json) : exn + json :=
  match x with
  | JDict d => inr (default dflt (assoc k d))
  | _ => inl AttributeError
  end.

(** [d.items()]: the live bindings, in order. *)
Fixpoint items (d : list (string * json)) : list (string * json) :=
  match d with
  | [] => []
  | (k, v) :: d' =>
      (k, v) :: List.filter (λ kv, negb (String.eqb kv.1 k)) (items d')
  end.

(** [d[k] = v] on a dict: the live binding is replaced, a new key goes to
    the end. *)
Fixpoint set (k : string) (v : json) (d : list (string * json))
  : list (string * json) :=
  match d with
  | [] => [(k, v)]
  | (k', v') :: d' =>
      if String.eqb k k' then (k, v) :: d' else (k', v') :: set k v d'
  end.

(** [x or {}] *)
Definition or_empty_dict (x : json) : json :=
  if truthy x then x else JDict [].

(** [x or ""] *)
Definition or_empty_str (x : json) : json :=
  if truthy x then x else JStr "".

(** [x == s] for a string literal [s]. *)
Definition eq_str (x : json) (s : string) : bool :=
  match x with JStr t => String.eqb t s | _ => false end.

(** [x == n] for an integer [n] ([True == 1] in Python). *)
Definition eq_int (x : json) (n : Z) : bool :=
  match x with
  | JInt m => m =? n
  | JBool b => (if b then 1 else 0) =? n
  | _ => false
  end.

(** The decimal digits of [int(s)]: digits with single underscores between
    them. *)
Fixpoint int_digits (s : string) (acc : Z) (after_digit : bool) : option Z :=
  match s with
  | EmptyString => if after_digit then Some acc else None
  | String c t =>
      if Py.isdigit c
      then int_digits t (10 * acc + (Z.of_N (Py.code c) - 48)) true
      else if Ascii.eqb c "_" && after_digit then int_digits t acc false
      else None
  end.

(** [int(s)] for a string: surrounding white space, an optional sign, then
    the digits; [None] stands for [ValueError].  The numeral is taken to be
    within the interpreter's limit on digits ([int_max_str_digits] below):
    beyond it CPython raises [ValueError], which is not followed here. *)
Definition int_of_str (s : string) : option Z :=
  match Py.strip s with
  | String "+" t => int_digits t 0 false
  | String "-" t => Z.opp <$> int_digits t 0 false
  | t => int_digits t 0 false
  end.

(** [int(x)]; [None] stands for [TypeError] or [ValueError]. *)
Definition int_of (x : json) : option Z :=
  match x with
  | JInt n => Some n
  | JBool b => Some (if b then 1 else 0)
  | JStr s => int_of_str s
  | _ => None
  end.

End Dyn.

(* ===================================================================== *)
(** ** Configuration constants *)
(* ===================================================================== *)

Definition API_URL : string := "https://commons.wikimedia.org/w/api.php".
Definition USER_AGENT : string :=
  "KB-SDC-ResolverURL-Captions/1.0 (olaf.janssen@kb.nl) - Olaf Janssen, KB, national library of the Netherlands".

Definition RETRYABLE_STATUS : gset Z := {[ 502; 503; 504 ]}.
Definition RETRYABLE_API_CODES : gset string :=
  {[ "maxlag"; "ratelimited"; "internal_api_error" ]}.
Definition RETRYABLE_AUTH_CODES : gset string :=
  {[ "badtoken"; "assertuserfailed"; "assertnameduserfailed"; "notloggedin" ]}.

Definition P_SOURCE_OF_FILE : string := "P7482".
Definition Q_FILE_ONLINE : Z := 74228490.
Definition P_DESCRIBED_AT_URL : string := "P973".
Definition P_OPERATOR : string := "P137".
Definition Q_DELPHER : Z := 20670235.

(** [r"[Mm]\d+"] *)
Definition MID_SHAPE : Re.regex :=
  Re.Seq (Re.one_of "Mm") (Re.plus Re.digit).

(* ===================================================================== *)
(** ** Statement inspection *)
(* ===================================================================== *)

(** The body of [claim_has_value_q]; an [inl] is an exception, which the
    function's outer [try] turns into [False]. *)
Definition claim_has_value_q_body (claim : json) (numeric_qid : Z) : exn + bool :=
  if negb (Dyn.is_dict claim) then inr false else
  snak ← Dyn.get claim "mainsnak";
  if negb (Dyn.is_dict snak) then inr false else
  snaktype ← Dyn.get snak "snaktype";
  if negb (Dyn.eq_str snaktype "value") then inr false else
  dv ← Dyn.get snak "datavalue";
  if negb (Dyn.is_dict dv) then inr false else
  ty ← Dyn.get dv "type";
  if negb (Dyn.eq_str ty "wikibase-entityid") then inr false else
  val ← Dyn.get dv "value";
  match val with
  | JDict vd =>
      match Dyn.assoc "numeric-id" vd with
      | Some nid =>
          (* Prefer numeric-id if present *)
          inr (match Dyn.int_of nid with
               | Some n => n =? numeric_qid
               | None => false
               end)
      | None =>
          (* Fallback to string id like "Q74228490" *)
          match default JNull (Dyn.assoc "id" vd) with
          | JStr qid_str =>
              if Py.startswith "Q" (Py.upper qid_str)
              then inr (match Dyn.int_of_str (Py.drop 1 qid_str) with
                        | Some n => n =? numeric_qid
                        | None => false
                        end)
              else inr false
          | _ => inr false
          end
      end
  | _ => inr false
  end.

Definition claim_has_value_q (claim : json) (numeric_qid : Z) : bool :=
  match claim_has_value_q_body claim numeric_qid with
  | inr b => b
  | inl _ => false
  end.

(** One turn of the loop of [claim_has_qualifier_url]: [Some true] is
    [return True], anything else goes on to the next snak. *)
Definition qualifier_url_snak (target : string) (snak : json) : bool :=
  match Dyn.get (Dyn.or_empty_dict snak) "datavalue" with
  | inr (JDict dv) =>
      if negb (Dyn.eq_str (default JNull (Dyn.assoc "type" dv)) "string")
      then false
      else match default JNull (Dyn.assoc "value" dv) with
           | JStr val => String.eqb (Py.strip val) target
           | _ => false
           end
  | _ => false
  end.

Definition claim_has_qualifier_url (claim : json) (prop url : string) : exn + bool :=
  if negb (Dyn.is_dict claim) then inr false else
  quals ← Dyn.get claim "qualifiers";
  qualifiers ← Dyn.get (Dyn.or_empty_dict quals) prop;
  match qualifiers with
  | JList snaks => inr (existsb (qualifier_url_snak (Py.strip url)) snaks)
  | _ => inr false
  end.

Definition qualifier_q_snak (numeric_qid : Z) (snak : json) : bool :=
  match Dyn.get (Dyn.or_empty_dict snak) "datavalue" with
  | inr (JDict dv) =>
      if negb (Dyn.eq_str (default JNull (Dyn.assoc "type" dv)) "wikibase-entityid")
      then false
      else match default JNull (Dyn.assoc "value" dv) with
           | JDict val =>
               (* Preferred: numeric-id *)
               if Dyn.eq_int (default JNull (Dyn.assoc "numeric-id" val)) numeric_qid
               then true
               else
                 (* Fallback: "id": "Q12345" *)
                 match default JNull (Dyn.assoc "id" val) with
                 | JStr v_id =>
                     if Py.startswith "Q" v_id
                     then match Dyn.int_of_str (Py.drop 1 v_id) with
                          | Some n => n =? numeric_qid
                          | None => false
                          end
                     else false
                 | _ => false
                 end
           | _ => false
           end
  | _ => false
  end.

Definition claim_has_qualifier_q (claim : json) (prop : string) (numeric_qid : Z)
  : exn + bool :=
  if negb (Dyn.is_dict claim) then inr false else
  quals ← Dyn.get claim "qualifiers";
  qualifiers ← Dyn.get (Dyn.or_empty_dict quals) prop;
  match qualifiers with
  | JList snaks => inr (existsb (qualifier_q_snak numeric_qid) snaks)
  | _ => inr false
  end.

(* ===================================================================== *)
(** ** The sheet and the effects of the program *)
(* ===================================================================== *)

(** One row of the sheet: the two input cells as [main] reads them
    ([str(row.get(col) or "")]) and the four result columns. *)
Record Row : Type := mkRow {
  URL : string;
  ResolverURL : string;
  SDCStatus : string;
  CaptionENStatus : string;
  CaptionNLStatus : string;
  CaptionCandidate : string
}.

(** A value of a request's parameters or form: a plain string, or the text
    [json.dumps(j)], kept as the tree [j] it was made from. *)
Inductive fval : Type :=
| FStr (s : string)
| FDumps (j : json).

Abbreviation form := (gmap string fval).

Inductive event : Type :=
| EvGet (params : form)                 (* session.get *)
| EvPost (params data : form)           (* session.post *)
| EvSleep (secs : Q)                    (* time.sleep *)
| EvWriteBack (df : list Row)           (* write_back *)
| EvBrowser (mid : string)              (* webbrowser.open_new_tab *)
| EvRowEnd (i : nat) (row_had_change : bool) (df : list Row).
    (* not a call: the point in [main] where a row's work is over, with the
       row's index, its [row_had_change] and the frame at that point *)

Inductive http_result : Type :=
| HttpFail (msg : string)               (* the call raises a transport error *)
| HttpResp (r : response).

(** What the program runs against: the remote API behind the session, the
    random generator, the workbook on disk. *)
Class Env (W : Type) : Type := {
  env_get : form → W → http_result * W;
  env_post : form → form → W → http_result * W;
  env_random : W → Q * W;               (* random.random() *)
  env_write : list Row → W → bool * W   (* true: the workbook was written *)
}.

(** The settings [main] reads from the process environment. *)
Record Config : Type := mkConfig {
  CHECKPOINT_EVERY_SUCCESS : Z;
  SLEEP_BETWEEN : Q;
  OPEN_AFTER_SUCCESS : Z;
  OPEN_AFTER_SUCCESS_MAX : Z
}.

Definition default_config : Config :=
  {| CHECKPOINT_EVERY_SUCCESS := 50; SLEEP_BETWEEN := 4;
     OPEN_AFTER_SUCCESS := 0; OPEN_AFTER_SUCCESS_MAX := 5 |}.

Definition set_SDCStatus (v : string) (r : Row) : Row :=
  mkRow (URL r) (ResolverURL r) v (CaptionENStatus r) (CaptionNLStatus r) (CaptionCandidate r).
Definition set_CaptionENStatus (v : string) (r : Row) : Row :=
  mkRow (URL r) (ResolverURL r) (SDCStatus r) v (CaptionNLStatus r) (CaptionCandidate r).
Definition set_CaptionNLStatus (v : string) (r : Row) : Row :=
  mkRow (URL r) (ResolverURL r) (SDCStatus r) (CaptionENStatus r) v (CaptionCandidate r).
Definition set_CaptionCandidate (v : string) (r : Row) : Row :=
  mkRow (URL r) (ResolverURL r) (SDCStatus r) (CaptionENStatus r) (CaptionNLStatus r) v.

(** [df.at[i, col]], read and written, for a row [i] of the frame (the rows
    [main] works on are rows of [df]). *)
Definition df_get (col : Row → string) (i : nat) (df : list Row) : string :=
  default "" (col <$> df !! i).
Definition df_set (set : string → Row → Row) (i : nat) (v : string) (df : list Row)
  : list Row :=
  alter (set v) i df.

(** [df.at[i, col] = df.at[i, col] or v], and the [if not df.at[i, col]: ...]
    of the error paths. *)
Definition df_set_if_empty (col : Row → string) (set : string → Row → Row)
    (i : nat) (v : string) (df : list Row) : list Row :=
  if Py.is_empty (df_get col i df) then df_set set i v df else df.

(** [str(n)] *)
Definition str_of_int (n : Z) : string := NilZero.string_of_int (Z.to_int n).

(** [MID_RE], compiled with [re.IGNORECASE], without its final [$]: a slash,
    group 1 (the letter M and one or more digits), then optionally one of
    [/ ? #] followed by any characters of the same line. *)
Definition MID_RE : Re.regex :=
  Re.Seq (Re.chr "/")
    (Re.Seq (Re.Seq (Re.chr_i "M") (Re.plus Re.digit))
       (Re.opt (Re.Seq (Re.one_of "/?#") (Re.Star Re.dot)))).

(** The text of group 1 of a match of [MID_RE] that starts at [s]: the
    letter and the digits after it. *)
Fixpoint digit_run (s : string) : string :=
  match s with
  | String c t => if Py.isdigit c then String c (digit_run t) else EmptyString
  | EmptyString => EmptyString
  end.

Definition mid_group (s : string) : string :=
  match Py.drop 1 s with
  | String m t => String m (digit_run t)
  | EmptyString => EmptyString
  end.

Definition extract_mid (entity_url : string) : option string :=
  let s := Py.strip entity_url in
  if Py.is_empty s then None
  else
    (* Try URL-style match first *)
    match Re.search_end MID_RE s with
    | Some i => Some (Py.upper (mid_group (Py.drop i s)))
    | None =>
        (* Also accept bare IDs like "M12345" or "m12345" *)
        if Re.fullmatch MID_SHAPE s then Some (Py.upper s) else None
    end.

Definition pageid_from_mid (mid : string) : option Z :=
  let s := Py.strip mid in
  if Py.is_empty s then None
  else if Re.fullmatch MID_SHAPE s
  then Dyn.int_of_str (Py.drop 1 s)
  else None.

(** The variables of [main] that live across rows. *)
Record LoopState : Type := mkLoop {
  ls_df : list Row;
  ls_csrf : string;
  ls_opened : Z;
  ls_success_since_flush : Z
}.

Inductive outcome (A : Type) : Type :=
| Ok (a : A)
| Raise (e : exn)
| OutOfFuel.   (* the bound of a modelled loop was hit; see [mw_mutate_total] *)
Arguments Ok {A} a.
Arguments Raise {A} e.
Arguments OutOfFuel {A}.

(** A Python [float]: a number, an infinity, or not-a-number. *)
Inductive pyfloat : Type :=
| FNum (q : Q)
| FInf
| FNegInf
| FNan.

(** Python's library functions that the program calls and that have no
    counterpart here: [float(s)] ([None]: it raises), the longest wait that
    [time.sleep] takes (the range of the clock, about 9.2e9 seconds on
    CPython), the text of [json.dumps(j)], [repr] and [str] of a value
    inside a message, the test
    [urlparse(u).scheme in ("http", "https") and urlparse(u).netloc], and
    [str(e)] of an [HTTPError]. *)
Class PyLib : Type := {
  py_float : string → option pyfloat;
  sleep_max : Q;
  json_dumps : json → string;
  py_repr : json → string;
  py_str : json → string;
  url_is_absolute_http : string → bool;
  http_error_str : response → string
}.

Section Program.

Context {W : Type} {env : Env W} {lib : PyLib}.

Variable cfg : Config.

(** A computation: from a world to an outcome, the next world and the
    events it produced, oldest first. *)
Definition M (A : Type) : Type := W → outcome A * W * list event.

Definition ret {A} (a : A) : M A := λ w, (Ok a, w, []).
Definition raise {A} (e : exn) : M A := λ w, (Raise e, w, []).
Definition bind {A B} (m : M A) (f : A → M B) : M B := λ w,
  match m w with
  | (Ok a, w1, l1) => let '(o, w2, l2) := f a w1 in (o, w2, l1 ++ l2)
  | (Raise e, w1, l1) => (Raise e, w1, l1)
  | (OutOfFuel, w1, l1) => (OutOfFuel, w1, l1)
  end.

#[global] Instance M_ret : MRet M := @ret.
#[global] Instance M_bind : MBind M := λ A B f m, bind m f.

(** [try: m  except <all e>: h e] — the handler re-raises what it does not
    handle. *)
Definition try_except {A} (m : M A) (h : exn → M A) : M A := λ w,
  match m w with
  | (Raise e, w1, l1) => let '(o, w2, l2) := h e w1 in (o, w2, l1 ++ l2)
  | r => r
  end.

Definition lift {A} (x : exn + A) : M A :=
  match x with inl e => raise e | inr a => ret a end.

Definition emit (ev : event) : M unit := λ w, (Ok tt, w, [ev]).

Definition time_sleep (secs : Q) : M unit := emit (EvSleep secs).

Definition random_random : M Q := λ w,
  let '(r, w') := env_random w in (Ok r, w', []).

Definition of_http (x : http_result) : outcome response :=
  match x with
  | HttpFail msg => Raise (TransportError msg)
  | HttpResp r => Ok r
  end.

Definition session_get (params : form) : M response := λ w,
  let '(x, w') := env_get params w in (of_http x, w', [EvGet params]).

Definition session_post (params data : form) : M response := λ w,
  let '(x, w') := env_post params data w in (of_http x, w', [EvPost params data]).

(** [r.raise_for_status()] of the requests library: an [HTTPError] for the
    client and server error statuses. *)
Definition raises_for_status (status : Z) : bool :=
  (400 <=? status) && (status <? 600).

Definition raise_for_status (r : response) : M unit :=
  if raises_for_status (status_code r) then raise (HTTPError r) else mret tt.

(** [r.json()]; its failure is a [RequestException] (requests 2.27 and
    later). *)
Definition response_json (r : response) : M json :=
  match body r with
  | Some j => mret j
  | None => raise JSONDecodeError
  end.

(** [d.setdefault(k, v)] *)
Definition setdefault (k : string) (v : fval) (d : form) : form :=
  match d !! k with
  | Some _ => d
  | None => <[k := v]> d
  end.

(* ------------------------------------------------------------------- *)
(** *** MediaWiki / HTTP primitives *)
(* ------------------------------------------------------------------- *)

(** The [except] clauses of [mw_request] log and re-raise; they are not
    written out. *)
Definition mw_request (method : string) (params : form) (data : option form)
  : M json :=
  let method_upper := Py.upper method in
  if negb (String.eqb method_upper "GET" || String.eqb method_upper "POST")
  then raise (ValueError "mw_request: unsupported method")
  else
    r ← (if String.eqb method_upper "GET"
         then session_get params
         else session_post params (default ∅ data));
    raise_for_status r;;
    response_json r.

Definition csrf_params : form :=
  {[ "action" := FStr "query"; "meta" := FStr "tokens";
     "type" := FStr "csrf"; "format" := FStr "json" ]}.

Definition fetch_csrf : M string :=
  if Py.is_empty (Py.strip API_URL)
  then raise (TypeError "fetch_csrf: 'api_url' must be a non-empty string")
  else if Py.is_empty (Py.strip USER_AGENT)
  then raise (TypeError "fetch_csrf: 'user_agent' must be a non-empty string")
  else
    try_except
      (r ← session_get csrf_params;
       raise_for_status r;;
       j ← try_except (response_json r)
             (λ e, match e with
                   | JSONDecodeError =>
                       raise (RuntimeError "CSRF token response is not valid JSON")
                   | _ => raise e
                   end);
       query ← lift (Dyn.get j "query");
       tokens ← lift (Dyn.get_default (Dyn.or_empty_dict query) "tokens" (JDict []));
       token ← lift (Dyn.get tokens "csrftoken");
       match token with
       | JStr t =>
           if Py.is_empty t || Py.is_empty (Py.strip t)
           then raise (RuntimeError "No CSRF token found in API response")
           else mret t
       | _ => raise (RuntimeError "No CSRF token found in API response")
       end)
      (λ e, if is_RequestException e
            then raise (RuntimeError "Failed to fetch CSRF token")
            else raise e).


(** The wait before a retry:
    [base_sleep * (2 ** (attempt - 1)) * (0.8 + 0.4 * random.random())]. *)
Definition backoff_of (base_sleep : Q) (attempt : nat) (u : Q) : Q :=
  (base_sleep * inject_Z (2 ^ (Z.of_nat attempt - 1)) * ((8 # 10) + (4 # 10) * u))%Q.

Definition backoff (base_sleep : Q) (attempt : nat) : M Q :=
  u ← random_random;
  mret (backoff_of base_sleep attempt u).

(** [max(x, base_sleep)]: the first argument unless the second is greater
    than it, which nothing is than not-a-number. *)
Definition py_max (x : pyfloat) (base_sleep : Q) : pyfloat :=
  match x with
  | FNum q => FNum (if Qle_bool base_sleep q then q else base_sleep)
  | FNegInf => FNum base_sleep
  | FInf => FInf
  | FNan => FNan
  end.

(** The wait chosen for a response whose status is in [RETRYABLE_STATUS]. *)
Definition status_sleep (base_sleep : Q) (attempt : nat) (r : response) : M pyfloat :=
  match retry_after r with
  | Some ra =>
      match py_float ra with
      | Some x => mret (py_max x base_sleep)
      | None => mret (FNum base_sleep)
      end
  | None => s ← backoff base_sleep attempt; mret (FNum s)
  end.

(** What [time.sleep(x)] makes of its argument: the seconds to wait, or the
    exception it raises, [ValueError] for not-a-number, [OverflowError] for
    what the clock cannot hold, [ValueError] for a negative wait. *)
Definition sleep_arg (x : pyfloat) : exn + Q :=
  match x with
  | FNan => inl (ValueError "Invalid value NaN (not a number)")
  | FInf | FNegInf =>
      inl (OverflowError "timestamp too large to convert to C _PyTime_t")
  | FNum q =>
      if negb (Qle_bool (- sleep_max) q && Qle_bool q sleep_max)
      then inl (OverflowError "timestamp too large to convert to C _PyTime_t")
      else if negb (Qle_bool 0 q)
      then inl (ValueError "sleep length must be non-negative")
      else inr q
  end.

(** [time.sleep(x)] for a float. *)
Definition time_sleep_float (x : pyfloat) : M unit :=
  secs ← lift (sleep_arg x);
  time_sleep secs.

(** ["error" in j] *)
Definition has_error_key (j : json) : exn + bool :=
  match j with
  | JDict d => inr (bool_decide (is_Some (Dyn.assoc "error" d)))
  | JList l => inr (existsb (λ x, Dyn.eq_str x "error") l)
  | JStr s => inr (Py.contains "error" s)
  | _ => inl (TypeError "argument is not iterable")
  end.

(** [j["error"]], once ["error" in j] holds. *)
Definition error_of (j : json) : exn + json :=
  match j with
  | JDict d =>
      match Dyn.assoc "error" d with
      | Some e => inr e
      | None => inl (TypeError "KeyError")
      end
  | _ => inl (TypeError "indices must be integers")
  end.

(** [(err.get("code") or "").lower()] *)
Definition error_code (err : json) : exn + string :=
  c ← Dyn.get err "code";
  match Dyn.or_empty_str c with
  | JStr s => inr (Py.lower s)
  | _ => inl AttributeError
  end.

(** [str(p.get("action"))] inside a message. *)
Definition show_field (v : option fval) : string :=
  match v with
  | None => "None"
  | Some (FStr s) => s
  | Some (FDumps j) => json_dumps j
  end.

Definition api_error_message (p : form) (err : json) : string :=
  "API error for " +:+ show_field (p !! "action") +:+ ": " +:+ py_repr err.

(** How one turn of the [while True] of [mw_mutate] ends: [continue], with
    the token for the next turn, or [return j, token]. *)
Inductive turn : Type :=
| Continue (token : string)
| Return (j : json) (token : string).

(** The [try] statement of one turn. *)
Definition mutate_attempt (p d : form) (max_retries : Z) (base_sleep : Q)
    (attempt : nat) (token : string) : M turn :=
  try_except
    (r ← session_post p d;
     early ←
       (if bool_decide (status_code r ∈ RETRYABLE_STATUS)
        then
          sleep ← status_sleep base_sleep attempt r;
          if Z.of_nat attempt <=? max_retries
          then time_sleep_float sleep;; mret (Some (Continue token))
          else raise_for_status r;; mret None
        else mret None);
     match early with
     | Some t => mret t
     | None =>
         raise_for_status r;;
         j ← response_json r;
         has_error ← lift (has_error_key j);
         if has_error : bool
         then
           err ← lift (error_of j);
           code ← lift (error_code err);
           if bool_decide (code ∈ RETRYABLE_API_CODES) && (Z.of_nat attempt <=? max_retries)
           then
             sleep ← backoff base_sleep attempt;
             time_sleep sleep;;
             mret (Continue token)
           else if bool_decide (code ∈ RETRYABLE_AUTH_CODES) && (Z.of_nat attempt <=? max_retries)
           then
             token' ← fetch_csrf;
             mret (Continue token')
           else
             (* Non-retryable error *)
             raise (RuntimeError (api_error_message p err))
         else mret (Return j token)
     end)
    (λ e,
       if is_RequestException e
       then
         (* network/transport retry *)
         if Z.of_nat attempt <=? max_retries
         then
           sleep ← backoff base_sleep attempt;
           time_sleep sleep;;
           mret (Continue token)
         else raise e
       else raise e).

(** The fields every attempt carries. *)
Definition with_auth (token : string) (d : form) : form :=
  setdefault "bot" (FStr "1")
    (setdefault "assert" (FStr "user") (<["token" := FStr token]> d)).

(** The [while True] loop, [fuel] turns of it. *)
Fixpoint mutate_loop (fuel : nat) (p d : form) (max_retries : Z) (base_sleep : Q)
    (attempt : nat) (token : string) : M (json * string) :=
  match fuel with
  | O => λ w, (OutOfFuel, w, [])
  | S fuel' =>
      let attempt := S attempt in
      let d := with_auth token d in
      t ← mutate_attempt p d max_retries base_sleep attempt token;
      match t with
      | Continue token' => mutate_loop fuel' p d max_retries base_sleep attempt token'
      | Return j token' => mret (j, token')
      end
  end.

Definition stable_params (params : form) : form :=
  setdefault "maxlag" (FStr "5") (setdefault "format" (FStr "json") params).

Definition mw_mutate_with (max_retries : Z) (base_sleep : Q)
    (csrf_token : string) (params : form) (data : option form)
  : M (json * string) :=
  if Py.is_empty csrf_token
  then raise (TypeError "mw_mutate: 'csrf_token' must be a non-empty string")
  else if Py.is_empty (Py.strip API_URL)
  then raise (TypeError "mw_mutate: 'api_url' must be a non-empty string")
  else if Py.is_empty (Py.strip USER_AGENT)
  then raise (TypeError "mw_mutate: 'user_agent' must be a non-empty string")
  else if max_retries <? 0
  then raise (TypeError "mw_mutate: 'max_retries' must be an int >= 0")
  else if Qle_bool base_sleep 0
  then raise (TypeError "mw_mutate: 'base_sleep' must be a positive number")
  else
    mutate_loop (S (Z.to_nat max_retries))
      (stable_params params) (default ∅ data) max_retries base_sleep 0 csrf_token.

(** The call as every caller makes it: [max_retries=4, base_sleep=1.0]. *)
Definition mw_mutate : string → form → option form → M (json * string) :=
  mw_mutate_with 4 1.


(* ------------------------------------------------------------------- *)
(** *** SDC: statement inspection and mutation *)
(* ------------------------------------------------------------------- *)

Definition is_mid (mid : string) : bool :=
  Re.fullmatch MID_SHAPE (Py.strip mid).

(** The [except requests.HTTPError] clause of both read helpers: the
    error code of the body of the failed response, if it can be read. *)
Definition http_error_code (r : response) : option json :=
  match body r with
  | Some j =>
      match (err ← Dyn.get j "error"; Dyn.get (Dyn.or_empty_dict err) "code") with
      | inr c => Some c
      | inl _ => None
      end
  | None => None
  end.

Definition is_no_such_entity (e : exn) : bool :=
  match e with
  | HTTPError r =>
      match http_error_code r with
      | Some c => Dyn.eq_str c "no-such-entity"
      | None => false
      end
  | _ => false
  end.

Definition get_claims_params (mid : string) : form :=
  {[ "action" := FStr "wbgetclaims"; "entity" := FStr mid;
     "property" := FStr P_SOURCE_OF_FILE; "format" := FStr "json" ]}.

Definition get_p7482_claims (mid : string) : M (list json) :=
  if negb (is_mid mid) then mret []
  else
    resp ← try_except (j ← mw_request "GET" (get_claims_params mid) None; mret (Some j))
              (λ e, if is_no_such_entity e then mret None else raise e);
    match resp with
    | None => mret []
    | Some resp =>
        claims ← lift (Dyn.get resp "claims");
        match claims with
        | JDict cd =>
            match default (JList []) (Dyn.assoc P_SOURCE_OF_FILE cd) with
            | JList prop_claims => mret prop_claims
            | _ => mret []
            end
        | _ => mret []
        end
    end.

Definition item_value (numeric_qid : Z) : json :=
  JDict [("entity-type", JStr "item"); ("numeric-id", JInt numeric_qid)].

Definition create_claim_data (mid : string) : form :=
  {[ "entity" := FStr mid; "property" := FStr P_SOURCE_OF_FILE;
     "snaktype" := FStr "value"; "value" := FDumps (item_value Q_FILE_ONLINE) ]}.

Definition create_p7482_claim (csrf mid : string) : M (json * string) :=
  if Py.is_empty (Py.strip csrf)
  then raise (ValueError "create_p7482_claim: 'csrf' must be a non-empty string")
  else if negb (is_mid mid)
  then raise (ValueError "create_p7482_claim: invalid MediaInfo ID")
  else
    '(j, new_token) ← mw_mutate csrf {[ "action" := FStr "wbcreateclaim" ]}
                        (Some (create_claim_data mid));
    claim ← lift (Dyn.get (Dyn.or_empty_dict j) "claim");
    match claim with
    | JDict cd =>
        match Dyn.assoc "id" cd with
        | Some id => mret (id, new_token)
        | None => raise (RuntimeError ("wbcreateclaim error: unexpected response " +:+ py_repr j))
        end
    | _ => raise (RuntimeError ("wbcreateclaim error: unexpected response " +:+ py_repr j))
    end.

Definition set_qualifier_params : form :=
  {[ "action" := FStr "wbsetqualifier"; "format" := FStr "json"; "maxlag" := FStr "5" ]}.

Definition set_qualifier_data (csrf claim_id prop : string) (value : json) : form :=
  {[ "claim" := FStr claim_id; "property" := FStr prop; "snaktype" := FStr "value";
     "value" := FDumps value; "token" := FStr csrf; "bot" := FStr "1";
     "assert" := FStr "user" ]}.

(** The common end of the two qualifier writers. *)
Definition set_qualifier (what : string) (csrf claim_id prop : string) (value : json)
  : M (json * string) :=
  '(resp_json, csrf) ← mw_mutate csrf set_qualifier_params
                         (Some (set_qualifier_data csrf claim_id prop value));
  has_error ← lift (has_error_key resp_json);
  if has_error : bool
  then
    err ← lift (error_of resp_json);
    raise (RuntimeError (what +:+ py_repr err))
  else mret (resp_json, csrf).

Definition add_qualifier_url (csrf : string) (claim_id : json) (prop url : string)
  : M (json * string) :=
  match claim_id with
  | JStr cid =>
      if Py.is_empty (Py.strip cid)
      then raise (ValueError "add_qualifier_url: invalid claim_id")
      else if Py.is_empty (Py.strip prop)
      then raise (ValueError "add_qualifier_url: invalid prop")
      else if Py.is_empty (Py.strip url)
      then raise (ValueError "add_qualifier_url: url must be a non-empty string")
      else
        let url_str := Py.strip url in
        if negb (url_is_absolute_http url_str)
        then raise (ValueError "add_qualifier_url: invalid absolute URL")
        else set_qualifier "wbsetqualifier (url) error: " csrf cid prop (JStr url_str)
  | _ => raise (ValueError "add_qualifier_url: invalid claim_id")
  end.

Definition add_qualifier_q (csrf : string) (claim_id : json) (prop : string)
    (numeric_qid : Z) : M (json * string) :=
  match claim_id with
  | JStr cid =>
      if Py.is_empty (Py.strip cid)
      then raise (ValueError "add_qualifier_q: invalid claim_id")
      else if Py.is_empty (Py.strip prop)
      then raise (ValueError "add_qualifier_q: invalid prop")
      else if numeric_qid <=? 0
      then raise (ValueError "add_qualifier_q: invalid numeric_qid")
      else set_qualifier "wbsetqualifier (Q) error: " csrf cid prop (item_value numeric_qid)
  | _ => raise (ValueError "add_qualifier_q: invalid claim_id")
  end.

Definition ensure_statement (csrf mid resolver_url : string)
  : M (string * json * string) :=
  if Py.is_empty (Py.strip mid)
  then raise (ValueError "ensure_statement: invalid mid")
  else if Py.is_empty (Py.strip resolver_url)
          || negb (Py.startswith "http://" resolver_url
                   || Py.startswith "https://" resolver_url)
  then raise (ValueError "ensure_statement: invalid resolver_url")
  else
    existing ← get_p7482_claims mid;
    (* Find first P7482=Q74228490, if any *)
    match List.find (λ cl, claim_has_value_q cl Q_FILE_ONLINE) existing with
    | None =>
        (* Create new claim + both qualifiers *)
        '(cid, csrf) ← create_p7482_claim csrf mid;
        '(_, csrf) ← add_qualifier_url csrf cid P_DESCRIBED_AT_URL resolver_url;
        '(_, csrf) ← add_qualifier_q csrf cid P_OPERATOR Q_DELPHER;
        mret ("created", cid, csrf)
    | Some target =>
        (* Ensure qualifiers on existing claim *)
        cid ← lift (Dyn.get target "id");
        has_url ← lift (claim_has_qualifier_url target P_DESCRIBED_AT_URL resolver_url);
        '(need_update, csrf) ←
          (if negb has_url
           then '(_, csrf) ← add_qualifier_url csrf cid P_DESCRIBED_AT_URL resolver_url;
                mret (true, csrf)
           else mret (false, csrf));
        has_q ← lift (claim_has_qualifier_q target P_OPERATOR Q_DELPHER);
        '(need_update, csrf) ←
          (if negb has_q
           then '(_, csrf) ← add_qualifier_q csrf cid P_OPERATOR Q_DELPHER;
                mret (true, csrf)
           else mret (need_update, csrf));
        mret (if need_update : bool then "updated" else "already-present", cid, csrf)
    end.


(* ------------------------------------------------------------------- *)
(** *** SDC: labels / captions *)
(* ------------------------------------------------------------------- *)

Definition get_labels_params (mid_norm : string) : form :=
  {[ "action" := FStr "wbgetentities"; "ids" := FStr mid_norm;
     "props" := FStr "labels"; "format" := FStr "json" ]}.

(** The loop that fills [out] in [get_existing_labels]. *)
Fixpoint collect_labels (items : list (string * json)) (out : gmap string string)
  : exn + gmap string string :=
  match items with
  | [] => inr out
  | (lang, obj) :: rest =>
      val ← Dyn.get_default (Dyn.or_empty_dict obj) "value" (JStr "");
      match val with
      | JStr v =>
          let s := Py.strip v in
          if Py.is_empty s then collect_labels rest out
          else collect_labels rest (<[lang := s]> out)
      | _ => collect_labels rest out
      end
  end.

Definition get_existing_labels (mid : string) : M (gmap string string) :=
  if Py.is_empty (Py.strip mid)
  then raise (ValueError "get_existing_labels: empty or invalid mid")
  else if negb (is_mid mid)
  then raise (ValueError "get_existing_labels: MID must be 'M<digits>'")
  else
    let mid_norm := "M" +:+ Py.drop 1 (Py.strip mid) in
    resp ← try_except (j ← mw_request "GET" (get_labels_params mid_norm) None; mret (Some j))
              (λ e, if is_no_such_entity e then mret None else raise e);
    match resp with
    | None => mret ∅
    | Some (JDict rd) =>
        match default JNull (Dyn.assoc "entities" rd) with
        | JDict [] => mret ∅
        | JDict (((_, first) :: _) as entities) =>
            let ent := match default JNull (Dyn.assoc mid_norm entities) with
                       | JNull => first
                       | e => e
                       end in
            labels ← lift (Dyn.get ent "labels");
            match Dyn.or_empty_dict labels with
            | JDict ld => lift (collect_labels (Dyn.items ld) ∅)
            | _ => mret ∅
            end
        | _ => mret ∅
        end
    | Some _ => raise (RuntimeError "wbgetentities: unexpected response type")
    end.

Definition live_title_params (pageid : Z) : form :=
  {[ "action" := FStr "query"; "format" := FStr "json"; "formatversion" := FStr "2";
     "prop" := FStr "info"; "pageids" := FStr (str_of_int pageid) ]}.

Definition get_live_file_title (pageid : Z) : M (option string) :=
  if pageid <=? 0
  then raise (ValueError "get_live_file_title: pageid must be a positive int")
  else
    resp ← mw_request "GET" (live_title_params pageid) None;
    match resp with
    | JDict rd =>
        pages ← lift (Dyn.get (Dyn.or_empty_dict (default JNull (Dyn.assoc "query" rd))) "pages");
        match pages with
        | JList (p0 :: _) =>
            let page := Dyn.or_empty_dict p0 in
            missing ← lift (Dyn.get page "missing");
            if Dyn.truthy missing then mret None
            else
              title ← lift (Dyn.get page "title");
              match title with
              | JStr t => if Py.is_empty (Py.strip t) then mret None else mret (Some t)
              | _ => mret None
              end
        | _ => mret None
        end
    | _ => raise (RuntimeError "get_live_file_title: unexpected response type")
    end.

(** [str(e)] for the exceptions of the program. *)
Definition exn_str (e : exn) : string :=
  match e with
  | TypeError m | ValueError m | RuntimeError m | TransportError m
  | OverflowError m => m
  | AttributeError => "object has no attribute"
  | HTTPError r => http_error_str r
  | JSONDecodeError => "Expecting value"
  | SystemExit c => str_of_int c
  end.

Definition set_label_data (mid lang value : string) : form :=
  {[ "id" := FStr (Py.strip mid); "language" := FStr (Py.strip lang);
     "value" := FStr value ]}.

Definition set_label (csrf mid lang value : string) : M json :=
  if Py.is_empty (Py.strip mid) || negb (is_mid mid)
  then raise (ValueError "set_label: invalid MediaInfo ID")
  else if Py.is_empty (Py.strip lang)
  then raise (ValueError "set_label: 'lang' must be a non-empty string.")
  else if Py.is_empty (Py.strip value)
  then raise (ValueError "set_label: 'value' must be a non-empty string.")
  else
    '(j, _new_csrf) ←
      try_except
        (mw_mutate csrf {[ "action" := FStr "wbsetlabel" ]}
           (Some (set_label_data mid lang value)))
        (λ e,
           match e with
           | HTTPError r =>
               raise (RuntimeError
                        ("wbsetlabel HTTP " +:+ str_of_int (status_code r) +:+ " "
                           +:+ match body r with
                               | Some b =>
                                   match (err ← Dyn.get b "error";
                                          Dyn.get_default (Dyn.or_empty_dict err) "code" (JStr "")) with
                                   | inr c => py_str c
                                   | inl _ => ""
                                   end
                               | None => ""
                               end))
           | _ =>
               if is_Exception e
               then raise (RuntimeError ("wbsetlabel transport/error: " +:+ exn_str e))
               else raise e
           end);
    match j with
    | JDict jd =>
        match Dyn.assoc "error" jd with
        | Some err =>
            code ← lift (Dyn.get err "code");
            info ← lift (Dyn.get err "info");
            raise (RuntimeError ("wbsetlabel API error: " +:+ py_str code +:+ " - " +:+ py_str info))
        | None => mret j
        end
    | _ => mret j
    end.


(* ------------------------------------------------------------------- *)
(** *** Orchestration *)
(* ------------------------------------------------------------------- *)

(** [write_back(df, target_sheet)], for the sheet name [main] resolved. *)
Definition write_back (df : list Row) : M unit :=
  emit (EvWriteBack df);;
  ok ← (λ w, let '(b, w') := env_write df w in (Ok b, w', []));
  if ok : bool then mret tt else raise (SystemExit 1).

(** The [em] of the [except requests.HTTPError] clauses of [main]. *)
Definition http_em (r : response) : string :=
  let plain := "HTTP " +:+ str_of_int (status_code r) in
  match body r with
  | Some errj =>
      match (err ← Dyn.get_default errj "error" (JDict []);
             Dyn.get_default err "code" (JStr "")) with
      | inr c => plain +:+ " " +:+ py_str c
      | inl _ => plain
      end
  | None => plain
  end.

(** The message an [except] clause of [main] records; [None]: the clause
    does not catch [e]. *)
Definition caught_message (e : exn) : option string :=
  match e with
  | HTTPError r => Some ("error:" +:+ http_em r)
  | _ => if is_Exception e then Some ("error:" +:+ exn_str e) else None
  end.

(** Ensure the statement with qualifiers (if resolver looks OK): the
    frame, the token and [row_had_change] after it. *)
Definition statement_part (i : nat) (mid resolver : string)
    (df : list Row) (csrf : string) : M (list Row * string * bool) :=
  try_except
    (if negb (Py.is_empty resolver) && Py.startswith "http" resolver
     then
       '(status, _cid, csrf') ← ensure_statement csrf mid resolver;
       mret (df_set set_SDCStatus i status df, csrf',
             String.eqb status "created" || String.eqb status "updated")
     else
       mret (df_set set_SDCStatus i
               ("error: bad ResolverURL " +:+ py_repr (JStr resolver)) df,
             csrf, false))
    (λ e, match caught_message e with
          | Some msg => mret (df_set set_SDCStatus i msg df, csrf, false)
          | None => raise e
          end).

(** What the [except] clauses of the caption block leave behind. *)
Definition captions_failed (i : nat) (df : list Row) (changed : bool) (opened : Z)
    (e : exn) : M (list Row * bool * Z) :=
  match caught_message e with
  | Some msg =>
      mret (df_set_if_empty CaptionNLStatus set_CaptionNLStatus i msg
              (df_set_if_empty CaptionENStatus set_CaptionENStatus i msg df),
            changed, opened)
  | None => raise e
  end.

(** [open_page_in_browser(mid, live_title)] *)
Definition open_page_in_browser (mid : string) : M unit :=
  if Py.is_empty (Py.strip mid) then mret tt else emit (EvBrowser mid).

(** One language of the caption block: write the label if it is missing. *)
Definition caption_lang (set : string → Row → Row) (lang : string) (i : nat)
    (mid candidate csrf : string) (labels : gmap string string)
    (df : list Row) (changed : bool) : M (list Row * bool) :=
  match labels !! lang with
  | None =>
      set_label csrf mid lang candidate;;
      mret (df_set set i "created" df, true)
  | Some _ => mret (df_set set i "already-present" df, changed)
  end.

(** The end of the caption block: nl, then the optional browser tab.  An
    exception ends the block where it is raised; what was recorded before
    it stays. *)
Definition captions_nl (i : nat) (mid candidate csrf : string)
    (labels : gmap string string)
    (df : list Row) (changed : bool) (opened : Z) : M (list Row * bool * Z) :=
  try_except
    ('(df, changed) ←
       caption_lang set_CaptionNLStatus "nl" i mid candidate csrf labels df changed;
     (* Optionally open entity page after any caption change *)
     if negb (OPEN_AFTER_SUCCESS cfg =? 0)
        && (opened <? OPEN_AFTER_SUCCESS_MAX cfg)
        && (String.eqb (df_get CaptionENStatus i df) "created"
            || String.eqb (df_get CaptionNLStatus i df) "created")
     then open_page_in_browser mid;; mret (df, changed, opened + 1)
     else mret (df, changed, opened))
    (captions_failed i df changed opened).

(** The caption block from the labels on: en, then the rest. *)
Definition captions_langs (i : nat) (mid candidate csrf : string)
    (labels : gmap string string)
    (df : list Row) (changed : bool) (opened : Z) : M (list Row * bool * Z) :=
  try_except
    ('(df, changed) ←
       caption_lang set_CaptionENStatus "en" i mid candidate csrf labels df changed;
     captions_nl i mid candidate csrf labels df changed opened)
    (captions_failed i df changed opened).

(** Captions from LIVE title (do not overwrite existing): the frame,
    [row_had_change] and [opened] after the block. *)
Definition captions_part (i : nat) (mid : string) (pageid : option Z)
    (live_title : option string) (csrf : string)
    (df : list Row) (changed : bool) (opened : Z) : M (list Row * bool * Z) :=
  try_except
    (pid ← match pageid with
           | Some n => if n =? 0
                       then raise (RuntimeError "no pageid via Special:EntityData")
                       else mret n
           | None => raise (RuntimeError "no pageid via Special:EntityData")
           end;
     live_title ←
       match live_title with
       | Some t => mret t
       | None =>
           t ← get_live_file_title pid;
           match t with
           | Some t => mret t
           | None => raise (RuntimeError "no live title for pageid")
           end
       end;
     let candidate := derive_caption_from_live_title live_title in
     let df := df_set set_CaptionCandidate i candidate df in
     try_except
       (if Py.is_empty (Py.strip candidate)
        then
          mret (df_set_if_empty CaptionNLStatus set_CaptionNLStatus i "skipped-empty-candidate"
                  (df_set_if_empty CaptionENStatus set_CaptionENStatus i
                     "skipped-empty-candidate" df),
                changed, opened)
        else
          labels ← get_existing_labels mid;
          captions_langs i mid candidate csrf labels df changed opened)
       (captions_failed i df changed opened))
    (captions_failed i df changed opened).

(** Checkpoint write after N successful updates (any change this row): the
    new [success_since_flush]. *)
Definition checkpoint (df : list Row) (success_since_flush : Z) (row_had_change : bool)
  : M Z :=
  if row_had_change
  then
    let success_since_flush := success_since_flush + 1 in
    if CHECKPOINT_EVERY_SUCCESS cfg <=? success_since_flush
    then
      try_except (write_back df)
        (λ e, if is_Exception e then mret tt else raise e);;
      mret 0
    else mret success_since_flush
  else mret success_since_flush.

(** The body of the [for] loop of [main] for the row [(i, row)]. *)
Definition process_row (i : nat) (row : Row) (st : LoopState) : M LoopState :=
  let url := URL row in
  let resolver := ResolverURL row in
  match extract_mid url with
  | None =>
      let msg := "error: no MID in URL " +:+ py_repr (JStr (Py.strip url)) in
      let df := df_set set_SDCStatus i msg (ls_df st) in
      (* captions can not be derived either; mark as skipped if still empty *)
      let df := df_set_if_empty CaptionENStatus set_CaptionENStatus i
                  "skipped-empty-candidate" df in
      let df := df_set_if_empty CaptionNLStatus set_CaptionNLStatus i
                  "skipped-empty-candidate" df in
      (* continue to next row *)
      mret (mkLoop df (ls_csrf st) (ls_opened st) (ls_success_since_flush st))
  | Some mid =>
      (* Resolve pageid and LIVE title *)
      pageid ← match pageid_from_mid mid with
               | Some n => mret (Some n)
               | None => time_sleep 1;; mret (pageid_from_mid mid)
               end;
      live_title ← match pageid with
                   | Some n => if n =? 0 then mret None else get_live_file_title n
                   | None => mret None
                   end;
      '(df, csrf, changed) ← statement_part i mid resolver (ls_df st) (ls_csrf st);
      '(df, changed, opened) ←
        captions_part i mid pageid live_title csrf df changed (ls_opened st);
      emit (EvRowEnd i changed df);;
      ssf ← checkpoint df (ls_success_since_flush st) changed;
      (* Polite delay *)
      (if Qlt_le_dec 0 (SLEEP_BETWEEN cfg) then time_sleep (SLEEP_BETWEEN cfg) else mret tt);;
      mret (mkLoop df csrf opened ssf)
  end.

Fixpoint main_loop (work : list (nat * Row)) (st : LoopState) : M LoopState :=
  match work with
  | [] => mret st
  | (i, row) :: rest =>
      st' ← process_row i row st;
      main_loop rest st'
  end.

(** [main], from the first row on: the loop, then the final write-back. *)
Definition main_rows (df : list Row) (work : list (nat * Row)) (csrf : string)
  : M (list Row) :=
  st ← main_loop work (mkLoop df csrf 0 0);
  (* Final write-back *)
  write_back (ls_df st);;
  mret (ls_df st).

(* ------------------------------------------------------------------- *)
(** *** Reading a run *)
(* ------------------------------------------------------------------- *)

(** The wait chosen before the retry that follows a response [r] with a
    status of [RETRYABLE_STATUS], and the world after choosing it: the
    float of the server's Retry-After, never below [base_sleep], when
    [float] reads the header; [base_sleep] when it does not; the jittered
    exponential backoff when there is no header. *)
Definition retry_wait (base_sleep : Q) (attempt : nat) (r : response) (w : W)
  : pyfloat * W :=
  match retry_after r with
  | Some ra =>
      (match py_float ra with
       | Some x => py_max x base_sleep
       | None => FNum base_sleep
       end, w)
  | None =>
      let '(u, w') := env_random w in (FNum (backoff_of base_sleep attempt u), w')
  end.

(** A run that starts with the events [evs]. *)
Definition prepend {A} (evs : list event) (r : outcome A * W * list event)
  : outcome A * W * list event :=
  let '(o, w, l) := r in (o, w, evs ++ l).

(** [m] only produces events for which [P] holds, never hits the bound of a
    modelled loop, returns only values for which [Q] holds and raises only
    exceptions for which [E] holds. *)
Definition sat {A} (P : event → Prop) (Q : A → Prop) (E : exn → Prop) (m : M A)
  : Prop :=
  ∀ w, Forall P (m w).2
       ∧ match (m w).1.1 with
         | Ok a => Q a
         | Raise e => E e
         | OutOfFuel => False
         end.

End Program.

Definition is_post (e : event) : bool :=
  match e with EvPost _ _ => true | _ => false end.

Definition is_sleep (e : event) : bool :=
  match e with EvSleep _ => true | _ => false end.

Definition is_get (e : event) : bool :=
  match e with EvGet _ => true | _ => false end.

(** A call of the remote API, a wait or a browser tab: what the work on one
    row may do. *)
Definition is_row_work (e : event) : Prop :=
  match e with
  | EvWriteBack _ | EvRowEnd _ _ _ => False
  | _ => True
  end.

(** The write requests of a run: the [action] and, for a qualifier or a
    label, the property or the language. *)
Definition write_of (e : event) : option (string * string) :=
  match e with
  | EvPost p d =>
      Some (match p !! "action" with Some (FStr a) => a | _ => "" end,
            match d !! "property", d !! "language" with
            | Some (FStr x), _ => x
            | _, Some (FStr x) => x
            | _, _ => ""
            end)
  | _ => None
  end.

Definition writes (l : list event) : list (string * string) := omap write_of l.

(** The persist calls and the ends of rows of a run, in order. *)
Inductive mark : Type :=
| RowMark (changed : bool) (df : list Row)
| FlushMark (df : list Row).

Definition mark_of (e : event) : option mark :=
  match e with
  | EvRowEnd _ b df => Some (RowMark b df)
  | EvWriteBack df => Some (FlushMark df)
  | _ => None
  end.

Definition marks (l : list event) : list mark := omap mark_of l.

Definition is_changed_row (m : mark) : bool :=
  match m with RowMark true _ => true | _ => false end.

Definition is_flush (m : mark) : bool :=
  match m with FlushMark _ => true | _ => false end.

(** The marks the checkpoint rule prescribes for rows that end with the
    given [row_had_change] and frame, from a counter value on. *)
Fixpoint checkpoint_marks (threshold counter : Z) (rows : list (bool * list Row))
  : list mark :=
  match rows with
  | [] => []
  | (changed, df) :: rest =>
      if changed
      then
        if threshold <=? counter + 1
        then RowMark true df :: FlushMark df :: checkpoint_marks threshold 0 rest
        else RowMark true df :: checkpoint_marks threshold (counter + 1) rest
      else RowMark false df :: checkpoint_marks threshold counter rest
  end.

(* ===================================================================== *)
(** ** Two environments *)
(* ===================================================================== *)

(** *** A library for the examples

    [float] on integer numerals (the only ones the examples pass to it;
    anything else counts as not a number), a short [repr], and the absolute
    URL test for the plain case: the scheme, [://], then a host that is not
    empty. *)
Definition sample_repr (j : json) : string :=
  match j with
  | JNull => "None"
  | JBool b => if b then "True" else "False"
  | JInt n => str_of_int n
  | JStr s => "'" +:+ s +:+ "'"
  | JList _ => "[...]"
  | JDict _ => "{...}"
  end.

Definition sample_str (j : json) : string :=
  match j with
  | JStr s => s
  | _ => sample_repr j
  end.

Definition sample_url_test (u : string) : bool :=
  let host :=
    if Py.startswith "http://" u then Some (Py.drop 7 u)
    else if Py.startswith "https://" u then Some (Py.drop 8 u)
    else None in
  match host with
  | Some (String c _) => negb (existsb (Ascii.eqb c) (list_ascii_of_string "/?#"))
  | _ => false
  end.

Definition sample_lib : PyLib := {|
  py_float := λ s,
    match Dyn.int_of_str s with
    | Some n => Some (FNum (inject_Z n))
    | None =>
        if String.eqb s "nan" then Some FNan
        else if String.eqb s "inf" then Some FInf
        else None
    end;
  sleep_max := 9223372036;
  json_dumps := sample_repr;
  py_repr := sample_repr;
  py_str := sample_str;
  url_is_absolute_http := sample_url_test;
  http_error_str := λ r, "HTTP error " +:+ str_of_int (status_code r)
|}.

(** *** A scripted remote end

    Every request, read or write, is answered by the next reply of a list
    fixed in advance; random draws come from a second list.  It serves to
    replay a given sequence of failures. *)
Record Script : Type := mkScript {
  sc_replies : list http_result;
  sc_randoms : list Q
}.

Definition script_reply (w : Script) : http_result * Script :=
  match sc_replies w with
  | [] => (HttpFail "connection refused", w)
  | r :: rs => (r, mkScript rs (sc_randoms w))
  end.

Definition script_random (w : Script) : Q * Script :=
  match sc_randoms w with
  | [] => (0%Q, w)
  | u :: us => (u, mkScript (sc_replies w) us)
  end.

#[global] Instance script_env : Env Script := {|
  env_get := λ _, script_reply;
  env_post := λ _ _, script_reply;
  env_random := script_random;
  env_write := λ _ w, (true, w)
|}.

(** *** A wiki on which writes take effect

    The statements and labels of each entity, the titles of the pages, the
    token of the session.  A write with the session's token is carried out
    and is visible to every later read; nothing fails. *)
Record Wiki : Type := mkWiki {
  wk_claims : gmap string (list json);          (* entity -> its statements *)
  wk_labels : gmap string (list (string * json)); (* entity -> language -> label *)
  wk_titles : gmap string string;               (* page id, in decimal -> title *)
  wk_token : string;
  wk_next : Z                                   (* numbers the statement ids *)
}.

Module Wiki.

Definition ok (j : json) : http_result :=
  HttpResp (Response 200 None (Some j)).

Definition api_error (code : string) : http_result :=
  ok (JDict [("error", JDict [("code", JStr code)])]).

Definition str_field (k : string) (f : form) : string :=
  match f !! k with
  | Some (FStr s) => s
  | _ => ""
  end.

Definition property_of (claim : json) : json :=
  match claim with
  | JDict cd =>
      match Dyn.assoc "mainsnak" cd with
      | Some (JDict sd) => default JNull (Dyn.assoc "property" sd)
      | _ => JNull
      end
  | _ => JNull
  end.

Definition id_of (claim : json) : json :=
  match claim with
  | JDict cd => default JNull (Dyn.assoc "id" cd)
  | _ => JNull
  end.

(** The type tag the wiki gives to a value. *)
Definition datavalue_type (v : json) : string :=
  match v with
  | JDict _ => "wikibase-entityid"
  | _ => "string"
  end.

Definition snak (prop : string) (v : json) : json :=
  JDict [("snaktype", JStr "value"); ("property", JStr prop);
         ("datavalue", JDict [("value", v); ("type", JStr (datavalue_type v))])].

Definition new_claim (guid prop : string) (v : json) : json :=
  JDict [("mainsnak", snak prop v); ("type", JStr "statement");
         ("id", JStr guid); ("rank", JStr "normal")].

(** One more qualifier on the statement whose id is [guid]. *)
Definition add_qualifier (guid prop : string) (v : json) (claim : json) : json :=
  match claim with
  | JDict cd =>
      if Dyn.eq_str (id_of claim) guid
      then
        let quals := match Dyn.assoc "qualifiers" cd with
                     | Some (JDict qd) => qd
                     | _ => []
                     end in
        let old := match Dyn.assoc prop quals with
                   | Some (JList l) => l
                   | _ => []
                   end in
        JDict (Dyn.set "qualifiers"
                 (JDict (Dyn.set prop (JList (old ++ [snak prop v])) quals)) cd)
      else claim
  | _ => claim
  end.

Definition get (params : form) (w : Wiki) : http_result * Wiki :=
  let action := str_field "action" params in
  if String.eqb action "wbgetclaims" then
    match wk_claims w !! str_field "entity" params with
    | None => (api_error "no-such-entity", w)
    | Some cs =>
        let prop := str_field "property" params in
        match List.filter (λ c, Dyn.eq_str (property_of c) prop) cs with
        | [] => (ok (JDict [("claims", JDict [])]), w)
        | l => (ok (JDict [("claims", JDict [(prop, JList l)])]), w)
        end
    end
  else if String.eqb action "wbgetentities" then
    let id := str_field "ids" params in
    match wk_labels w !! id with
    | None =>
        (ok (JDict [("entities", JDict [(id, JDict [("id", JStr id); ("missing", JStr "")])])]), w)
    | Some ls =>
        (ok (JDict [("entities",
                     JDict [(id, JDict [("type", JStr "mediainfo"); ("id", JStr id);
                                        ("labels", JDict ls)])])]), w)
    end
  else if String.eqb action "query" then
    if String.eqb (str_field "meta" params) "tokens"
    then (ok (JDict [("query", JDict [("tokens", JDict [("csrftoken", JStr (wk_token w))])])]), w)
    else
      let pid := str_field "pageids" params in
      match wk_titles w !! pid with
      | Some t =>
          (ok (JDict [("query", JDict [("pages", JList [JDict [("title", JStr t)]])])]), w)
      | None =>
          (ok (JDict [("query",
                       JDict [("pages", JList [JDict [("missing", JBool true)]])])]), w)
      end
  else (api_error "badvalue", w).

Definition post (params data : form) (w : Wiki) : http_result * Wiki :=
  if negb (match data !! "token" with
           | Some (FStr t) => String.eqb t (wk_token w)
           | _ => false
           end)
  then (api_error "badtoken", w)
  else
    let action := str_field "action" params in
    if String.eqb action "wbcreateclaim" then
      match data !! "value" with
      | Some (FDumps v) =>
          let entity := str_field "entity" data in
          let guid := entity +:+ "$" +:+ str_of_int (wk_next w) in
          let claim := new_claim guid (str_field "property" data) v in
          (ok (JDict [("success", JInt 1); ("claim", claim)]),
           mkWiki (<[entity := default [] (wk_claims w !! entity) ++ [claim]]> (wk_claims w))
             (wk_labels w) (wk_titles w) (wk_token w) (wk_next w + 1))
      | _ => (api_error "invalid-snak", w)
      end
    else if String.eqb action "wbsetqualifier" then
      match data !! "value" with
      | Some (FDumps v) =>
          let guid := str_field "claim" data in
          (ok (JDict [("success", JInt 1)]),
           mkWiki (List.map (add_qualifier guid (str_field "property" data) v)
                     <$> wk_claims w)
             (wk_labels w) (wk_titles w) (wk_token w) (wk_next w))
      | _ => (api_error "invalid-snak", w)
      end
    else if String.eqb action "wbsetlabel" then
      let id := str_field "id" data in
      let lang := str_field "language" data in
      let label := JDict [("language", JStr lang); ("value", JStr (str_field "value" data))] in
      (ok (JDict [("success", JInt 1)]),
       mkWiki (wk_claims w)
         (<[id := Dyn.set lang label (default [] (wk_labels w !! id))]> (wk_labels w))
         (wk_titles w) (wk_token w) (wk_next w))
    else (api_error "badvalue", w).

End Wiki.

#[global] Instance wiki_env : Env Wiki := {|
  env_get := Wiki.get;
  env_post := Wiki.post;
  env_random := λ w, (0%Q, w);
  env_write := λ _ w, (true, w)
|}.

(* ===================================================================== *)
(** ** Sample data and the vocabulary of the statements *)
(* ===================================================================== *)

(** *** Worlds of the examples *)

Definition ok_reply (j : json) : http_result :=
  HttpResp (Response 200 None (Some j)).

Definition error_reply (code : string) : http_result :=
  ok_reply (JDict [("error", JDict [("code", JStr code)])]).

Definition status_reply (status : Z) (retry_after : option string) : http_result :=
  HttpResp (Response status retry_after None).

Definition success : json := JDict [("success", JInt 1)].

Definition label_params : form := {[ "action" := FStr "wbsetlabel" ]}.
Definition label_data : form :=
  {[ "id" := FStr "M1"; "language" := FStr "en"; "value" := FStr "A caption" ]}.

(** The request [mw_mutate "tok" label_params (Some label_data)] sends. *)
Definition label_p : form := stable_params label_params.
Definition label_d : form := with_auth "tok" label_data.

Definition token_reply (token : string) : http_result :=
  ok_reply (JDict [("query", JDict [("tokens", JDict [("csrftoken", JStr token)])])]).



(** A 503 whose Retry-After reads as not-a-number, or as an infinity; the
    success that follows is never asked for. *)
Definition world_503_retry_after_nan : Script :=
  mkScript [status_reply 503 (Some "nan"); ok_reply success] [].

Definition world_503_retry_after_inf : Script :=
  mkScript [status_reply 503 (Some "inf"); ok_reply success] [].

(** A 429 whose Retry-After is 30 seconds, then success; the random draw is 0. *)
Definition world_429_200 : Script :=
  mkScript [status_reply 429 (Some "30"); ok_reply success] [0%Q].

(** A rejected token, the refreshed token, then success. *)
Definition world_badtoken : Script :=
  mkScript [error_reply "badtoken"; token_reply "fresh"; ok_reply success] [].

(** An error the mutator does not retry. *)
Definition world_denied : Script :=
  mkScript [error_reply "permissiondenied"] [].

Definition run_label (w : Script) : outcome (json * string) * Script * list event :=
  mw_mutate (env := script_env) (lib := sample_lib) "tok" label_params (Some label_data) w.

(** The statements of property P7482 the wiki shows for an entity. *)
Definition wiki_p7482 (w : Wiki) (mid : string) : list json :=
  List.filter (λ c, Dyn.eq_str (Wiki.property_of c) P_SOURCE_OF_FILE)
    (default [] (wk_claims w !! mid)).

(** A resolver URL the reconciler and the qualifier writer both accept. *)
Definition valid_resolver_url {lib : PyLib} (url : string) : Prop :=
  Py.is_empty (Py.strip url) = false
  ∧ (Py.startswith "http://" url || Py.startswith "https://" url) = true
  ∧ url_is_absolute_http (Py.strip url) = true.

(** The statement [guid] as the wiki shows it once the reconciler has created
    it and set both qualifiers. *)
Definition reconciled_claim (guid url : string) : json :=
  JDict [("mainsnak", Wiki.snak P_SOURCE_OF_FILE (item_value Q_FILE_ONLINE));
         ("type", JStr "statement"); ("id", JStr guid); ("rank", JStr "normal");
         ("qualifiers",
          JDict [(P_DESCRIBED_AT_URL,
                  JList [Wiki.snak P_DESCRIBED_AT_URL (JStr (Py.strip url))]);
                 (P_OPERATOR, JList [Wiki.snak P_OPERATOR (item_value Q_DELPHER)])])].

Definition sample_url : string := "https://resolver.kb.nl/resolve?urn=KBDDD02:000201168".

Definition other_value_claim : json :=
  Wiki.new_claim "M109018409$7" P_SOURCE_OF_FILE (item_value 66458942).

(** A statement of the right value that only has its URL qualifier. *)
Definition url_only_claim (guid : string) : json :=
  Wiki.add_qualifier guid P_DESCRIBED_AT_URL (JStr sample_url)
    (Wiki.new_claim guid P_SOURCE_OF_FILE (item_value Q_FILE_ONLINE)).

Definition wiki_with (claims : list json) : Wiki :=
  mkWiki {[ "M109018409" := claims ]} ∅ ∅ "tok" 8.

(** An entity whose only P7482 statement has another value. *)
Definition wiki_fresh : Wiki := wiki_with [other_value_claim].

(** An entity whose statement lacks the operator qualifier. *)
Definition wiki_url_only : Wiki := wiki_with [other_value_claim; url_only_claim "M109018409$3"].

(** An entity with two statements of the right value: the first complete,
    the second with the URL qualifier only. *)
Definition wiki_two_claims : Wiki :=
  wiki_with [reconciled_claim "M109018409$2" sample_url; url_only_claim "M109018409$3"].

(** A read answered by HTTP 404 whose body carries the code no-such-entity. *)
Definition no_such_entity_response : response :=
  Response 404 None (Some (JDict [("error", JDict [("code", JStr "no-such-entity")])])).

Definition world_no_entity : Script := mkScript [HttpResp no_such_entity_response] [].

(** The event is not the write of a label in language [lang]. *)
Definition not_label_write (lang : string) (e : event) : Prop :=
  write_of e ≠ Some ("wbsetlabel", lang).

Definition sample_title : string :=
  "File:Rotterdamsche courant 1866-01-02 (IA ddd 010102030).pdf".

(** A row of the sheet on which nothing has been recorded yet. *)
Definition blank_row (mid : string) : Row :=
  mkRow ("https://commons.wikimedia.org/entity/" +:+ mid) sample_url "" "" "" "".

Definition label_of (lang value : string) : string * json :=
  (lang, JDict [("language", JStr lang); ("value", JStr value)]).

(** An entity that has both labels. *)
Definition wiki_labelled : Wiki :=
  mkWiki ∅ {[ "M109018409" := [label_of "en" "An old caption";
                               label_of "nl" "Een oud bijschrift"] ]} ∅ "tok" 1.

(** The answer of the label read for an entity that has the nl label only. *)
Definition labels_reply_nl : http_result :=
  ok_reply (JDict [("entities",
              JDict [("M109018409",
                      JDict [("labels", JDict [label_of "nl" "Een oud bijschrift"])])])]).

(** The nl label is there, and the write of the en label is refused. *)
Definition world_nl_only_denied : Script :=
  mkScript [labels_reply_nl; error_reply "permissiondenied"] [].

(** For each persist call of a run, the number of rows that had ended with a
    change before it. *)
Fixpoint flush_counts (seen : nat) (ms : list mark) : list nat :=
  match ms with
  | [] => []
  | RowMark true _ :: rest => flush_counts (S seen) rest
  | RowMark false _ :: rest => flush_counts seen rest
  | FlushMark _ :: rest => seen :: flush_counts seen rest
  end.

Definition changed_rows (ms : list mark) : nat :=
  length (List.filter is_changed_row ms).

(** [success_since_flush] after the rows. *)
Fixpoint checkpoint_counter (threshold counter : Z) (rows : list (bool * list Row)) : Z :=
  match rows with
  | [] => counter
  | (changed, _) :: rest =>
      if changed
      then
        if threshold <=? counter + 1
        then checkpoint_counter threshold 0 rest
        else checkpoint_counter threshold (counter + 1) rest
      else checkpoint_counter threshold counter rest
  end.

(** The counts at which [k] more changed rows lead to a persist call. *)
Fixpoint flush_points (threshold counter : Z) (seen k : nat) : list nat :=
  match k with
  | O => []
  | S k' =>
      if threshold <=? counter + 1
      then S seen :: flush_points threshold 0 (S seen) k'
      else flush_points threshold (counter + 1) (S seen) k'
  end.

(** [success_since_flush] after [k] more changed rows. *)
Fixpoint flush_counter (threshold counter : Z) (k : nat) : Z :=
  match k with
  | O => counter
  | S k' =>
      if threshold <=? counter + 1
      then flush_counter threshold 0 k'
      else flush_counter threshold (counter + 1) k'
  end.

(** Every persist call comes right at the end of a row that had a change,
    with the frame as that row left it. *)
Fixpoint flushes_follow_rows (prev : option (list Row)) (ms : list mark) : Prop :=
  match ms with
  | [] => True
  | RowMark changed df :: rest =>
      flushes_follow_rows (if changed then Some df else None) rest
  | FlushMark df :: rest => prev = Some df ∧ flushes_follow_rows None rest
  end.

(** The frame a mark carries. *)
Definition frame_of (m : mark) : list Row :=
  match m with
  | RowMark _ df => df
  | FlushMark df => df
  end.

Definition sheet_mids : list string := ["M1"; "M2"; "M3"; "M4"; "M5"; "M6"; "M7"].

(** A sheet of nine rows: one whose URL has no MID, seven entities that
    have neither statement nor labels, and, in between, one entity that has
    both labels and a row without resolver URL. *)
Definition sheet : list Row :=
  mkRow "https://example.org/no-entity" sample_url "" "" "" ""
  :: (blank_row <$> ["M1"; "M2"; "M3"; "M4"])
  ++ [mkRow "https://commons.wikimedia.org/entity/M109018409" "" "" "" "" ""]
  ++ (blank_row <$> ["M5"; "M6"; "M7"]).

Definition sheet_work : list (nat * Row) := imap (λ i row, (i, row)) sheet.

Definition wiki_sheet : Wiki :=
  mkWiki (list_to_map ((λ m, (m, [])) <$> sheet_mids))
    (<["M109018409" := [label_of "en" "An old caption";
                        label_of "nl" "Een oud bijschrift"]]>
       (list_to_map ((λ m, (m, [])) <$> sheet_mids)))
    (<["109018409" := sample_title]>
       (list_to_map ((λ m, (Py.drop 1 m, sample_title)) <$> sheet_mids)))
    "tok" 1.

(** The settings of [main] with a checkpoint every third changed row and no
    delay between rows. *)
Definition checkpoint_3 : Config :=
  {| CHECKPOINT_EVERY_SUCCESS := 3; SLEEP_BETWEEN := 0;
     OPEN_AFTER_SUCCESS := 0; OPEN_AFTER_SUCCESS_MAX := 5 |}.
(** The loop of [main] on that sheet, and what it ends with. *)
Definition sheet_run : outcome LoopState * Wiki * list event :=
  main_loop (lib := sample_lib) checkpoint_3 sheet_work (mkLoop sheet "tok" 0 0)
    wiki_sheet.

Definition is_ok {A} (o : outcome A) : bool :=
  match o with Ok _ => true | _ => false end.

Definition sheet_state : LoopState :=
  match sheet_run.1.1 with
  | Ok st => st
  | _ => mkLoop [] "" 0 0
  end.

(** The longest numeral that [int()] reads and [str()] writes: CPython's
    [sys.int_max_str_digits], 4300 digits unless it is set otherwise.
    Beyond it [int()] raises [ValueError], which [Dyn.int_of_str] does not
    follow; a property of text of any length that goes through [int()]
    carries the limit. *)
Definition int_max_str_digits : nat := 4300.

(* ===================================================================== *)
(** ** The rest of the program *)
(* ===================================================================== *)

(** *** The language of a pattern

    What it means for a text to match a pattern as a whole; [Re.fullmatch]
    decides it (see [fullmatch_spec]). *)
Inductive re_matches : Re.regex → string → Prop :=
| MatchEps : re_matches Re.Eps ""
| MatchSym p c : p c = true → re_matches (Re.Sym p) (String c "")
| MatchSeq r1 r2 s1 s2 :
    re_matches r1 s1 → re_matches r2 s2 → re_matches (Re.Seq r1 r2) (s1 +:+ s2)
| MatchAltL r1 r2 s : re_matches r1 s → re_matches (Re.Alt r1 r2) s
| MatchAltR r1 r2 s : re_matches r2 s → re_matches (Re.Alt r1 r2) s
| MatchStarNil r : re_matches (Re.Star r) ""
| MatchStarApp r s1 s2 :
    re_matches r s1 → re_matches (Re.Star r) s2 → re_matches (Re.Star r) (s1 +:+ s2).

(** Every character of the text satisfies [p]. *)
Fixpoint all_chars (p : ascii → bool) (s : string) : bool :=
  match s with
  | EmptyString => true
  | String c t => p c && all_chars p t
  end.

(** *** Slicing the workload *)

(** The pattern of [apply_slice], [r"^\s*(\d+)\s*[-:]\s*(\d+)\s*$"]: it is
    matched against text without white space at its end, so that [$] is the
    end of the text. *)
Definition RANGE_RE : Re.regex :=
  Re.Seq (Re.Star Re.space)
    (Re.Seq (Re.plus Re.digit)
       (Re.Seq (Re.Star Re.space)
          (Re.Seq (Re.one_of "-:")
             (Re.Seq (Re.Star Re.space)
                (Re.Seq (Re.plus Re.digit) (Re.Star Re.space)))))).

(** The texts of the two groups of a match of [RANGE_RE]: the digits at
    the start, and the digits after the separator. *)
Definition range_groups (rng : string) : string * string :=
  let s := Py.lstrip rng in
  let g1 := digit_run s in
  let after := Py.lstrip (Py.drop (String.length g1) s) in
  (g1, digit_run (Py.lstrip (Py.drop 1 after))).

(** [apply_slice(df)], for the settings [RANGE] (a string, stripped when it
    is read from the environment) and [HEAD] (an integer).  [inl]: the
    function ends the run with [SystemExit(1)]. *)
Definition apply_slice {A} (RANGE : string) (HEAD : Z) (df : list A) : exn + list A :=
  match df with
  | [] => inr df
  | _ =>
      let rng := Py.strip RANGE in
      let has_range := negb (Py.is_empty rng) in
      let has_head := 0 <? HEAD in
      (* Mutually exclusive *)
      if has_range && has_head then inl (SystemExit 1)
      else
        let nrows := Z.of_nat (length df) in
        if has_range
        then
          if negb (Re.fullmatch RANGE_RE rng) then inl (SystemExit 1)
          else
            let '(g1, g2) := range_groups rng in
            match Dyn.int_of_str g1, Dyn.int_of_str g2 with
            | Some start, Some end_ =>
                if negb ((1 <=? start) && (start <=? end_) && (end_ <=? nrows))
                then inl (SystemExit 1)
                else inr (List.firstn (Z.to_nat end_ - Z.to_nat (start - 1))
                            (List.skipn (Z.to_nat (start - 1)) df))
            | _, _ => inl (ValueError "invalid literal for int()")
            end
        else if has_head
        then
          if negb ((1 <=? HEAD) && (HEAD <=? nrows)) then inl (SystemExit 1)
          else inr (List.firstn (Z.to_nat HEAD) df)
        else inr df
  end.

(** *** Worlds of the further examples *)

(** A remote end that cannot be reached: every request fails. *)
Definition world_offline : Script := mkScript [] [].


(** An entity whose statement of the right value has no qualifier yet. *)
Definition bare_claim (guid : string) : json :=
  Wiki.new_claim guid P_SOURCE_OF_FILE (item_value Q_FILE_ONLINE).

Definition wiki_bare : Wiki := wiki_with [other_value_claim; bare_claim "M109018409$3"].

(** The answer of the wiki to a write it carries out. *)
Definition write_done : response := Response 200 None (Some success).

(** *** The frame across a run *)

(** A setter of a result column: it leaves the two input cells alone. *)
Definition keeps_inputs (set : string → Row → Row) : Prop :=
  ∀ v r, URL (set v r) = URL r ∧ ResolverURL (set v r) = ResolverURL r.

(** [df'] is [df] with, at most, result cells of the rows in [rows] filled
    in: the same number of rows, the same input cells everywhere, and the
    other rows as they were. *)
Definition frame_step (rows : list nat) (df df' : list Row) : Prop :=
  length df' = length df
  ∧ ∀ j r, df !! j = Some r →
      ∃ r', df' !! j = Some r'
            ∧ URL r' = URL r ∧ ResolverURL r' = ResolverURL r
            ∧ (j ∉ rows → r' = r).

(** The rows 3 and 4 of the sheet of the examples, as [apply_slice] selects
    them, and the loop of [main] on them. *)
Definition slice_work : list (nat * Row) :=
  match apply_slice "3-4" 0 sheet_work with
  | inr work => work
  | inl _ => []
  end.

Definition slice_run : outcome LoopState * Wiki * list event :=
  main_loop (lib := sample_lib) checkpoint_3 slice_work (mkLoop sheet "tok" 0 0)
    wiki_sheet.

Definition slice_state : LoopState :=
  match slice_run.1.1 with
  | Ok st => st
  | _ => mkLoop [] "" 0 0
  end.

Definition is_browser (e : event) : bool :=
  match e with EvBrowser _ => true | _ => false end.

(** An event that is no browser tab. *)
Definition quiet (e : event) : Prop := is_browser e = false.

(** The browser tabs a run opens. *)
Definition tabs (l : list event) : Z := Z.of_nat (length (List.filter is_browser l)).

(** The rule for browser tabs, for a step that starts with the counter
    [opened] and ends with the counter [get a]: a tab is counted when it is
    opened, the counter never passes the cap by opening one, and a step that
    raises has opened none. *)
Definition tabs_counted {A W} (cfg : Config) (opened : Z) (get : A → Z)
    (r : outcome A * W * list event) : Prop :=
  (OPEN_AFTER_SUCCESS cfg = 0 → tabs r.2 = 0)
  ∧ match r.1.1 with
    | Ok a =>
        opened <= get a ∧ tabs r.2 <= get a - opened
        ∧ get a <= Z.max opened (OPEN_AFTER_SUCCESS_MAX cfg)
    | _ => tabs r.2 = 0
    end.

(** The same for a step that may raise after it has opened a tab. *)
Definition tabs_bounded {A W} (cfg : Config) (opened : Z) (get : A → Z)
    (r : outcome A * W * list event) : Prop :=
  (OPEN_AFTER_SUCCESS cfg = 0 → tabs r.2 = 0)
  ∧ tabs r.2 <= Z.max 0 (OPEN_AFTER_SUCCESS_MAX cfg - opened)
  ∧ match r.1.1 with
    | Ok a =>
        opened <= get a ∧ tabs r.2 <= get a - opened
        ∧ get a <= Z.max opened (OPEN_AFTER_SUCCESS_MAX cfg)
    | _ => True
    end.

(** The settings of the examples with browser tabs switched on, two at
    most. *)
Definition two_tabs : Config :=
  {| CHECKPOINT_EVERY_SUCCESS := 3; SLEEP_BETWEEN := 0;
     OPEN_AFTER_SUCCESS := 1; OPEN_AFTER_SUCCESS_MAX := 2 |}.

Definition tabs_run : outcome LoopState * Wiki * list event :=
  main_loop (lib := sample_lib) two_tabs sheet_work (mkLoop sheet "tok" 0 0) wiki_sheet.

Definition is_write_back (e : event) : bool :=
  match e with EvWriteBack _ => true | _ => false end.

(** The attempts of a run to write the workbook. *)
Definition write_backs (l : list event) : list event := List.filter is_write_back l.

(** An event that is no attempt to write the workbook. *)
Definition no_write_back (e : event) : Prop := is_write_back e = false.

(** A run that has not tried to write the workbook, or has just tried, for
    the first time, and ends on it with [SystemExit(1)]. *)
Definition stops_at_write {A W} (r : outcome A * W * list event) : Prop :=
  match r.1.1 with
  | Ok _ => write_backs r.2 = []
  | Raise e =>
      (write_backs r.2 = [] ∧ is_Exception e = true)
      ∨ ∃ l0 d, r.2 = l0 ++ [EvWriteBack d] ∧ write_backs l0 = [] ∧ e = SystemExit 1
  | OutOfFuel => False
  end.

(** *** A wiki beside a workbook that cannot be written

    The wiki as before; the workbook is open in another program, and every
    attempt to write it fails. *)
Record Locked : Type := mkLocked { lk_wiki : Wiki }.

#[global] Instance locked_env : Env Locked := {|
  env_get := λ p w, let '(r, w') := Wiki.get p (lk_wiki w) in (r, mkLocked w');
  env_post := λ p d w, let '(r, w') := Wiki.post p d (lk_wiki w) in (r, mkLocked w');
  env_random := λ w, (0%Q, w);
  env_write := λ _ w, (false, w)
|}.

Section TokenInForce.

Context {W : Type} {env : Env W} {lib : PyLib}.

(** The token in force along the log of one operation that sends the
    parameters [p] and the form [d], read from the world [w] on with the
    token [t] in force, down to the token in force at the end of the log.
    A write request carries the token in force.  A wait leaves it as it is
    (the random generator may have been asked for the jitter).  A token
    query replaces it by the token that [fetch_csrf] returns there; when
    [fetch_csrf] raises there, the log ends. *)
Inductive token_trace (p d : form) : string → W → list event → string → Prop :=
| trace_end t w :
    token_trace p d t w [] t
| trace_post t w x w1 l t' :
    env_post p (with_auth t d) w = (x, w1) →
    token_trace p d t w1 l t' →
    token_trace p d t w (EvPost p (with_auth t d) :: l) t'
| trace_sleep t w w1 s l t' :
    w1 = w ∨ w1 = (env_random w).2 →
    token_trace p d t w1 l t' →
    token_trace p d t w (EvSleep s :: l) t'
| trace_refresh t w t1 w1 l t' :
    fetch_csrf w = (Ok t1, w1, [EvGet csrf_params]) →
    token_trace p d t1 w1 l t' →
    token_trace p d t w (EvGet csrf_params :: l) t'
| trace_refresh_failed t w e w1 :
    fetch_csrf w = (Raise e, w1, [EvGet csrf_params]) →
    token_trace p d t w [EvGet csrf_params] t.

End TokenInForce.

(* ===================================================================== *)
(** ** Properties *)
(* ===================================================================== *)

(* ===================================================================== *)
(** ** How computations compose *)
(* ===================================================================== *)

Section Composition.

Context {W : Type} {env : Env W} {lib : PyLib}.

Lemma bind_run {A B} (m : M (W:=W) A) (f : A → M B) w :
  (m ≫= f) w =
    match m w with
    | (Ok a, w1, l1) => prepend l1 (f a w1)
    | (Raise e, w1, l1) => (Raise e, w1, l1)
    | (OutOfFuel, w1, l1) => (OutOfFuel, w1, l1)
    end.
Proof.
  unfold mbind, M_bind, bind, prepend.
  destruct (m w) as [[[a|e|] w1] l1]; try reflexivity.
Qed.

Lemma try_run {A} (m : M (W:=W) A) (h : exn → M A) w :
  try_except m h w =
    match m w with
    | (Raise e, w1, l1) => prepend l1 (h e w1)
    | r => r
    end.
Proof.
  unfold try_except, prepend.
  destruct (m w) as [[[a|e|] w1] l1]; try reflexivity.
Qed.

Lemma prepend_nil {A} (r : outcome A * W * list event) : prepend [] r = r.
Proof. by destruct r as [[o w] l]. Qed.

Lemma prepend_prepend {A} l1 l2 (r : outcome A * W * list event) :
  prepend l1 (prepend l2 r) = prepend (l1 ++ l2) r.
Proof. destruct r as [[o w] l]. simpl. by rewrite app_assoc. Qed.

Lemma sat_ret {A} (P : event → Prop) (Q : A → Prop) E a :
  Q a → sat (W:=W) P Q E (mret a).
Proof. intros Ha w. split; [constructor | exact Ha]. Qed.

Lemma sat_raise {A} (P : event → Prop) (Q : A → Prop) (E : exn → Prop) e :
  E e → sat (W:=W) P Q E (raise e).
Proof. intros He w. split; [constructor | exact He]. Qed.

Lemma sat_lift {A} (P : event → Prop) (Q : A → Prop) (E : exn → Prop) (x : exn + A) :
  (∀ a, x = inr a → Q a) → (∀ e, x = inl e → E e) → sat (W:=W) P Q E (lift x).
Proof.
  intros Hx He. destruct x as [e|a]; [apply sat_raise | apply sat_ret]; auto.
Qed.

Lemma sat_bind {A B} (P : event → Prop) (Q1 : A → Prop) (Q : B → Prop) E
    (m : M (W:=W) A) (f : A → M B) :
  sat P Q1 E m → (∀ a, Q1 a → sat P Q E (f a)) → sat P Q E (m ≫= f).
Proof.
  intros Hm Hf w. rewrite bind_run.
  destruct (Hm w) as [Hl Ho].
  destruct (m w) as [[[a|e|] w1] l1]; simpl in *; try done.
  destruct (Hf a Ho w1) as [Hl2 Ho2].
  destruct (f a w1) as [[o2 w2] l2]; simpl in *.
  split; [by apply Forall_app | done].
Qed.

Lemma sat_try {A} (P : event → Prop) (Q : A → Prop) (E1 E : exn → Prop)
    (m : M (W:=W) A) (h : exn → M A) :
  sat P Q E1 m → (∀ e, E1 e → sat P Q E (h e)) → sat P Q E (try_except m h).
Proof.
  intros Hm Hh w. rewrite try_run.
  destruct (Hm w) as [Hl Ho].
  destruct (m w) as [[[a|e|] w1] l1]; simpl in *; try done.
  destruct (Hh e Ho w1) as [Hl2 Ho2].
  destruct (h e w1) as [[o2 w2] l2]; simpl in *.
  split; [by apply Forall_app | done].
Qed.

Lemma sat_mono {A} (P P' : event → Prop) (Q Q' : A → Prop) (E E' : exn → Prop)
    (m : M (W:=W) A) :
  sat P Q E m → (∀ e, P e → P' e) → (∀ a, Q a → Q' a) → (∀ e, E e → E' e) →
  sat P' Q' E' m.
Proof.
  intros Hm HP HQ HE w. destruct (Hm w) as [Hl Ho]. split.
  - eapply Forall_impl; eauto.
  - destruct ((m w).1.1); auto.
Qed.

Lemma sat_emit (P : event → Prop) (Q : unit → Prop) E ev :
  P ev → Q tt → sat (W:=W) P Q E (emit ev).
Proof. intros Hev Hq w. split; [by repeat constructor | done]. Qed.

Lemma sat_sleep (P : event → Prop) E secs :
  P (EvSleep secs) → sat (W:=W) P (λ _, True) E (time_sleep secs).
Proof. intros. by apply sat_emit. Qed.

Lemma sat_random (P : event → Prop) E :
  sat (W:=W) P (λ _, True) E random_random.
Proof.
  intros w. unfold random_random. destruct (env_random w). split; [constructor | done].
Qed.

Lemma sat_session_get (P : event → Prop) (E : exn → Prop) params :
  P (EvGet params) → (∀ msg, E (TransportError msg)) →
  sat (W:=W) P (λ _, True) E (session_get params).
Proof.
  intros HP HE w. unfold session_get. destruct (env_get params w) as [x w'].
  split; [by repeat constructor | destruct x; simpl; auto].
Qed.

Lemma sat_session_post (P : event → Prop) (E : exn → Prop) params data :
  P (EvPost params data) → (∀ msg, E (TransportError msg)) →
  sat (W:=W) P (λ _, True) E (session_post params data).
Proof.
  intros HP HE w. unfold session_post. destruct (env_post params data w) as [x w'].
  split; [by repeat constructor | destruct x; simpl; auto].
Qed.

End Composition.

(** Pure code raises exceptions that [except Exception] catches. *)
Lemma dyn_get_exn x k e : Dyn.get x k = inl e → is_Exception e = true.
Proof. destruct x; simpl; intros [= <-]; reflexivity. Qed.

Lemma dyn_get_default_exn x k v e :
  Dyn.get_default x k v = inl e → is_Exception e = true.
Proof. destruct x; simpl; intros [= <-]; reflexivity. Qed.

Lemma has_error_key_exn j e : has_error_key j = inl e → is_Exception e = true.
Proof. destruct j; simpl; intros [= <-]; reflexivity. Qed.

Lemma error_of_exn j e : error_of j = inl e → is_Exception e = true.
Proof.
  destruct j as [| | | | |d]; simpl; try (intros [= <-]; reflexivity).
  destruct (Dyn.assoc "error" d); intros [= <-]; reflexivity.
Qed.

Lemma error_code_exn {lib : PyLib} err e :
  error_code err = inl e → is_Exception e = true.
Proof.
  unfold error_code. destruct (Dyn.get err "code") as [e0|c] eqn:Hc; simpl.
  - intros [= <-]. by apply dyn_get_exn in Hc.
  - destruct (Dyn.or_empty_str c); intros [= <-]; reflexivity.
Qed.

(** The side conditions of the decomposition below. *)
Ltac sat_side :=
  first
    [ exact I
    | reflexivity
    | assumption
    | eapply dyn_get_exn; eassumption
    | eapply dyn_get_default_exn; eassumption
    | eapply has_error_key_exn; eassumption
    | eapply error_of_exn; eassumption
    | eapply error_code_exn; eassumption
    | idtac ].

(** Decomposes a goal [sat P Q E m] along the structure of [m]. *)
Ltac sat_step :=
  lazymatch goal with
  | |- sat _ _ _ (mret _) => apply sat_ret; sat_side
  | |- sat _ _ _ (raise _) => apply sat_raise; sat_side
  | |- sat _ _ _ (lift _) => apply sat_lift; [intros ? ? | intros ? ?]; sat_side
  | |- sat _ _ _ (time_sleep _) => apply sat_sleep; sat_side
  | |- sat _ _ _ (emit _) => apply sat_emit; sat_side
  | |- sat _ _ _ random_random => apply sat_random
  | |- sat _ _ _ (session_get _) => apply sat_session_get; [| intros ?]; sat_side
  | |- sat _ _ _ (session_post _ _) => apply sat_session_post; [| intros ?]; sat_side
  | |- sat _ _ ?E (try_except _ _) => apply (sat_try _ _ E); [| intros ? ? ]
  | |- sat _ _ _ (_ ≫= _) => eapply (sat_bind _ (λ _, True)); [| intros ? _ ]
  | |- sat _ _ _ (let '(_, _) := ?x in _) => destruct x
  | |- sat _ _ _ (if ?b then _ else _) => destruct b eqn:?
  | |- sat _ _ _ (match ?x with _ => _ end) => destruct x eqn:?
  end.

Ltac sat_auto := repeat sat_step.

(* ===================================================================== *)
(** ** The mutator *)
(* ===================================================================== *)

Lemma retryable_status_iff s :
  s ∈ RETRYABLE_STATUS ↔ s = 502 ∨ s = 503 ∨ s = 504.
Proof.
  unfold RETRYABLE_STATUS. rewrite !elem_of_union, !elem_of_singleton. tauto.
Qed.

Lemma retryable_status_raises s :
  s ∈ RETRYABLE_STATUS → raises_for_status s = true.
Proof.
  rewrite retryable_status_iff. unfold raises_for_status.
  intros [-> | [-> | ->]]; reflexivity.
Qed.

Lemma success_status_passes s :
  200 <= s < 300 → (s ∉ RETRYABLE_STATUS) ∧ raises_for_status s = false.
Proof.
  intros Hs. split.
  - rewrite retryable_status_iff. lia.
  - unfold raises_for_status. apply andb_false_iff. left. apply Z.leb_gt. lia.
Qed.

Lemma lookup_setdefault k v (d : form) k' :
  setdefault k v d !! k' =
    if decide (k = k') then Some (default v (d !! k)) else d !! k'.
Proof.
  unfold setdefault. destruct (d !! k) as [x|] eqn:Hk; case_decide; subst; simpl.
  - done.
  - done.
  - by rewrite lookup_insert_eq.
  - by rewrite lookup_insert_ne.
Qed.

Lemma with_auth_token token d : with_auth token d !! "token" = Some (FStr token).
Proof.
  unfold with_auth. rewrite !lookup_setdefault.
  repeat case_decide; try discriminate. by rewrite lookup_insert_eq.
Qed.


Lemma stable_params_action params :
  stable_params params !! "action" = params !! "action".
Proof.
  unfold stable_params. rewrite !lookup_setdefault.
  repeat case_decide; try discriminate. done.
Qed.

Lemma api_url_not_blank : Py.is_empty (Py.strip API_URL) = false.
Proof. vm_compute. reflexivity. Qed.

Lemma user_agent_not_blank : Py.is_empty (Py.strip USER_AGENT) = false.
Proof. vm_compute. reflexivity. Qed.

Section Mutator.

Context {W : Type} {env : Env W} {lib : PyLib}.

Implicit Types (p d : form) (w : W) (r : response).

(** [fetch_csrf] turns every [RequestException] into a [RuntimeError]. *)
Lemma fetch_csrf_raises w e w' l :
  fetch_csrf w = (Raise e, w', l) → is_RequestException e = false.
Proof.
  unfold fetch_csrf. rewrite api_url_not_blank, user_agent_not_blank.
  rewrite try_run.
  destruct (_ ≫= _) as [[[t|e0|] w1] l1]; simpl; try discriminate.
  destruct (is_RequestException e0) eqn:He0; simpl; intros [= <- _ _]; done.
Qed.

Lemma status_sleep_run base attempt r w :
  status_sleep base attempt r w =
    let '(x, w') := retry_wait base attempt r w in (Ok x, w', []).
Proof.
  unfold status_sleep, retry_wait.
  destruct (retry_after r) as [ra|].
  - destruct (py_float ra); reflexivity.
  - unfold backoff. rewrite !bind_run. unfold random_random.
    destruct (env_random w) as [u w']. reflexivity.
Qed.

Lemma backoff_run base attempt w :
  backoff base attempt w =
    let '(u, w') := env_random w in (Ok (backoff_of base attempt u), w', []).
Proof.
  unfold backoff. rewrite bind_run. unfold random_random.
  destruct (env_random w) as [u w']. reflexivity.
Qed.

(** What [time.sleep] raises is no [RequestException]; [except Exception]
    would catch it. *)
Lemma sleep_arg_exn x e :
  sleep_arg x = inl e → is_RequestException e = false ∧ is_Exception e = true.
Proof.
  unfold sleep_arg. destruct x as [q| | |]; try (by intros [= <-]).
  destruct (negb (_ && _)); [by intros [= <-]|].
  destruct (negb _); [by intros [= <-] | done].
Qed.

Lemma sat_time_sleep_float (P : event → Prop) x :
  (∀ s, P (EvSleep s)) →
  sat (W:=W) P (λ _, True) (λ e, is_Exception e = true) (time_sleep_float x).
Proof.
  intros Hsleep. unfold time_sleep_float.
  eapply (sat_bind _ (λ _, True)).
  - apply sat_lift; [done|]. intros e He. exact (proj2 (sleep_arg_exn _ _ He)).
  - intros s _. by apply sat_sleep.
Qed.

(** A response whose status is in [RETRYABLE_STATUS]. *)
Lemma turn_retryable_status p d max base attempt token r w w1 :
  env_post p d w = (HttpResp r, w1) →
  status_code r ∈ RETRYABLE_STATUS →
  mutate_attempt p d max base attempt token w =
    let '(x, w2) := retry_wait base attempt r w1 in
    if Z.of_nat attempt <=? max
    then match sleep_arg x with
         | inr s => (Ok (Continue token), w2, [EvPost p d; EvSleep s])
         | inl e => (Raise e, w2, [EvPost p d])
         end
    else (Raise (HTTPError r), w2, [EvPost p d]).
Proof.
  intros Hpost Hst.
  unfold mutate_attempt. rewrite try_run, bind_run.
  unfold session_post. rewrite Hpost. simpl.
  rewrite bool_decide_true by done.
  rewrite bind_run, bind_run, status_sleep_run.
  destruct (retry_wait base attempt r w1) as [x w2].
  destruct (Z.of_nat attempt <=? max) eqn:Hle.
  - rewrite bind_run. unfold time_sleep_float. rewrite bind_run.
    pose proof (sleep_arg_exn x) as Hexn.
    destruct (sleep_arg x) as [e|s]; [|reflexivity].
    specialize (Hexn e eq_refl) as [Hreq Hexn]. cbn. by rewrite Hreq.
  - rewrite bind_run. unfold raise_for_status.
    rewrite (retryable_status_raises _ Hst). reflexivity.
Qed.

(** A response with any other error status: the [HTTPError] of
    [raise_for_status] reaches the transport handler. *)
Lemma turn_error_status p d max base attempt token r w w1 :
  env_post p d w = (HttpResp r, w1) →
  status_code r ∉ RETRYABLE_STATUS →
  raises_for_status (status_code r) = true →
  mutate_attempt p d max base attempt token w =
    if Z.of_nat attempt <=? max
    then let '(u, w2) := env_random w1 in
         (Ok (Continue token), w2, [EvPost p d; EvSleep (backoff_of base attempt u)])
    else (Raise (HTTPError r), w1, [EvPost p d]).
Proof.
  intros Hpost Hst Hraise.
  unfold mutate_attempt. rewrite try_run, bind_run.
  unfold session_post. rewrite Hpost. simpl.
  rewrite bool_decide_false by done.
  rewrite bind_run. simpl. rewrite bind_run.
  unfold raise_for_status. rewrite Hraise. simpl.
  destruct (Z.of_nat attempt <=? max) eqn:Hle.
  - rewrite bind_run, backoff_run.
    destruct (env_random w1) as [u w2]. reflexivity.
  - reflexivity.
Qed.

(** A transport failure. *)
Lemma turn_transport_error p d max base attempt token msg w w1 :
  env_post p d w = (HttpFail msg, w1) →
  mutate_attempt p d max base attempt token w =
    if Z.of_nat attempt <=? max
    then let '(u, w2) := env_random w1 in
         (Ok (Continue token), w2, [EvPost p d; EvSleep (backoff_of base attempt u)])
    else (Raise (TransportError msg), w1, [EvPost p d]).
Proof.
  intros Hpost.
  unfold mutate_attempt. rewrite try_run, bind_run.
  unfold session_post. rewrite Hpost. simpl.
  destruct (Z.of_nat attempt <=? max) eqn:Hle.
  - rewrite bind_run, backoff_run.
    destruct (env_random w1) as [u w2]. reflexivity.
  - reflexivity.
Qed.

(** A response that passes [raise_for_status] and whose JSON carries an
    error: what the turn does is decided by the code. *)
Lemma turn_api_error p d max base attempt token r j err code w w1 :
  env_post p d w = (HttpResp r, w1) →
  status_code r ∉ RETRYABLE_STATUS →
  raises_for_status (status_code r) = false →
  body r = Some j →
  has_error_key j = inr true →
  error_of j = inr err →
  error_code err = inr code →
  mutate_attempt p d max base attempt token w =
    if bool_decide (code ∈ RETRYABLE_API_CODES) && (Z.of_nat attempt <=? max)
    then let '(u, w2) := env_random w1 in
         (Ok (Continue token), w2, [EvPost p d; EvSleep (backoff_of base attempt u)])
    else if bool_decide (code ∈ RETRYABLE_AUTH_CODES) && (Z.of_nat attempt <=? max)
    then match fetch_csrf w1 with
         | (Ok token', w2, l) => (Ok (Continue token'), w2, EvPost p d :: l)
         | (Raise e, w2, l) => (Raise e, w2, EvPost p d :: l)
         | (OutOfFuel, w2, l) => (OutOfFuel, w2, EvPost p d :: l)
         end
    else (Raise (RuntimeError (api_error_message p err)), w1, [EvPost p d]).
Proof.
  intros Hpost Hst Hraise Hbody Hkey Herr Hcode.
  unfold mutate_attempt. rewrite try_run, bind_run.
  unfold session_post. rewrite Hpost. simpl.
  rewrite bool_decide_false by done.
  rewrite bind_run. simpl. rewrite bind_run.
  unfold raise_for_status. rewrite Hraise. simpl.
  rewrite bind_run. unfold response_json. rewrite Hbody. simpl.
  rewrite bind_run, Hkey. simpl.
  rewrite bind_run, Herr. simpl.
  rewrite bind_run, Hcode. simpl.
  destruct (bool_decide (code ∈ RETRYABLE_API_CODES) && (Z.of_nat attempt <=? max)).
  - rewrite bind_run, backoff_run.
    destruct (env_random w1) as [u w2]. reflexivity.
  - destruct (bool_decide (code ∈ RETRYABLE_AUTH_CODES) && (Z.of_nat attempt <=? max)).
    + rewrite bind_run.
      destruct (fetch_csrf w1) as [[[t1|e|] w2] l] eqn:Hf; simpl;
        rewrite ?app_nil_r; try reflexivity.
      (* the refresh raised: not a RequestException, so it is not retried *)
      rewrite (fetch_csrf_raises _ _ _ _ Hf). unfold raise. simpl.
      by rewrite app_nil_r.
    + reflexivity.
Qed.

(** A response without error. *)
Lemma turn_success p d max base attempt token r j w w1 :
  env_post p d w = (HttpResp r, w1) →
  status_code r ∉ RETRYABLE_STATUS →
  raises_for_status (status_code r) = false →
  body r = Some j →
  has_error_key j = inr false →
  mutate_attempt p d max base attempt token w =
    (Ok (Return j token), w1, [EvPost p d]).
Proof.
  intros Hpost Hst Hraise Hbody Hkey.
  unfold mutate_attempt. rewrite try_run, bind_run.
  unfold session_post. rewrite Hpost. simpl.
  rewrite bool_decide_false by done.
  rewrite bind_run. simpl. rewrite bind_run.
  unfold raise_for_status. rewrite Hraise. simpl.
  rewrite bind_run. unfold response_json. rewrite Hbody. simpl.
  rewrite bind_run, Hkey. reflexivity.
Qed.

End Mutator.

Section MutatorLoop.

Context {W : Type} {env : Env W} {lib : PyLib}.

Implicit Types (p d : form) (w : W) (r : response).

Lemma loop_step fuel p d max base attempt token w :
  mutate_loop (S fuel) p d max base attempt token w =
    match mutate_attempt p (with_auth token d) max base (S attempt) token w with
    | (Ok (Continue token'), w1, l) =>
        prepend l (mutate_loop fuel p (with_auth token d) max base (S attempt) token' w1)
    | (Ok (Return j token'), w1, l) => (Ok (j, token'), w1, l)
    | (Raise e, w1, l) => (Raise e, w1, l)
    | (OutOfFuel, w1, l) => (OutOfFuel, w1, l)
    end.
Proof.
  simpl. rewrite bind_run.
  destruct (mutate_attempt _ _ _ _ _ _ w) as [[[[t'|j t']|e|] w1] l]; try reflexivity.
  simpl. by rewrite app_nil_r.
Qed.

Lemma mw_mutate_enter max base token params data w :
  Py.is_empty token = false → 0 <= max → (0 < base)%Q →
  mw_mutate_with max base token params data w =
    mutate_loop (S (Z.to_nat max)) (stable_params params) (default ∅ data)
      max base 0 token w.
Proof.
  intros Htok Hmax Hbase. unfold mw_mutate_with.
  rewrite Htok, api_url_not_blank, user_agent_not_blank.
  destruct (max <? 0) eqn:Hneg; [apply Z.ltb_lt in Hneg; lia|].
  destruct (Qle_bool base 0) eqn:Hb; [|reflexivity].
  apply Qle_bool_iff in Hb. exfalso. by apply (Qlt_not_le _ _ Hbase).
Qed.

(** The events of [fetch_csrf]: one read, whatever comes of it. *)
Lemma fetch_csrf_events w : (fetch_csrf w).2 = [EvGet csrf_params].
Proof.
  unfold fetch_csrf. rewrite api_url_not_blank, user_agent_not_blank.
  rewrite try_run, bind_run. unfold session_get.
  destruct (env_get csrf_params w) as [[msg|r] w1]; simpl; [reflexivity|].
  rewrite bind_run. unfold raise_for_status.
  destruct (raises_for_status (status_code r)); simpl; [reflexivity|].
  rewrite bind_run, try_run. unfold response_json.
  destruct (body r) as [j|]; simpl; [|reflexivity].
  rewrite bind_run.
  destruct (Dyn.get j "query") as [e|query]; simpl; [by destruct e|].
  rewrite bind_run.
  destruct (Dyn.get_default _ _ _) as [e|tokens]; simpl; [by destruct e|].
  rewrite bind_run.
  destruct (Dyn.get tokens "csrftoken") as [e|token]; simpl; [by destruct e|].
  destruct token as [| | |t| |]; try reflexivity.
  destruct (Py.is_empty t || Py.is_empty (Py.strip t)); reflexivity.
Qed.

Lemma sat_fetch_csrf (P : event → Prop) :
  (∀ params, P (EvGet params)) →
  sat P (λ _, True) (λ e, is_Exception e = true) fetch_csrf.
Proof.
  intros HP. unfold fetch_csrf. rewrite api_url_not_blank, user_agent_not_blank.
  unfold raise_for_status, response_json.
  repeat first [ apply HP | sat_step ]; try done.
  all: by destruct e.
Qed.

(** A guarded write request: it starts with the request, and what follows
    is what the continuation and the handler do. *)
Lemma post_try_shape {A} (P : event → Prop) (Q : A → Prop) (E1 E : exn → Prop) p d
    (rest : response → M A) (h : exn → M A) :
  (∀ msg, E1 (TransportError msg)) →
  (∀ r, sat P Q E1 (rest r)) → (∀ e, E1 e → sat P Q E (h e)) →
  ∀ w, ∃ l,
    (try_except (session_post p d ≫= rest) h w).2 = EvPost p d :: l
    ∧ Forall P l
    ∧ match (try_except (session_post p d ≫= rest) h w).1.1 with
      | Ok a => Q a
      | Raise e => E e
      | OutOfFuel => False
      end.
Proof.
  intros Hmsg Hrest Hh w.
  rewrite try_run, bind_run. unfold session_post.
  destruct (env_post p d w) as [[msg|r] w1]; simpl.
  - destruct (Hh (TransportError msg) (Hmsg msg) w1) as [Hl Ho].
    destruct (h (TransportError msg) w1) as [[o w2] l2]; simpl in *.
    exists l2. done.
  - destruct (Hrest r w1) as [Hl Ho].
    destruct (rest r w1) as [[[t|e|] w2] l2]; simpl in *; try done.
    + exists l2. done.
    + destruct (Hh e Ho w2) as [Hl3 Ho3].
      destruct (h e w2) as [[o w3] l3]; simpl in *.
      exists (l2 ++ l3). split; [done|]. split; [by apply Forall_app|done].
Qed.

(** The shape of one turn: it starts with the write request; nothing after
    it is a write request; it asks for another turn only within the cap;
    what it raises, [except Exception] would catch. *)
Lemma turn_shape (P : event → Prop) p d max base attempt token :
  (∀ params, P (EvGet params)) → (∀ s, P (EvSleep s)) →
  ∀ w, ∃ l,
    (mutate_attempt p d max base attempt token w).2 = EvPost p d :: l
    ∧ Forall P l
    ∧ match (mutate_attempt p d max base attempt token w).1.1 with
      | Ok (Continue _) => Z.of_nat attempt <= max
      | Ok (Return _ _) => True
      | Raise e => is_Exception e = true
      | OutOfFuel => False
      end.
Proof.
  intros Hget Hsleep w.
  set (Q := λ t : turn, match t with Continue _ => Z.of_nat attempt <= max | _ => True end).
  set (E := λ e, is_Exception e = true).
  unfold mutate_attempt.
  edestruct (post_try_shape P Q E E p d) as (l & Hev & Hl & Ho); last first.
  - exists l. split; [exact Hev|]. split; [exact Hl|].
    destruct (_.1.1) as [[]| |]; exact Ho.
  - intros e He. unfold backoff.
    repeat sat_step; subst Q E; simpl; auto.
    by apply Z.leb_le.
  - intros r. unfold status_sleep, backoff, raise_for_status, response_json.
    pose proof (sat_fetch_csrf P Hget) as Hf.
    eapply (sat_bind _ (λ o : option turn, from_option Q True o)).
    { repeat first
        [ lazymatch goal with
          | |- sat _ _ _ (time_sleep_float _) => apply (sat_time_sleep_float P _ Hsleep)
          end
        | sat_step ];
        subst Q E; simpl; auto. by apply Z.leb_le. }
    intros [t|] Ht; [by apply sat_ret|].
    repeat first
      [ lazymatch goal with |- sat _ _ _ fetch_csrf => apply Hf end | sat_step ];
      subst Q E; simpl; auto;
      repeat match goal with
             | H : (_ && _) = true |- _ => apply andb_true_iff in H as [? ?]
             | H : (_ <=? _) = true |- _ => apply Z.leb_le in H
             end; try lia.
  - done.
Qed.

(** The loop never reaches the bound of the model. *)
Lemma mutate_loop_total (P : event → Prop) p max base :
  (∀ params, P (EvGet params)) → (∀ s, P (EvSleep s)) →
  (∀ params data, P (EvPost params data)) →
  ∀ fuel d attempt token,
    max < Z.of_nat attempt + Z.of_nat fuel → (0 < fuel)%nat →
    sat P (λ _, True) (λ e, is_Exception e = true)
      (mutate_loop fuel p d max base attempt token).
Proof.
  intros Hget Hsleep Hpost fuel.
  induction fuel as [|fuel IH]; intros d attempt token Hfuel Hpos w; [lia|].
  rewrite loop_step.
  destruct (turn_shape P p (with_auth token d) max base (S attempt) token Hget Hsleep w)
    as (l & Hev & Hl & Ho).
  destruct (mutate_attempt _ _ _ _ _ _ w) as [[[[t'|j t']|e|] w1] l0];
    simpl in *; subst l0; try done.
  - destruct (IH (with_auth token d) (S attempt) t' ltac:(lia) ltac:(lia) w1)
      as [Hl2 Ho2].
    destruct (mutate_loop fuel _ _ _ _ _ _ w1) as [[o2 w2] l2]; simpl in *.
    split; [|done]. constructor; [done|]. by apply Forall_app.
  - split; [|done]. by constructor.
  - split; [|done]. by constructor.
Qed.

(** [mw_mutate] always ends, with a result or with an exception. *)
Lemma mw_mutate_total (P : event → Prop) max base token params data :
  (∀ params, P (EvGet params)) → (∀ s, P (EvSleep s)) →
  (∀ params data, P (EvPost params data)) →
  sat P (λ _, True) (λ e, is_Exception e = true)
    (mw_mutate_with max base token params data).
Proof.
  intros Hget Hsleep Hpost. unfold mw_mutate_with.
  repeat match goal with
         | |- sat _ _ _ (if ?b then raise _ else _) =>
             destruct b eqn:?; [by apply sat_raise|]
         end.
  apply mutate_loop_total; try done.
  - match goal with H : (max <? 0) = false |- _ => apply Z.ltb_ge in H; lia end.
  - lia.
Qed.

(** One logical operation issues at most [fuel] write requests. *)
Lemma mutate_loop_posts p max base fuel :
  ∀ d attempt token w,
    (length (List.filter is_post (mutate_loop fuel p d max base attempt token w).2)
     <= fuel)%nat.
Proof.
  induction fuel as [|fuel IH]; intros d attempt token w; [simpl; lia|].
  rewrite loop_step.
  destruct (turn_shape (λ e, is_post e = false) p (with_auth token d) max base
              (S attempt) token ltac:(done) ltac:(done) w) as (l & Hev & Hl & _).
  assert (List.filter is_post l = []) as Hnone.
  { clear Hev. induction l as [|e l IHl]; [done|].
    inversion Hl as [|? ? He Hl']; subst. simpl. rewrite He. auto. }
  destruct (mutate_attempt _ _ _ _ _ _ w) as [[[[t'|j t']|e|] w1] l0];
    simpl in *; subst l0; simpl; rewrite ?Hnone; simpl; try lia.
  specialize (IH (with_auth token d) (S attempt) t' w1).
  destruct (mutate_loop fuel _ _ _ _ _ _ w1) as [[o2 w2] l2]; simpl in *.
  rewrite List.filter_app, Hnone. simpl. lia.
Qed.

End MutatorLoop.

(* ===================================================================== *)
(** ** Retry classification *)
(* ===================================================================== *)

Lemma auth_code_not_api code :
  code ∈ RETRYABLE_AUTH_CODES → code ∉ RETRYABLE_API_CODES.
Proof.
  unfold RETRYABLE_AUTH_CODES, RETRYABLE_API_CODES.
  rewrite !elem_of_union, !elem_of_singleton.
  intros [[[-> | ->] | ->] | ->] [[? | ?] | ?]; discriminate.
Qed.


Section Classification.

Context {W : Type} {env : Env W} {lib : PyLib}.

Implicit Types (p d : form) (w : W) (r : response).



(** C3.  A write attempt rejected with a code of the auth set is answered,
    while the attempt number is within the cap, by one refresh of the CSRF
    token (one read, no wait) and the next attempt with the new token at
    once; past the cap the error is raised without a refresh.  One
    operation never sends more than [max_retries + 1] write requests. *)
Theorem auth_rejection_refreshes_once fuel p d max base attempt token
    r j err code w w1 :
  env_post p (with_auth token d) w = (HttpResp r, w1) →
  status_code r ∉ RETRYABLE_STATUS →
  raises_for_status (status_code r) = false →
  body r = Some j →
  has_error_key j = inr true →
  error_of j = inr err →
  error_code err = inr code →
  code ∈ RETRYABLE_AUTH_CODES →
  let d' := with_auth token d in
  mutate_loop (S fuel) p d max base attempt token w =
    (if Z.of_nat (S attempt) <=? max
     then match fetch_csrf w1 with
          | (Ok token', w2, l) =>
              prepend (EvPost p d' :: l)
                (mutate_loop fuel p d' max base (S attempt) token' w2)
          | (Raise e, w2, l) => (Raise e, w2, EvPost p d' :: l)
          | (OutOfFuel, w2, l) => (OutOfFuel, w2, EvPost p d' :: l)
          end
     else (Raise (RuntimeError (api_error_message p err)), w1, [EvPost p d']))
  ∧ (fetch_csrf w1).2 = [EvGet csrf_params]
  ∧ (∀ token0 params data w0,
       (length (List.filter is_post
                  (mw_mutate_with max base token0 params data w0).2)
        <= Z.to_nat max + 1)%nat).
Proof.
  intros Hpost Hnr Hnot Hbody Hkey Herr Hcode Hauth d'.
  split; [|split].
  - rewrite loop_step.
    rewrite (turn_api_error _ _ _ _ _ _ _ _ _ _ _ _ Hpost Hnr Hnot Hbody Hkey Herr Hcode).
    rewrite (bool_decide_false _ (auth_code_not_api _ Hauth)).
    rewrite (bool_decide_true _ Hauth). simpl.
    destruct (Z.of_nat (S attempt) <=? max); [|reflexivity].
    destruct (fetch_csrf w1) as [[[t'|e|] w2] l]; reflexivity.
  - apply fetch_csrf_events.
  - intros token0 params data w0. unfold mw_mutate_with.
    repeat match goal with
           | |- context [if ?b then raise _ else _] => destruct b; [simpl; lia|]
           end.
    etrans; [apply mutate_loop_posts|]. lia.
Qed.



End Classification.

(** Membership in one of the constant sets, by evaluation. *)
Ltac is_member := apply (bool_decide_unpack _); vm_compute; exact I.

Lemma run_label_loop w :
  run_label w =
    mutate_loop (env := script_env) (lib := sample_lib) 5 label_p label_data 4 1 0 "tok" w.
Proof. reflexivity. Qed.



(** A Retry-After that [float] reads as not-a-number or as an infinity:
    [time.sleep] raises, and the operation ends on its first attempt. *)
Example retry_after_nan_is_not_retried :
  (∃ msg, run_label world_503_retry_after_nan =
            (Raise (ValueError msg), mkScript [ok_reply success] [],
             [EvPost label_p label_d]))
  ∧ (∃ msg, run_label world_503_retry_after_inf =
              (Raise (OverflowError msg), mkScript [ok_reply success] [],
               [EvPost label_p label_d])).
Proof. split; eexists; vm_compute; reflexivity. Qed.

(** A 429 is not in [RETRYABLE_STATUS]: its Retry-After of 30 seconds is not
    read, the wait is the backoff of the transport handler. *)
Example retry_after_of_429_is_not_read :
  ∃ s, run_label world_429_200 =
         (Ok (success, "tok"), mkScript [] [],
          [EvPost label_p label_d; EvSleep s; EvPost label_p label_d])
       ∧ (s == 8 # 10)%Q.
Proof. eexists. split; [vm_compute; reflexivity | reflexivity]. Qed.

Lemma auth_rejection_refreshes_once_witness :
  "badtoken" ∈ RETRYABLE_AUTH_CODES
  ∧ run_label world_badtoken =
      (Ok (success, "fresh"), mkScript [] [],
       [EvPost label_p label_d; EvGet csrf_params;
        EvPost label_p (with_auth "fresh" label_d)])
  ∧ (length (List.filter is_post (run_label world_badtoken).2) <= 5)%nat.
Proof.
  assert ("badtoken" ∈ RETRYABLE_AUTH_CODES) as Hauth.
  { is_member. }
  split; [exact Hauth|].
  destruct (auth_rejection_refreshes_once (env := script_env) (lib := sample_lib)
              4 label_p label_data 4 1 0 "tok"
              (Response 200 None (Some (JDict [("error", JDict [("code", JStr "badtoken")])])))
              (JDict [("error", JDict [("code", JStr "badtoken")])])
              (JDict [("code", JStr "badtoken")]) "badtoken"
              world_badtoken (mkScript [token_reply "fresh"; ok_reply success] []))
    as (Hloop & Hrefresh & Hbound);
    [reflexivity | exact (proj1 (success_status_passes 200 ltac:(lia))) | reflexivity
    | reflexivity | reflexivity | reflexivity | reflexivity | exact Hauth |].
  split.
  - rewrite run_label_loop, Hloop. vm_compute. reflexivity.
  - apply (Hbound "tok" label_params (Some label_data) world_badtoken).
Defined.



(* ===================================================================== *)
(** ** Facts about strings and dicts *)
(* ===================================================================== *)

Lemma rstrip_idem s : Py.rstrip (Py.rstrip s) = Py.rstrip s.
Proof.
  induction s as [|c t IH]; [reflexivity|]. simpl.
  destruct (Py.rstrip t) as [|c' t'] eqn:Ht.
  - destruct (Py.isspace c) eqn:Hc; simpl; [reflexivity|]. by rewrite Hc.
  - simpl in IH |- *. by rewrite IH.
Qed.

Lemma lstrip_headed s :
  match Py.lstrip s with
  | EmptyString => True
  | String c _ => Py.isspace c = false
  end.
Proof.
  induction s as [|c t IH]; [exact I|]. simpl.
  destruct (Py.isspace c) eqn:Hc; [exact IH | exact Hc].
Qed.

Lemma lstrip_rstrip_headed t :
  match t with
  | EmptyString => True
  | String c _ => Py.isspace c = false
  end →
  Py.lstrip (Py.rstrip t) = Py.rstrip t.
Proof.
  destruct t as [|c t]; [reflexivity|]. intros Hc. simpl.
  destruct (Py.rstrip t); simpl; rewrite Hc; simpl; by rewrite ?Hc.
Qed.

Lemma strip_idem s : Py.strip (Py.strip s) = Py.strip s.
Proof.
  unfold Py.strip. rewrite (lstrip_rstrip_headed _ (lstrip_headed s)).
  apply rstrip_idem.
Qed.

Lemma rstrip_nonspace c t :
  Py.isspace c = false → Py.is_empty (Py.rstrip (String c t)) = false.
Proof. intros Hc. simpl. destruct (Py.rstrip t); [by rewrite Hc | reflexivity]. Qed.

(** A string with a character that is not white space is not blank. *)
Lemma strip_not_blank a c b :
  Py.isspace c = false → Py.is_empty (Py.strip (a +:+ String c b)) = false.
Proof.
  intros Hc. unfold Py.strip. induction a as [|x a IH].
  - simpl. rewrite Hc. by apply rstrip_nonspace.
  - change (String x a +:+ String c b) with (String x (a +:+ String c b)).
    cbn [Py.lstrip]. destruct (Py.isspace x) eqn:Hx; [exact IH|].
    by apply rstrip_nonspace.
Qed.

Lemma not_blank_not_empty s :
  Py.is_empty (Py.strip s) = false → Py.is_empty s = false.
Proof. by destruct s. Qed.

Lemma is_mid_not_blank mid : is_mid mid = true → Py.is_empty (Py.strip mid) = false.
Proof. unfold is_mid. by destruct (Py.strip mid). Qed.

Lemma assoc_set_eq k v d : Dyn.assoc k (Dyn.set k v d) = Some v.
Proof.
  induction d as [|[k' v'] d IH]; simpl.
  - by rewrite String.eqb_refl.
  - destruct (String.eqb k k') eqn:Hk; simpl; rewrite ?String.eqb_refl, ?Hk; auto.
Qed.

Lemma assoc_set_ne k k' v d :
  k ≠ k' → Dyn.assoc k' (Dyn.set k v d) = Dyn.assoc k' d.
Proof.
  intros Hne. induction d as [|[k0 v0] d IH]; simpl.
  - destruct (String.eqb k' k) eqn:Hk; [apply String.eqb_eq in Hk; congruence | done].
  - destruct (String.eqb k k0) eqn:Hk0; simpl.
    + apply String.eqb_eq in Hk0 as <-.
      destruct (String.eqb k' k) eqn:Hk; [apply String.eqb_eq in Hk; congruence | done].
    + by rewrite IH.
Qed.

(* ===================================================================== *)
(** ** The statement reconciler *)
(* ===================================================================== *)

Section FirstTry.

Context {W : Type} {env : Env W} {lib : PyLib}.

(** A write that the remote end accepts at the first attempt. *)
Lemma mw_mutate_accepted token params data r j (w w1 : W) :
  Py.is_empty token = false →
  env_post (stable_params params) (with_auth token data) w = (HttpResp r, w1) →
  200 <= status_code r < 300 →
  body r = Some j →
  has_error_key j = inr false →
  mw_mutate token params (Some data) w =
    (Ok (j, token), w1, [EvPost (stable_params params) (with_auth token data)]).
Proof.
  intros Htok Hpost Hst Hbody Hkey. unfold mw_mutate.
  rewrite mw_mutate_enter by done. rewrite loop_step.
  destruct (success_status_passes _ Hst) as [Hnr Hnot].
  simpl default.
  by rewrite (turn_success _ _ _ _ _ _ _ _ _ _ Hpost Hnr Hnot Hbody Hkey).
Qed.

End FirstTry.

Section OnTheWiki.

Context {lib : PyLib}.

Implicit Types (w : Wiki) (mid url : string).

Lemma wiki_get_p7482 w mid :
  is_mid mid = true →
  get_p7482_claims mid w = (Ok (wiki_p7482 w mid), w, [EvGet (get_claims_params mid)]).
Proof.
  intros Hmid. unfold get_p7482_claims. rewrite Hmid. cbn [negb].
  rewrite bind_run, try_run, bind_run.
  unfold mw_request.
  change (Py.upper "GET") with "GET". cbn [String.eqb Ascii.eqb Bool.eqb orb negb].
  rewrite bind_run.
  unfold session_get. simpl env_get. unfold Wiki.get.
  assert (Wiki.str_field "action" (get_claims_params mid) = "wbgetclaims") as -> by reflexivity.
  assert (Wiki.str_field "entity" (get_claims_params mid) = mid) as -> by reflexivity.
  assert (Wiki.str_field "property" (get_claims_params mid) = P_SOURCE_OF_FILE) as ->
    by reflexivity.
  simpl (String.eqb "wbgetclaims" "wbgetclaims"). cbv iota.
  unfold wiki_p7482.
  destruct (wk_claims w !! mid) as [cs|]; simpl default.
  - destruct (List.filter _ cs) as [|c l]; reflexivity.
  - reflexivity.
Qed.

(** The wiki after a statement was created on [mid]. *)
Lemma wiki_create w mid :
  is_mid mid = true →
  Py.is_empty (Py.strip (wk_token w)) = false →
  let guid := mid +:+ "$" +:+ str_of_int (wk_next w) in
  let claim := Wiki.new_claim guid P_SOURCE_OF_FILE (item_value Q_FILE_ONLINE) in
  create_p7482_claim (wk_token w) mid w =
    (Ok (JStr guid, wk_token w),
     mkWiki (<[mid := default [] (wk_claims w !! mid) ++ [claim]]> (wk_claims w))
       (wk_labels w) (wk_titles w) (wk_token w) (wk_next w + 1),
     [EvPost (stable_params {[ "action" := FStr "wbcreateclaim" ]})
        (with_auth (wk_token w) (create_claim_data mid))]).
Proof.
  intros Hmid Htok guid claim.
  set (w' := mkWiki _ _ _ _ _).
  set (d := with_auth (wk_token w) (create_claim_data mid)).
  set (p := stable_params {[ "action" := FStr "wbcreateclaim" ]}).
  assert (env_post p d w
          = (HttpResp (Response 200 None
                         (Some (JDict [("success", JInt 1); ("claim", claim)]))), w'))
    as Hpost.
  { simpl env_post. unfold Wiki.post. subst d.
    rewrite with_auth_token, String.eqb_refl. cbn [negb].
    assert (Wiki.str_field "action" p = "wbcreateclaim") as -> by (vm_compute; reflexivity).
    cbn [String.eqb Ascii.eqb Bool.eqb].
    assert (with_auth (wk_token w) (create_claim_data mid) !! "value"
            = Some (FDumps (item_value Q_FILE_ONLINE))) as -> by (vm_compute; reflexivity).
    assert (Wiki.str_field "entity" (with_auth (wk_token w) (create_claim_data mid)) = mid)
      as -> by (vm_compute; reflexivity).
    assert (Wiki.str_field "property" (with_auth (wk_token w) (create_claim_data mid))
            = P_SOURCE_OF_FILE) as -> by (vm_compute; reflexivity).
    reflexivity. }
  unfold create_p7482_claim.
  rewrite Htok, Hmid. cbn [negb]. rewrite bind_run.
  rewrite (mw_mutate_accepted _ _ _ _ _ _ _ (not_blank_not_empty _ Htok) Hpost
             ltac:(simpl; lia) eq_refl eq_refl).
  reflexivity.
Qed.

(** The wiki after a qualifier was set on the statement [cid]. *)
Lemma wiki_set_qualifier what w cid prop v :
  Py.is_empty (Py.strip (wk_token w)) = false →
  set_qualifier what (wk_token w) cid prop v w =
    (Ok (JDict [("success", JInt 1)], wk_token w),
     mkWiki (List.map (Wiki.add_qualifier cid prop v) <$> wk_claims w)
       (wk_labels w) (wk_titles w) (wk_token w) (wk_next w),
     [EvPost (stable_params set_qualifier_params)
        (with_auth (wk_token w) (set_qualifier_data (wk_token w) cid prop v))]).
Proof.
  intros Htok.
  set (w' := mkWiki _ _ _ _ _).
  set (d := with_auth (wk_token w) (set_qualifier_data (wk_token w) cid prop v)).
  set (p := stable_params set_qualifier_params).
  assert (env_post p d w
          = (HttpResp (Response 200 None (Some (JDict [("success", JInt 1)]))), w'))
    as Hpost.
  { simpl env_post. unfold Wiki.post. subst d.
    rewrite with_auth_token, String.eqb_refl. cbn [negb].
    assert (Wiki.str_field "action" p = "wbsetqualifier") as -> by (vm_compute; reflexivity).
    cbn [String.eqb Ascii.eqb Bool.eqb].
    assert (with_auth (wk_token w) (set_qualifier_data (wk_token w) cid prop v) !! "value"
            = Some (FDumps v)) as -> by (vm_compute; reflexivity).
    assert (Wiki.str_field "claim"
              (with_auth (wk_token w) (set_qualifier_data (wk_token w) cid prop v)) = cid)
      as -> by (vm_compute; reflexivity).
    assert (Wiki.str_field "property"
              (with_auth (wk_token w) (set_qualifier_data (wk_token w) cid prop v)) = prop)
      as -> by (vm_compute; reflexivity).
    reflexivity. }
  unfold set_qualifier. rewrite bind_run.
  rewrite (mw_mutate_accepted _ _ _ _ _ _ _ (not_blank_not_empty _ Htok) Hpost
             ltac:(simpl; lia) eq_refl eq_refl).
  reflexivity.
Qed.

Lemma wiki_add_qualifier_url w cid url :
  Py.is_empty (Py.strip (wk_token w)) = false →
  Py.is_empty (Py.strip cid) = false →
  valid_resolver_url url →
  add_qualifier_url (wk_token w) (JStr cid) P_DESCRIBED_AT_URL url w =
    set_qualifier "wbsetqualifier (url) error: " (wk_token w) cid P_DESCRIBED_AT_URL
      (JStr (Py.strip url)) w.
Proof.
  intros Htok Hcid (Hurl & _ & Habs). unfold add_qualifier_url.
  rewrite Hcid, Hurl, Habs. reflexivity.
Qed.

Lemma wiki_add_qualifier_q w cid :
  Py.is_empty (Py.strip cid) = false →
  add_qualifier_q (wk_token w) (JStr cid) P_OPERATOR Q_DELPHER w =
    set_qualifier "wbsetqualifier (Q) error: " (wk_token w) cid P_OPERATOR
      (item_value Q_DELPHER) w.
Proof. intros Hcid. unfold add_qualifier_q. rewrite Hcid. reflexivity. Qed.

End OnTheWiki.

Lemma property_of_add_qualifier guid prop v c :
  Wiki.property_of (Wiki.add_qualifier guid prop v c) = Wiki.property_of c.
Proof.
  destruct c as [| | | | |cd]; try reflexivity.
  unfold Wiki.add_qualifier. destruct (Dyn.eq_str _ guid); [|reflexivity].
  unfold Wiki.property_of. by rewrite assoc_set_ne.
Qed.

Lemma has_value_add_qualifier guid prop v c q :
  claim_has_value_q (Wiki.add_qualifier guid prop v c) q = claim_has_value_q c q.
Proof.
  destruct c as [| | | | |cd]; try reflexivity.
  unfold Wiki.add_qualifier. destruct (Dyn.eq_str _ guid); [|reflexivity].
  unfold claim_has_value_q, claim_has_value_q_body. simpl.
  by rewrite assoc_set_ne.
Qed.

Lemma filter_map_preserved {A} (f : A → A) (t : A → bool) l :
  (∀ x, t (f x) = t x) → List.filter t (map f l) = map f (List.filter t l).
Proof.
  intros Hf. induction l as [|x l IH]; [reflexivity|].
  simpl. rewrite Hf. destruct (t x); simpl; by rewrite IH.
Qed.

Lemma find_map_none {A} (f : A → A) (t : A → bool) l :
  (∀ x, t (f x) = t x) → Forall (λ x, t x = false) l → List.find t (map f l) = None.
Proof.
  intros Hf Hl. induction Hl as [|x l Hx Hl IH]; [reflexivity|].
  simpl. by rewrite Hf, Hx.
Qed.

Lemma find_app_none {A} (t : A → bool) l1 l2 :
  List.find t l1 = None → List.find t (l1 ++ l2) = List.find t l2.
Proof.
  induction l1 as [|x l1 IH]; [reflexivity|]. simpl.
  destruct (t x); [discriminate | exact IH].
Qed.

Lemma find_none_forall {A} (t : A → bool) l :
  Forall (λ x, t x = false) l → List.find t l = None.
Proof. induction 1 as [|x l Hx Hl IH]; [reflexivity|]. simpl. by rewrite Hx. Qed.

Lemma reconciled_new_claim guid url :
  Wiki.add_qualifier guid P_OPERATOR (item_value Q_DELPHER)
    (Wiki.add_qualifier guid P_DESCRIBED_AT_URL (JStr (Py.strip url))
       (Wiki.new_claim guid P_SOURCE_OF_FILE (item_value Q_FILE_ONLINE)))
  = reconciled_claim guid url.
Proof.
  unfold Wiki.add_qualifier, Wiki.new_claim. simpl. rewrite String.eqb_refl.
  simpl. rewrite String.eqb_refl. reflexivity.
Qed.

Lemma reconciled_has_url guid url :
  claim_has_qualifier_url (reconciled_claim guid url) P_DESCRIBED_AT_URL url = inr true.
Proof.
  unfold claim_has_qualifier_url, reconciled_claim. simpl.
  unfold qualifier_url_snak. simpl. by rewrite strip_idem, String.eqb_refl.
Qed.

Section Idempotence.

Context {lib : PyLib}.

(** C1.  Against the wiki on which writes take effect: for an entity [mid]
    without a P7482 statement of value Q74228490, a valid resolver URL and
    the session's token, [ensure_statement] returns "created" after
    exactly one [wbcreateclaim] and two [wbsetqualifier] requests (P973,
    then P137); called again at once with the same inputs it returns
    "already-present" for the same statement and sends no write. *)
Theorem ensure_statement_idempotent (w : Wiki) (mid url : string) :
  is_mid mid = true →
  valid_resolver_url url →
  Py.is_empty (Py.strip (wk_token w)) = false →
  Forall (λ c, claim_has_value_q c Q_FILE_ONLINE = false) (wiki_p7482 w mid) →
  ∃ cid w1 evs1 evs2,
    ensure_statement (wk_token w) mid url w =
      (Ok ("created", cid, wk_token w), w1, evs1)
    ∧ writes evs1 = [("wbcreateclaim", "P7482"); ("wbsetqualifier", "P973");
                     ("wbsetqualifier", "P137")]
    ∧ ensure_statement (wk_token w) mid url w1 =
        (Ok ("already-present", cid, wk_token w), w1, evs2)
    ∧ writes evs2 = [].
Proof.
  intros Hmid Hurl Htok Hnone.
  pose proof (is_mid_not_blank _ Hmid) as Hmid'.
  destruct Hurl as (Hu1 & Hu2 & Hu3).
  set (guid := mid +:+ "$" +:+ str_of_int (wk_next w)).
  assert (Py.is_empty (Py.strip guid) = false) as Hguid.
  { subst guid. apply (strip_not_blank mid "$"). reflexivity. }
  (* the three writes *)
  set (w1 := mkWiki (<[mid := default [] (wk_claims w !! mid)
                             ++ [Wiki.new_claim guid P_SOURCE_OF_FILE
                                   (item_value Q_FILE_ONLINE)]]> (wk_claims w))
               (wk_labels w) (wk_titles w) (wk_token w) (wk_next w + 1)).
  set (w2 := mkWiki (List.map
                       (Wiki.add_qualifier guid P_DESCRIBED_AT_URL (JStr (Py.strip url)))
                       <$> wk_claims w1)
               (wk_labels w1) (wk_titles w1) (wk_token w1) (wk_next w1)).
  set (w3 := mkWiki (List.map
                       (Wiki.add_qualifier guid P_OPERATOR (item_value Q_DELPHER))
                       <$> wk_claims w2)
               (wk_labels w2) (wk_titles w2) (wk_token w2) (wk_next w2)).
  exists (JStr guid), w3. eexists. eexists.
  split; [|split; [|split]].
  - unfold ensure_statement. rewrite Hmid', Hu1, Hu2. cbn [negb orb].
    rewrite bind_run, (wiki_get_p7482 _ _ Hmid).
    rewrite (find_none_forall _ _ Hnone). cbn [prepend].
    rewrite bind_run, (wiki_create _ _ Hmid Htok). fold guid. fold w1.
    cbn [prepend]. rewrite bind_run.
    pose proof (wiki_add_qualifier_url w1 guid url Htok Hguid
                  (conj Hu1 (conj Hu2 Hu3))) as Hq1.
    rewrite (wiki_set_qualifier _ w1 _ _ _ Htok) in Hq1. fold w2 in Hq1.
    change (wk_token w1) with (wk_token w) in Hq1. rewrite Hq1.
    cbn [prepend]. rewrite bind_run.
    pose proof (wiki_add_qualifier_q w2 guid Hguid) as Hq2.
    rewrite (wiki_set_qualifier _ w2 _ _ _ Htok) in Hq2. fold w3 in Hq2.
    change (wk_token w2) with (wk_token w) in Hq2. rewrite Hq2.
    reflexivity.
  - vm_compute. reflexivity.
  - (* the second call reads the reconciled statement *)
    assert (wiki_p7482 w3 mid =
              map (Wiki.add_qualifier guid P_OPERATOR (item_value Q_DELPHER))
                (map (Wiki.add_qualifier guid P_DESCRIBED_AT_URL (JStr (Py.strip url)))
                   (wiki_p7482 w mid))
              ++ [reconciled_claim guid url]) as Hread.
    { unfold wiki_p7482. subst w3 w2 w1. cbn [wk_claims].
      rewrite !lookup_fmap, lookup_insert_eq.
      cbn [fmap option_fmap option_map default from_option id].
      rewrite !(filter_map_preserved (Wiki.add_qualifier _ _ _)
                  (λ c, Dyn.eq_str (Wiki.property_of c) P_SOURCE_OF_FILE))
        by (intros c; by rewrite property_of_add_qualifier).
      rewrite List.filter_app, !map_app. cbn [List.filter map].
      change (Dyn.eq_str (Wiki.property_of (Wiki.new_claim guid P_SOURCE_OF_FILE
                                              (item_value Q_FILE_ONLINE)))
                P_SOURCE_OF_FILE) with true. cbn iota. cbn [map].
      by rewrite reconciled_new_claim. }
    unfold ensure_statement. rewrite Hmid', Hu1, Hu2. cbn [negb orb].
    rewrite bind_run, (wiki_get_p7482 _ _ Hmid), Hread.
    rewrite find_app_none; cycle 1.
    { rewrite map_map. apply find_map_none; [|exact Hnone].
      intros c. by rewrite !has_value_add_qualifier. }
    change (List.find _ [reconciled_claim guid url]) with (Some (reconciled_claim guid url)).
    cbn [prepend]. rewrite bind_run. cbn [Dyn.get reconciled_claim lift].
    change (lift (inr (default JNull (Dyn.assoc "id" _)))) with (mret (M := M) (JStr guid)).
    cbn [prepend mret M_ret ret]. rewrite bind_run.
    fold (reconciled_claim guid url). rewrite reconciled_has_url.
    reflexivity.
  - reflexivity.
Qed.

End Idempotence.

Lemma ensure_statement_idempotent_witness :
  is_mid "M109018409" = true
  ∧ ∃ cid w1 evs1 evs2,
      ensure_statement (lib := sample_lib) "tok" "M109018409" sample_url wiki_fresh =
        (Ok ("created", cid, "tok"), w1, evs1)
      ∧ writes evs1 = [("wbcreateclaim", "P7482"); ("wbsetqualifier", "P973");
                       ("wbsetqualifier", "P137")]
      ∧ ensure_statement (lib := sample_lib) "tok" "M109018409" sample_url w1 =
          (Ok ("already-present", cid, "tok"), w1, evs2)
      ∧ writes evs2 = [].
Proof.
  split; [reflexivity|].
  apply (ensure_statement_idempotent (lib := sample_lib) wiki_fresh "M109018409" sample_url).
  - reflexivity.
  - repeat split; reflexivity.
  - reflexivity.
  - repeat constructor.
Defined.

Section Completion.

Context {W : Type} {env : Env W} {lib : PyLib}.

Lemma get_p7482_claims_reads_only mid (w : W) :
  writes (get_p7482_claims mid w).2 = [].
Proof.
  assert (sat (λ e, write_of e = None) (λ _ : list json, True) (λ _, True)
            (get_p7482_claims mid)) as Hs.
  { unfold get_p7482_claims, mw_request, raise_for_status, response_json.
    change (Py.upper "GET") with "GET". cbn [String.eqb Ascii.eqb Bool.eqb orb negb].
    sat_auto. }
  destruct (Hs w) as [Hl _]. unfold writes.
  induction Hl as [|e l He Hl IH]; [reflexivity|]. simpl. by rewrite He.
Qed.

(** C5 (as amended).  When the first P7482 statement of value Q74228490
    that the read returns carries exactly one of the two qualifiers (P973
    equal to the resolver URL after trimming, or P137 = Q20670235), and the
    remote end accepts the write, [ensure_statement] returns "updated" for
    that statement after exactly one write: the [wbsetqualifier] of the
    missing qualifier.  No statement is created. *)
Theorem missing_qualifier_is_completed token mid url existing target cid
    (has_url has_q : bool) r j (w w1 w2 : W) evs0 :
  Py.is_empty token = false →
  Py.is_empty (Py.strip mid) = false →
  valid_resolver_url url →
  get_p7482_claims mid w = (Ok existing, w1, evs0) →
  List.find (λ cl, claim_has_value_q cl Q_FILE_ONLINE) existing = Some target →
  Dyn.get target "id" = inr (JStr cid) →
  Py.is_empty (Py.strip cid) = false →
  claim_has_qualifier_url target P_DESCRIBED_AT_URL url = inr has_url →
  claim_has_qualifier_q target P_OPERATOR Q_DELPHER = inr has_q →
  has_url = negb has_q →
  let prop := if has_url then P_OPERATOR else P_DESCRIBED_AT_URL in
  let value := if has_url then item_value Q_DELPHER else JStr (Py.strip url) in
  let p := stable_params set_qualifier_params in
  let d := with_auth token (set_qualifier_data token cid prop value) in
  env_post p d w1 = (HttpResp r, w2) →
  200 <= status_code r < 300 →
  body r = Some j →
  has_error_key j = inr false →
  ensure_statement token mid url w =
    (Ok ("updated", JStr cid, token), w2, evs0 ++ [EvPost p d])
  ∧ writes (evs0 ++ [EvPost p d]) = [("wbsetqualifier", prop)].
Proof.
  intros Htok Hmid (Hu1 & Hu2 & Hu3) Hread Hfind Hid Hcid Hurl Hq Hone
    prop value p d Hpost Hst Hbody Hkey.
  assert (set_qualifier_accepted :
            ∀ what, set_qualifier what token cid prop value w1
                    = (Ok (j, token), w2, [EvPost p d])).
  { intros what. unfold set_qualifier. rewrite bind_run.
    rewrite (mw_mutate_accepted _ _ _ _ _ _ _ Htok Hpost Hst Hbody Hkey).
    cbn [prepend]. rewrite bind_run, Hkey. reflexivity. }
  split.
  - unfold ensure_statement. rewrite Hmid, Hu1, Hu2. cbn [negb orb].
    rewrite bind_run, Hread, Hfind. cbn [prepend].
    rewrite bind_run, Hid. cbn [lift prepend mret M_ret ret].
    rewrite bind_run, Hurl. cbn [lift prepend mret M_ret ret].
    destruct has_url, has_q; try discriminate; cbn [negb].
    + (* the operator is missing *)
      rewrite bind_run. cbn [mret M_ret ret prepend].
      rewrite bind_run, Hq. cbn [lift prepend mret M_ret ret negb].
      rewrite bind_run, bind_run.
      unfold add_qualifier_q. rewrite Hcid. cbn [negb].
      change (Py.is_empty (Py.strip P_OPERATOR)) with false.
      change (Q_DELPHER <=? 0) with false. cbv iota.
      rewrite (set_qualifier_accepted _). unfold prepend, mret, M_ret, ret.
      by rewrite ?app_nil_r.
    + (* the URL is missing *)
      rewrite bind_run, bind_run.
      unfold add_qualifier_url. rewrite Hcid, Hu1, Hu3. cbn [negb].
      change (Py.is_empty (Py.strip P_DESCRIBED_AT_URL)) with false. cbv iota.
      rewrite (set_qualifier_accepted _). cbn [prepend mret M_ret ret].
      rewrite bind_run, Hq. cbn [lift prepend mret M_ret ret negb].
      rewrite bind_run. unfold prepend, mret, M_ret, ret. by rewrite ?app_nil_r.
  - unfold writes. rewrite omap_app.
    pose proof (get_p7482_claims_reads_only mid w) as Hnone.
    rewrite Hread in Hnone. unfold writes in Hnone. simpl in Hnone. rewrite Hnone.
    subst p d prop value. destruct has_url; vm_compute; reflexivity.
Qed.

(** C8.  When the read of the statements, or of the labels, of an entity
    comes back as an HTTP error whose body carries the API error code
    no-such-entity, [get_p7482_claims] returns the empty list and
    [get_existing_labels] the empty map; neither raises. *)
Theorem no_such_entity_reads_as_empty mid r (w w1 : W) :
  is_mid mid = true →
  raises_for_status (status_code r) = true →
  http_error_code r = Some (JStr "no-such-entity") →
  let labels_params := get_labels_params ("M" +:+ Py.drop 1 (Py.strip mid)) in
  (env_get (get_claims_params mid) w = (HttpResp r, w1) →
     get_p7482_claims mid w = (Ok [], w1, [EvGet (get_claims_params mid)]))
  ∧ (env_get labels_params w = (HttpResp r, w1) →
     get_existing_labels mid w = (Ok ∅, w1, [EvGet labels_params])).
Proof.
  intros Hmid Hraise Hcode labels_params.
  assert (is_no_such_entity (HTTPError r) = true) as Hnse.
  { simpl. by rewrite Hcode. }
  split; intros Hget.
  - unfold get_p7482_claims. rewrite Hmid. cbn [negb].
    rewrite bind_run, try_run, bind_run. unfold mw_request.
    change (Py.upper "GET") with "GET". cbn [String.eqb Ascii.eqb Bool.eqb orb negb].
    rewrite bind_run. unfold session_get. rewrite Hget. cbn [of_http].
    rewrite bind_run. unfold raise_for_status. rewrite Hraise.
    unfold raise. cbn [prepend]. rewrite Hnse. reflexivity.
  - unfold get_existing_labels. rewrite (is_mid_not_blank _ Hmid), Hmid. cbn [negb].
    rewrite bind_run, try_run, bind_run. unfold mw_request.
    change (Py.upper "GET") with "GET". cbn [String.eqb Ascii.eqb Bool.eqb orb negb].
    rewrite bind_run. unfold session_get. fold labels_params. rewrite Hget. cbn [of_http].
    rewrite bind_run. unfold raise_for_status. rewrite Hraise.
    unfold raise. cbn [prepend]. rewrite Hnse. reflexivity.
Qed.

End Completion.

Lemma missing_qualifier_is_completed_witness :
  claim_has_qualifier_url (url_only_claim "M109018409$3") P_DESCRIBED_AT_URL sample_url
    = inr true
  ∧ claim_has_qualifier_q (url_only_claim "M109018409$3") P_OPERATOR Q_DELPHER = inr false
  ∧ ∃ w2 evs,
      ensure_statement (lib := sample_lib) "tok" "M109018409" sample_url wiki_url_only
        = (Ok ("updated", JStr "M109018409$3", "tok"), w2, evs)
      ∧ writes evs = [("wbsetqualifier", "P137")].
Proof.
  split; [reflexivity|]. split; [reflexivity|].
  eexists. eexists.
  apply (missing_qualifier_is_completed (env := wiki_env) (lib := sample_lib)
           "tok" "M109018409" sample_url
           [other_value_claim; url_only_claim "M109018409$3"]
           (url_only_claim "M109018409$3") "M109018409$3" true false
           (Response 200 None (Some (JDict [("success", JInt 1)])))
           (JDict [("success", JInt 1)]) wiki_url_only wiki_url_only);
    try reflexivity.
  - repeat split; reflexivity.
  - simpl. lia.
Defined.

(** C5, as stated, fails: the entity has a statement of the right value with
    one qualifier only, yet the reconciler looks at the first statement of
    that value, finds it complete and writes nothing. *)
Lemma later_incomplete_claim_is_not_completed :
  In (url_only_claim "M109018409$3") (wiki_p7482 wiki_two_claims "M109018409")
  ∧ claim_has_value_q (url_only_claim "M109018409$3") Q_FILE_ONLINE = true
  ∧ claim_has_qualifier_url (url_only_claim "M109018409$3") P_DESCRIBED_AT_URL sample_url
    = inr true
  ∧ claim_has_qualifier_q (url_only_claim "M109018409$3") P_OPERATOR Q_DELPHER = inr false
  ∧ ensure_statement (lib := sample_lib) "tok" "M109018409" sample_url wiki_two_claims
    = (Ok ("already-present", JStr "M109018409$2", "tok"), wiki_two_claims,
       [EvGet (get_claims_params "M109018409")]).
Proof.
  split; [right; left; reflexivity|].
  repeat split; vm_compute; reflexivity.
Qed.

Lemma no_such_entity_reads_as_empty_witness :
  http_error_code no_such_entity_response = Some (JStr "no-such-entity")
  ∧ get_p7482_claims (env := script_env) "M109018409" world_no_entity
    = (Ok [], mkScript [] [], [EvGet (get_claims_params "M109018409")])
  ∧ get_existing_labels (env := script_env) "m109018409" world_no_entity
    = (Ok ∅, mkScript [] [], [EvGet (get_labels_params "M109018409")]).
Proof.
  split; [reflexivity|]. split.
  - apply (no_such_entity_reads_as_empty (env := script_env)
             "M109018409" no_such_entity_response world_no_entity (mkScript [] []));
      reflexivity.
  - apply (no_such_entity_reads_as_empty (env := script_env)
             "m109018409" no_such_entity_response world_no_entity (mkScript [] []));
      reflexivity.
Defined.

(* ===================================================================== *)
(** ** The caption candidate *)
(* ===================================================================== *)

Example derive_caption_doc1 :
  derive_caption_from_live_title "File:Foo_bar (IA ddd 012345678).pdf" = "Foo bar".
Proof. vm_compute. reflexivity. Qed.

Example derive_caption_doc2 :
  derive_caption_from_live_title "File:Image name.TIFF" = "Image name".
Proof. vm_compute. reflexivity. Qed.

(** C9.  The title of the specification's example gives the caption
    "Rotterdamsche courant 21-11-1840": the prefix, the extension and the
    trailing IA parenthetical are gone, the white space is trimmed. *)
Theorem derive_caption_rotterdamsche_courant :
  derive_caption_from_live_title
    "File:Rotterdamsche courant 21-11-1840 (IA KBDDD02 000201168 mpeg21).pdf"
  = "Rotterdamsche courant 21-11-1840".
Proof. vm_compute. reflexivity. Qed.

(* ===================================================================== *)
(** ** The label reconciler *)
(* ===================================================================== *)

Lemma df_get_set_same (col : Row → string) (set : string → Row → Row) i v df :
  (∀ r, col (set v r) = v) → (i < length df)%nat →
  df_get col i (df_set set i v df) = v.
Proof.
  intros Hcol Hi. unfold df_get, df_set. rewrite list_lookup_alter_eq.
  destruct (lookup_lt_is_Some_2 df i Hi) as [r ->]. simpl. by rewrite Hcol.
Qed.

Lemma df_get_set_other (col : Row → string) (set : string → Row → Row) i j v df :
  (∀ r, col (set v r) = col r) →
  df_get col i (df_set set j v df) = df_get col i df.
Proof.
  intros Hcol. unfold df_get, df_set.
  destruct (decide (i = j)) as [->|Hne].
  - rewrite list_lookup_alter_eq. destruct (df !! j); simpl; by rewrite ?Hcol.
  - by rewrite list_lookup_alter_ne.
Qed.

Lemma df_set_length set i v df : length (df_set set i v df) = length df.
Proof. apply length_alter. Qed.

Lemma df_set_if_empty_length col set i v df :
  length (df_set_if_empty col set i v df) = length df.
Proof. unfold df_set_if_empty. destruct (Py.is_empty _); [apply df_set_length | done]. Qed.

Lemma df_get_set_if_empty_kept (col : Row → string) set i v df :
  (∀ r, col (set v r) = v) → (∀ r u, col (set u r) = u) →
  Py.is_empty (df_get col i df) = false →
  df_get col i (df_set_if_empty col set i v df) = df_get col i df.
Proof. intros _ _ Hne. unfold df_set_if_empty. by rewrite Hne. Qed.

Lemma df_get_set_if_empty_other (col col' : Row → string) set i j v df :
  (∀ r u, col (set u r) = col r) →
  df_get col i (df_set_if_empty col' set j v df) = df_get col i df.
Proof.
  intros Hcol. unfold df_set_if_empty.
  destruct (Py.is_empty _); [by apply df_get_set_other | done].
Qed.

Lemma caught_message_exception {lib : PyLib} e :
  is_Exception e = true → ∃ msg, caught_message e = Some msg.
Proof. destruct e; simpl; intros; try discriminate; eauto. Qed.

Section Labels.

Context {W : Type} {env : Env W} {lib : PyLib}.

Implicit Types (w : W) (df : list Row).

(** The loop of one operation keeps the fields of the form it was given. *)
Lemma mutate_loop_sat (P : event → Prop) (I : form → Prop) p max base :
  (∀ params, P (EvGet params)) → (∀ s, P (EvSleep s)) →
  (∀ d, I d → P (EvPost p d)) →
  (∀ t d, I d → I (with_auth t d)) →
  ∀ fuel d attempt token,
    I d → max < Z.of_nat attempt + Z.of_nat fuel → (0 < fuel)%nat →
    sat P (λ _, True) (λ e, is_Exception e = true)
      (mutate_loop fuel p d max base attempt token).
Proof.
  intros Hget Hsleep Hpost Hinv fuel.
  induction fuel as [|fuel IH]; intros d attempt token Hd Hfuel Hpos w; [lia|].
  rewrite loop_step.
  destruct (turn_shape P p (with_auth token d) max base (S attempt) token Hget Hsleep w)
    as (l & Hev & Hl & Ho).
  pose proof (Hpost _ (Hinv token d Hd)) as Hp.
  destruct (mutate_attempt _ _ _ _ _ _ w) as [[[[t'|j t']|e|] w1] l0];
    simpl in *; subst l0; try done.
  - destruct (IH (with_auth token d) (S attempt) t' (Hinv token d Hd)
                ltac:(lia) ltac:(lia) w1) as [Hl2 Ho2].
    destruct (mutate_loop fuel _ _ _ _ _ _ w1) as [[o2 w2] l2]; simpl in *.
    split; [|done]. constructor; [done|]. by apply Forall_app.
  - split; [|done]. by constructor.
  - split; [|done]. by constructor.
Qed.

(** [set_label] ends, raises only what [except Exception] catches, and
    writes no label but the one of its language. *)
Lemma sat_set_label csrf mid lang value other :
  Py.strip lang ≠ other →
  sat (not_label_write other) (λ _, True) (λ e, is_Exception e = true)
    (set_label csrf mid lang value).
Proof.
  intros Hother. unfold set_label.
  set (I := λ d : form, d !! "property" = None
                        ∧ d !! "language" = Some (FStr (Py.strip lang))).
  assert (sat (not_label_write other) (λ _, True) (λ e, is_Exception e = true)
            (mw_mutate csrf {[ "action" := FStr "wbsetlabel" ]}
               (Some (set_label_data mid lang value)))) as Hmut.
  { unfold mw_mutate, mw_mutate_with.
    repeat match goal with
           | |- sat _ _ _ (if ?b then raise _ else _) =>
               destruct b eqn:?; [by apply sat_raise|]
           end.
    apply (mutate_loop_sat _ I); try done.
    - intros d [Hprop Hlang]. unfold not_label_write, write_of.
      rewrite Hprop, Hlang. intros Heq. inversion Heq. done.
    - intros t d [Hprop Hlang]. unfold I, with_auth.
      rewrite !lookup_setdefault.
      repeat case_decide; try discriminate.
      rewrite !lookup_insert_ne by discriminate. done.
    - lia. }
  repeat first [ apply Hmut | sat_step ]; try done.
  all: try (by destruct e).
Qed.

End Labels.

Section Captions.

Context {W : Type} {env : Env W} {lib : PyLib}.
Variable cfg : Config.

Implicit Types (w : W) (df : list Row) (labels : gmap string string).

Lemma sat_captions_failed (P : event → Prop) i df changed opened e :
  is_Exception e = true →
  sat P (λ _, True) (λ _, False) (captions_failed (W:=W) i df changed opened e).
Proof.
  intros He. unfold captions_failed.
  destruct (caught_message_exception e He) as [msg ->]. by apply sat_ret.
Qed.

Lemma sat_set_label_any csrf mid lang value :
  sat (W:=W) (λ _, True) (λ _, True) (λ e, is_Exception e = true)
    (set_label csrf mid lang value).
Proof.
  apply (sat_mono (not_label_write (String "x" (Py.strip lang))) _
           (λ _, True) _ (λ e, is_Exception e = true)); try done.
  apply sat_set_label. intros Heq. apply (f_equal String.length) in Heq.
  simpl in Heq. lia.
Qed.

(** The end of the block always returns: a failed write is caught and
    recorded. *)
Lemma captions_nl_returns i mid candidate csrf labels df changed opened :
  sat (λ _, True) (λ _, True) (λ _, False)
    (captions_nl cfg i mid candidate csrf labels df changed opened).
Proof.
  unfold captions_nl, caption_lang, open_page_in_browser.
  apply (sat_try _ _ (λ e, is_Exception e = true));
    [| intros e He; by apply sat_captions_failed].
  eapply (sat_bind _ (λ _, True)).
  { destruct (labels !! "nl"); [by apply sat_ret|].
    eapply (sat_bind _ (λ _, True));
      [apply sat_set_label_any | intros; by apply sat_ret]. }
  intros [df2 ch2] _.
  sat_auto.
Qed.

(** So does the block from the labels on. *)
Lemma captions_langs_returns i mid candidate csrf labels df changed opened :
  sat (λ _, True) (λ _, True) (λ _, False)
    (captions_langs cfg i mid candidate csrf labels df changed opened).
Proof.
  unfold captions_langs, caption_lang.
  apply (sat_try _ _ (λ e, is_Exception e = true));
    [| intros e He; by apply sat_captions_failed].
  eapply (sat_bind _ (λ _, True)).
  { destruct (labels !! "en"); [by apply sat_ret|].
    eapply (sat_bind _ (λ _, True));
      [apply sat_set_label_any | intros; by apply sat_ret]. }
  intros [df1 ch1] _.
  apply (sat_mono (λ _, True) _ (λ _, True) _ (λ _, False)); try done.
  apply captions_nl_returns.
Qed.

(** With the label of [lang] already there, the block from the labels on
    does not write it. *)
Lemma captions_langs_keep lang i mid candidate csrf labels df changed opened :
  lang = "en" ∨ lang = "nl" →
  is_Some (labels !! lang) →
  sat (not_label_write lang) (λ _, True) (λ _, True)
    (captions_langs cfg i mid candidate csrf labels df changed opened).
Proof.
  intros Hlang Hsome.
  unfold captions_langs, captions_nl, caption_lang, open_page_in_browser,
    captions_failed.
  assert (∀ l, l ≠ lang → l = "en" ∨ l = "nl" →
               sat (not_label_write lang) (λ _ : json, True) (λ _, True)
                 (set_label csrf mid l candidate)) as Hset.
  { intros l Hne Hl. eapply sat_mono; [apply (sat_set_label _ _ l _ lang)| done..].
    by destruct Hl as [-> | ->]. }
  assert (labels !! lang = None → False) as Hnone.
  { intros Hn. rewrite Hn in Hsome. by destruct Hsome. }
  repeat first
    [ match goal with
      | |- sat _ _ _ (set_label _ _ ?l _) =>
          apply (Hset l); [intros Heq; subst lang; by apply Hnone | auto]
      end
    | sat_step ]; try done.
Qed.

Lemma get_existing_labels_reads_only mid w :
  Forall (λ e, write_of e = None) (get_existing_labels mid w).2.
Proof.
  assert (sat (λ e, write_of e = None) (λ _ : gmap string string, True) (λ _, True)
            (get_existing_labels mid)) as Hs.
  { unfold get_existing_labels, mw_request, raise_for_status, response_json.
    change (Py.upper "GET") with "GET". cbn [String.eqb Ascii.eqb Bool.eqb orb negb].
    sat_auto. }
  exact (proj1 (Hs w)).
Qed.

(** The caption block, when the candidate is not blank and the labels are
    read: the rest is [captions_langs]. *)
Lemma captions_part_run i mid n t csrf df changed opened labels w w1 evs0 v w2 l :
  n ≠ 0 →
  let candidate := derive_caption_from_live_title t in
  Py.is_empty (Py.strip candidate) = false →
  get_existing_labels mid w = (Ok labels, w1, evs0) →
  captions_langs cfg i mid candidate csrf labels
    (df_set set_CaptionCandidate i candidate df) changed opened w1 = (Ok v, w2, l) →
  captions_part cfg i mid (Some n) (Some t) csrf df changed opened w =
    (Ok v, w2, evs0 ++ l).
Proof.
  intros Hn candidate Hcand Hread Hlangs. unfold captions_part.
  apply Z.eqb_neq in Hn. rewrite Hn.
  rewrite try_run, bind_run. cbn [mret M_ret ret prepend].
  rewrite bind_run. cbn [mret M_ret ret prepend].
  fold candidate. rewrite Hcand.
  rewrite try_run, bind_run, Hread. cbn [prepend]. rewrite Hlangs.
  reflexivity.
Qed.

Lemma no_label_write_in lang (l : list event) :
  Forall (not_label_write lang) l → ("wbsetlabel", lang) ∉ writes l.
Proof.
  induction 1 as [|e l He Hl IH]; [apply not_elem_of_nil|].
  unfold writes. simpl. destruct (write_of e) as [x|] eqn:Hx; [|exact IH].
  apply not_elem_of_cons. split; [|exact IH].
  intros <-. by apply He.
Qed.

Lemma reads_have_no_writes (l : list event) :
  Forall (λ e, write_of e = None) l → writes l = [].
Proof.
  induction 1 as [|e l He Hl IH]; [reflexivity|].
  unfold writes. simpl. by rewrite He.
Qed.

(** What the end of the block leaves in the two status cells. *)
Lemma captions_nl_result i mid candidate csrf labels df changed opened
    w df' changed' opened' w' l :
  captions_nl cfg i mid candidate csrf labels df changed opened w =
    (Ok (df', changed', opened'), w', l) →
  (Py.is_empty (df_get CaptionENStatus i df) = false →
     df_get CaptionENStatus i df' = df_get CaptionENStatus i df)
  ∧ (is_Some (labels !! "nl") → (i < length df)%nat →
     df_get CaptionNLStatus i df' = "already-present").
Proof.
  unfold captions_nl, caption_lang. rewrite try_run, bind_run.
  destruct (labels !! "nl") as [v|] eqn:Hnl.
  - cbn [mret M_ret ret prepend].
    destruct (_ && _); [rewrite bind_run; unfold open_page_in_browser;
                        destruct (Py.is_empty (Py.strip mid))|];
      cbn; intros [= <- _ _ _ _]; (split; [intros _|intros _ Hi]);
      first [ by apply df_get_set_other | by apply df_get_set_same ].
  - rewrite bind_run.
    destruct (set_label csrf mid "nl" candidate w) as [[[j|e|] w2] l2].
    + cbn [mret M_ret ret prepend].
      destruct (_ && _); [rewrite bind_run; unfold open_page_in_browser;
                          destruct (Py.is_empty (Py.strip mid))|];
        cbn; intros [= <- _ _ _ _]; (split; [intros _|intros [? [=]]]);
        by apply df_get_set_other.
    + cbn [prepend]. unfold captions_failed.
      destruct (caught_message e) as [msg|]; cbn; [|discriminate].
      intros [= <- _ _ _ _]. split; [intros Hne|intros [? [=]]].
      rewrite df_get_set_if_empty_other by done.
      by apply df_get_set_if_empty_kept.
    + discriminate.
Qed.

(** C6 (as amended).  In the caption block of a row, once the labels of
    the entity are read: for a language of {en, nl} that the label map
    contains, no [wbsetlabel] for that language is sent, whatever the
    candidate text.  The status recorded for en is then "already-present";
    so is the one for nl, provided the block got as far as nl: en was
    present too, or the write of en did not raise. *)
Theorem existing_label_is_kept i mid n t csrf df changed opened labels w w1 evs0 :
  n ≠ 0 →
  Py.is_empty (Py.strip (derive_caption_from_live_title t)) = false →
  get_existing_labels mid w = (Ok labels, w1, evs0) →
  (i < length df)%nat →
  let candidate := derive_caption_from_live_title t in
  ∃ df' changed' opened' w' evs,
    captions_part cfg i mid (Some n) (Some t) csrf df changed opened w =
      (Ok (df', changed', opened'), w', evs)
    ∧ (∀ lang, lang = "en" ∨ lang = "nl" → is_Some (labels !! lang) →
         ("wbsetlabel", lang) ∉ writes evs)
    ∧ (is_Some (labels !! "en") →
         df_get CaptionENStatus i df' = "already-present")
    ∧ (is_Some (labels !! "nl") →
         (is_Some (labels !! "en")
          ∨ ∃ j w2 l, set_label csrf mid "en" candidate w1 = (Ok j, w2, l)) →
         df_get CaptionNLStatus i df' = "already-present").
Proof.
  intros Hn Hcand Hread Hi candidate.
  set (dfc := df_set set_CaptionCandidate i candidate df).
  assert (length dfc = length df) as Hlen by apply df_set_length.
  destruct (captions_langs_returns i mid candidate csrf labels dfc changed opened w1)
    as [_ Hret].
  destruct (captions_langs cfg i mid candidate csrf labels dfc changed opened w1)
    as [[[[[df' changed'] opened']|e|] w'] l] eqn:Hlangs; simpl in Hret; try done.
  exists df', changed', opened', w', (evs0 ++ l).
  split; [by apply (captions_part_run _ _ _ _ _ _ _ _ labels w w1)|]. split; [|split].
  - intros lang Hlang Hsome. unfold writes. rewrite omap_app.
    pose proof (get_existing_labels_reads_only mid w) as Hreads.
    rewrite Hread in Hreads. apply reads_have_no_writes in Hreads.
    unfold writes in Hreads. cbn [snd] in Hreads. rewrite Hreads. simpl.
    apply no_label_write_in.
    pose proof (captions_langs_keep lang i mid candidate csrf labels dfc changed opened
                  Hlang Hsome w1) as [Hl _].
    by rewrite Hlangs in Hl.
  - intros [v Hen]. revert Hlangs.
    unfold captions_langs, caption_lang at 1. rewrite Hen, try_run, bind_run.
    cbn [mret M_ret ret prepend].
    pose proof (proj2 (captions_nl_returns i mid candidate csrf labels
                         (df_set set_CaptionENStatus i "already-present" dfc)
                         changed opened w1)) as Hnl_ret.
    destruct (captions_nl _ _ _ _ _ _ _ _ _ w1) as [[[[[df2 ch2] op2]|e|] w2] l2] eqn:Hnl;
      simpl in Hnl_ret; try done.
    cbn. intros [= <- _ _ _ _].
    destruct (captions_nl_result _ _ _ _ _ _ _ _ _ _ _ _ _ _ Hnl) as [Hkeep _].
    rewrite Hkeep; rewrite df_get_set_same; try done; lia.
  - intros Hnl Hen. revert Hlangs.
    unfold captions_langs, caption_lang at 1. rewrite try_run, bind_run.
    assert (∀ df1 ch1 w2 l1,
              (length df1 = length df)%nat →
              (let (p, l3) :=
                 prepend l1
                   (captions_nl cfg i mid candidate csrf labels df1 ch1 opened w2) in
               let (o, w3) := p in
               match o with
               | Ok a => (Ok a, w3, l3)
               | Raise e => prepend l3 (captions_failed i dfc changed opened e w3)
               | OutOfFuel => (OutOfFuel, w3, l3)
               end) = (Ok (df', changed', opened'), w', l) →
              df_get CaptionNLStatus i df' = "already-present") as Hrest.
    { intros df1 ch1 w2 l1 Hlen1.
      pose proof (proj2 (captions_nl_returns i mid candidate csrf labels df1 ch1
                           opened w2)) as Hnl_ret.
      destruct (captions_nl _ _ _ _ _ _ _ _ _ w2) as [[[[[df2 ch2] op2]|e|] w3] l3] eqn:Hr;
        simpl in Hnl_ret; try done.
      unfold prepend. intros [= <- _ _ _ _].
      apply (proj2 (captions_nl_result _ _ _ _ _ _ _ _ _ _ _ _ _ _ Hr)); [done|lia]. }
    destruct Hen as [[v Hen] | (j & w2 & l2 & Hset)].
    + rewrite Hen. cbn [mret M_ret ret prepend].
      intros Hrun. eapply (Hrest _ _ _ []); [|exact Hrun].
      by rewrite df_set_length.
    + destruct (labels !! "en") as [v|].
      * cbn [mret M_ret ret prepend].
        intros Hrun. eapply (Hrest _ _ _ []); [|exact Hrun].
        by rewrite df_set_length.
      * rewrite bind_run, Hset. cbn [mret M_ret ret prepend].
        intros Hrun. eapply (Hrest _ _ _ (l2 ++ [])); [|exact Hrun].
        by rewrite df_set_length.
Qed.

End Captions.

Lemma existing_label_is_kept_witness :
  let labels : gmap string string :=
    {[ "en" := "An old caption"; "nl" := "Een oud bijschrift" ]} in
  get_existing_labels "M109018409" wiki_labelled =
    (Ok labels, wiki_labelled, [EvGet (get_labels_params "M109018409")])
  ∧ ∃ df' changed' opened' w' evs,
      captions_part (lib := sample_lib) default_config 0 "M109018409" (Some 109018409)
        (Some sample_title) "tok" [blank_row "M109018409"] false 0 wiki_labelled =
        (Ok (df', changed', opened'), w', evs)
      ∧ (∀ lang, lang = "en" ∨ lang = "nl" → is_Some (labels !! lang) →
           ("wbsetlabel", lang) ∉ writes evs)
      ∧ (is_Some (labels !! "en") →
           df_get CaptionENStatus 0 df' = "already-present")
      ∧ (is_Some (labels !! "nl") →
           (is_Some (labels !! "en")
            ∨ ∃ j w2 l,
                set_label (lib := sample_lib) "tok" "M109018409" "en"
                  (derive_caption_from_live_title sample_title) wiki_labelled
                = (Ok j, w2, l)) →
           df_get CaptionNLStatus 0 df' = "already-present").
Proof.
  intros labels. split; [vm_compute; reflexivity|].
  apply (existing_label_is_kept (env := wiki_env) (lib := sample_lib) default_config
           0 "M109018409" 109018409 sample_title "tok" [blank_row "M109018409"]
           false 0 labels wiki_labelled wiki_labelled
           [EvGet (get_labels_params "M109018409")]).
  - lia.
  - vm_compute; reflexivity.
  - vm_compute; reflexivity.
  - simpl. lia.
Defined.

(** C6, as stated, fails on the status: the entity has its nl label and no
    en label, and the write of the en label is refused.  No label is
    written for nl, yet the status recorded for nl is the error of the en
    write, not already-present. *)
Lemma failed_en_write_hides_existing_nl :
  ∃ w1 evs0 df' w' evs,
    get_existing_labels (env := script_env) "M109018409"
      world_nl_only_denied =
      (Ok {[ "nl" := "Een oud bijschrift" ]}, w1, evs0)
    ∧ captions_part (env := script_env) (lib := sample_lib) default_config 0
        "M109018409" (Some 109018409) (Some sample_title) "tok"
        [blank_row "M109018409"] false 0 world_nl_only_denied =
        (Ok (df', false, 0), w', evs)
    ∧ writes evs = [("wbsetlabel", "en")]
    ∧ Py.startswith "error:" (df_get CaptionNLStatus 0 df') = true
    ∧ df_get CaptionNLStatus 0 df' ≠ "already-present".
Proof.
  do 5 eexists. split; [vm_compute; reflexivity|].
  split; [vm_compute; reflexivity|].
  split; [vm_compute; reflexivity|].
  split; [vm_compute; reflexivity|].
  vm_compute. discriminate.
Qed.

(* ===================================================================== *)
(** ** The row loop *)
(* ===================================================================== *)

Section Transport.

Context {W : Type} {env : Env W} {lib : PyLib}.

Lemma sat_mw_request (P : event → Prop) method params data :
  (∀ p, P (EvGet p)) → (∀ p d, P (EvPost p d)) →
  sat (W:=W) P (λ _, True) (λ _, True) (mw_request method params data).
Proof.
  intros Hget Hpost. unfold mw_request, raise_for_status, response_json.
  sat_auto; done.
Qed.

Lemma sat_mw_mutate (P : event → Prop) csrf params data :
  (∀ p, P (EvGet p)) → (∀ s, P (EvSleep s)) → (∀ p d, P (EvPost p d)) →
  sat (W:=W) P (λ _, True) (λ _, True) (mw_mutate csrf params data).
Proof.
  intros Hget Hsleep Hpost.
  apply (sat_mono P _ (λ _, True) _ (λ e, is_Exception e = true)); try done.
  unfold mw_mutate, mw_mutate_with.
  repeat match goal with
         | |- sat _ _ _ (if ?b then raise _ else _) =>
             destruct b eqn:?; [by apply sat_raise|]
         end.
  apply (mutate_loop_sat _ (λ _, True)); try done. lia.
Qed.

End Transport.

Lemma row_work_get p : is_row_work (EvGet p).
Proof. exact I. Qed.

Lemma row_work_post p d : is_row_work (EvPost p d).
Proof. exact I. Qed.

Lemma row_work_sleep s : is_row_work (EvSleep s).
Proof. exact I. Qed.

(** Decomposition for code that only calls the API, waits or opens a tab. *)
Ltac row_auto :=
  repeat first
    [ apply sat_mw_mutate; [exact row_work_get | exact row_work_sleep | exact row_work_post]
    | apply sat_mw_request; [exact row_work_get | exact row_work_post]
    | sat_step ];
  try done.

Section RowWork.

Context {W : Type} {env : Env W} {lib : PyLib}.
Variable cfg : Config.

Implicit Types (w : W) (df : list Row).

Lemma sat_get_live_file_title n :
  sat (W:=W) is_row_work (λ _, True) (λ _, True) (get_live_file_title n).
Proof. unfold get_live_file_title. row_auto. Qed.

Lemma sat_ensure_statement csrf mid resolver :
  sat (W:=W) is_row_work (λ _, True) (λ _, True) (ensure_statement csrf mid resolver).
Proof.
  unfold ensure_statement, get_p7482_claims, create_p7482_claim, add_qualifier_url,
    add_qualifier_q, set_qualifier.
  row_auto.
Qed.

Lemma sat_statement_part i mid resolver df csrf :
  sat (W:=W) is_row_work (λ _, True) (λ _, True) (statement_part i mid resolver df csrf).
Proof.
  unfold statement_part.
  repeat first [ apply sat_ensure_statement | sat_step ]; try done.
Qed.

Lemma sat_captions_part i mid pageid live_title csrf df changed opened :
  sat (W:=W) is_row_work (λ _, True) (λ _, True)
    (captions_part cfg i mid pageid live_title csrf df changed opened).
Proof.
  unfold captions_part, captions_langs, captions_nl, caption_lang, captions_failed,
    open_page_in_browser, get_existing_labels, set_label.
  repeat first [ apply sat_get_live_file_title | progress row_auto ]; try done.
Qed.

End RowWork.

(** *** Checkpoints *)

Lemma marks_app l1 l2 : marks (l1 ++ l2) = marks l1 ++ marks l2.
Proof. apply omap_app. Qed.

Lemma marks_row_work l : Forall is_row_work l → marks l = [].
Proof.
  induction 1 as [|e l He _ IH]; [done|].
  destruct e; try done; exact IH.
Qed.

Lemma checkpoint_marks_app t c rows1 rows2 :
  checkpoint_marks t c (rows1 ++ rows2) =
  checkpoint_marks t c rows1 ++ checkpoint_marks t (checkpoint_counter t c rows1) rows2.
Proof.
  revert c. induction rows1 as [|[changed df] rows1 IH]; intros c; simpl; [done|].
  destruct changed; [destruct (t <=? c + 1)|]; simpl; by rewrite IH.
Qed.

Lemma checkpoint_counter_app t c rows1 rows2 :
  checkpoint_counter t c (rows1 ++ rows2) =
  checkpoint_counter t (checkpoint_counter t c rows1) rows2.
Proof.
  revert c. induction rows1 as [|[changed df] rows1 IH]; intros c; simpl; [done|].
  destruct changed; [destruct (t <=? c + 1)|]; by rewrite IH.
Qed.

Lemma flush_counts_app seen ms1 ms2 :
  flush_counts seen (ms1 ++ ms2) =
  flush_counts seen ms1 ++ flush_counts (seen + changed_rows ms1) ms2.
Proof.
  revert seen. induction ms1 as [|[[] df|df] ms1 IH]; intros seen; simpl.
  - by rewrite Nat.add_0_r.
  - rewrite IH. unfold changed_rows. simpl. do 2 f_equal. lia.
  - apply IH.
  - rewrite IH. done.
Qed.

Lemma changed_rows_app ms1 ms2 :
  changed_rows (ms1 ++ ms2) = (changed_rows ms1 + changed_rows ms2)%nat.
Proof. unfold changed_rows. by rewrite List.filter_app, length_app. Qed.

(** The rule of the checkpoint flushes at the counts [flush_points] lists. *)
Lemma flush_counts_checkpoint_marks t c seen rows :
  flush_counts seen (checkpoint_marks t c rows) =
  flush_points t c seen (changed_rows (checkpoint_marks t c rows)).
Proof.
  revert c seen. induction rows as [|[changed df] rows IH]; intros c seen; simpl; [done|].
  destruct changed.
  - destruct (t <=? c + 1) eqn:Hle; unfold changed_rows; simpl; rewrite Hle;
      fold (changed_rows (checkpoint_marks t 0 rows));
      fold (changed_rows (checkpoint_marks t (c + 1) rows));
      by rewrite IH.
  - unfold changed_rows; simpl. apply IH.
Qed.

Lemma flush_counter_checkpoint_marks t c rows :
  checkpoint_counter t c rows =
  flush_counter t c (changed_rows (checkpoint_marks t c rows)).
Proof.
  revert c. induction rows as [|[changed df] rows IH]; intros c; simpl; [done|].
  destruct changed.
  - destruct (t <=? c + 1) eqn:Hle; unfold changed_rows; simpl; rewrite Hle;
      fold (changed_rows (checkpoint_marks t 0 rows));
      fold (changed_rows (checkpoint_marks t (c + 1) rows));
      by rewrite IH.
  - unfold changed_rows; simpl. apply IH.
Qed.

Lemma flushes_follow_checkpoint_marks t c prev rows :
  flushes_follow_rows prev (checkpoint_marks t c rows).
Proof.
  revert c prev. induction rows as [|[changed df] rows IH]; intros c prev; simpl; [done|].
  destruct changed; [destruct (t <=? c + 1)|]; simpl; auto.
Qed.

Lemma flush_counts_length seen ms :
  length (flush_counts seen ms) = length (List.filter is_flush ms).
Proof.
  revert seen. induction ms as [|[[] df|df] ms IH]; intros seen; simpl; auto.
Qed.

Section Checkpoints.

Context {W : Type} {env : Env W} {lib : PyLib}.
Variable cfg : Config.

Implicit Types (w : W) (df : list Row) (st : LoopState).

Lemma sat_run {A} (P : event → Prop) (Q : A → Prop) E (m : M A) w a w' l :
  sat P Q E m → m w = (Ok a, w', l) → Forall P l ∧ Q a.
Proof. intros Hs Hrun. specialize (Hs w). by rewrite Hrun in Hs. Qed.

Lemma bind_ok_inv {A B} (m : M (W:=W) A) (f : A → M B) w b w' l :
  (m ≫= f) w = (Ok b, w', l) →
  ∃ a w1 l1 l2, m w = (Ok a, w1, l1) ∧ f a w1 = (Ok b, w', l2) ∧ l = l1 ++ l2.
Proof.
  rewrite bind_run.
  destruct (m w) as [[[a|e|] w1] l1]; try done.
  destruct (f a w1) as [[o2 w2] l2] eqn:Hf. unfold prepend.
  intros [= -> -> <-]. by exists a, w1, l1, l2.
Qed.

(** A checkpoint that returns has persisted the frame exactly when the
    rule says so. *)
Lemma checkpoint_run i df c changed w c' w' l :
  checkpoint cfg df c changed w = (Ok c', w', l) →
  marks (EvRowEnd i changed df :: l) =
    checkpoint_marks (CHECKPOINT_EVERY_SUCCESS cfg) c [(changed, df)]
  ∧ c' = checkpoint_counter (CHECKPOINT_EVERY_SUCCESS cfg) c [(changed, df)].
Proof.
  unfold checkpoint. simpl.
  destruct changed; [|by intros [= <- _ <-]].
  destruct (CHECKPOINT_EVERY_SUCCESS cfg <=? c + 1); [|by intros [= <- _ <-]].
  rewrite bind_run, try_run. unfold write_back. rewrite bind_run.
  unfold emit at 1. cbn [prepend]. rewrite bind_run.
  destruct (env_write df w) as [[] w1]; cbn.
  - by intros [= <- _ <-].
  - done.
Qed.

End Checkpoints.

Section Frames.

Context {W : Type} {env : Env W} {lib : PyLib}.
Variable cfg : Config.

Implicit Types (w : W) (df : list Row) (st : LoopState).

(** The frame keeps its rows: the work on a row only fills cells in. *)
Lemma statement_part_frame i mid resolver df csrf :
  sat (W:=W) is_row_work (λ r, length r.1.1 = length df) (λ _, True)
    (statement_part i mid resolver df csrf).
Proof.
  unfold statement_part.
  apply (sat_try _ _ (λ _, True)).
  - destruct (_ && _).
    + eapply (sat_bind _ (λ _, True)); [apply sat_ensure_statement|].
      intros [[status cid] csrf'] _. apply sat_ret. simpl. apply df_set_length.
    + apply sat_ret. simpl. apply df_set_length.
  - intros e _. destruct (caught_message e); [|by apply sat_raise].
    apply sat_ret. simpl. apply df_set_length.
Qed.

Lemma captions_failed_frame (P : event → Prop) i df changed opened e n :
  length df = n →
  sat (W:=W) P (λ r, length r.1.1 = n) (λ _, True)
    (captions_failed i df changed opened e).
Proof.
  intros <-. unfold captions_failed.
  destruct (caught_message e); [|by apply sat_raise].
  apply sat_ret. simpl. by rewrite !df_set_if_empty_length.
Qed.

Lemma caption_lang_frame set lang i mid candidate csrf labels df changed n :
  length df = n →
  sat (W:=W) is_row_work (λ r, length r.1 = n) (λ _, True)
    (caption_lang set lang i mid candidate csrf labels df changed).
Proof.
  intros <-. unfold caption_lang.
  destruct (labels !! lang).
  - apply sat_ret. simpl. apply df_set_length.
  - eapply (sat_bind _ (λ _, True)).
    + unfold set_label. row_auto.
    + intros j _. apply sat_ret. simpl. apply df_set_length.
Qed.

Lemma captions_nl_frame i mid candidate csrf labels df changed opened n :
  length df = n →
  sat (W:=W) is_row_work (λ r, length r.1.1 = n) (λ _, True)
    (captions_nl cfg i mid candidate csrf labels df changed opened).
Proof.
  intros Hn. unfold captions_nl.
  apply (sat_try _ _ (λ _, True)); [|intros e _; by apply captions_failed_frame].
  eapply sat_bind; [by apply caption_lang_frame|].
  intros [df1 ch1] Hlen. simpl in Hlen.
  destruct (_ && _ && _).
  - eapply (sat_bind _ (λ _, True)).
    + unfold open_page_in_browser. row_auto.
    + intros [] _. by apply sat_ret.
  - by apply sat_ret.
Qed.

Lemma captions_langs_frame i mid candidate csrf labels df changed opened n :
  length df = n →
  sat (W:=W) is_row_work (λ r, length r.1.1 = n) (λ _, True)
    (captions_langs cfg i mid candidate csrf labels df changed opened).
Proof.
  intros Hn. unfold captions_langs.
  apply (sat_try _ _ (λ _, True)); [|intros e _; by apply captions_failed_frame].
  eapply sat_bind; [by apply caption_lang_frame|].
  intros [df1 ch1] Hlen. simpl in Hlen.
  by apply captions_nl_frame.
Qed.

Lemma captions_part_frame i mid pageid live_title csrf df changed opened :
  sat (W:=W) is_row_work (λ r, length r.1.1 = length df) (λ _, True)
    (captions_part cfg i mid pageid live_title csrf df changed opened).
Proof.
  unfold captions_part.
  apply (sat_try _ _ (λ _, True)); [|intros e _; by apply captions_failed_frame].
  eapply (sat_bind _ (λ _, True)).
  { destruct pageid as [n|]; [destruct (n =? 0)|]; row_auto. }
  intros pid _.
  eapply (sat_bind _ (λ _, True)).
  { destruct live_title as [t|]; [by apply sat_ret|].
    eapply (sat_bind _ (λ _, True)); [apply sat_get_live_file_title|].
    intros [t|] _; row_auto. }
  intros t _. cbv zeta.
  apply (sat_try _ _ (λ _, True));
    [|intros e _; apply captions_failed_frame; apply df_set_length].
  destruct (Py.is_empty _).
  - apply sat_ret. simpl.
    by rewrite !df_set_if_empty_length, df_set_length.
  - eapply (sat_bind _ (λ _, True)).
    + unfold get_existing_labels. row_auto.
    + intros labels _. apply captions_langs_frame, df_set_length.
Qed.

End Frames.

Section Orchestration.

Context {W : Type} {env : Env W} {lib : PyLib}.
Variable cfg : Config.

Implicit Types (w : W) (df : list Row) (st : LoopState).

(** A row that is worked to its end leaves the marks of the checkpoint
    rule: none if the URL has no MID, else its own end and, when the
    counter reaches the threshold, the persist call. *)
Lemma process_row_marks i row st w st' w' l :
  process_row cfg i row st w = (Ok st', w', l) →
  ∃ rows,
    marks l = checkpoint_marks (CHECKPOINT_EVERY_SUCCESS cfg)
                (ls_success_since_flush st) rows
    ∧ ls_success_since_flush st' =
        checkpoint_counter (CHECKPOINT_EVERY_SUCCESS cfg)
          (ls_success_since_flush st) rows
    ∧ Forall (λ r, length r.2 = length (ls_df st)) rows
    ∧ length (ls_df st') = length (ls_df st).
Proof.
  unfold process_row. destruct (extract_mid (URL row)) as [mid|].
  - intros Hrun.
    apply bind_ok_inv in Hrun as (pageid & w1 & l1 & l1' & Hpid & Hrun & ->).
    apply bind_ok_inv in Hrun as (title & w2 & l2 & l2' & Htitle & Hrun & ->).
    apply bind_ok_inv in Hrun as ([[df1 csrf1] ch1] & w3 & l3 & l3' & Hstmt & Hrun & ->).
    apply bind_ok_inv in Hrun as ([[df2 ch2] op2] & w4 & l4 & l4' & Hcap & Hrun & ->).
    apply bind_ok_inv in Hrun as ([] & w5 & l5 & l5' & Hend & Hrun & ->).
    apply bind_ok_inv in Hrun as (ssf & w6 & l6 & l6' & Hcp & Hrun & ->).
    apply bind_ok_inv in Hrun as ([] & w7 & l7 & l7' & Hsleep & Hrun & ->).
    injection Hrun as <- _ <-. injection Hend as _ <-.
    assert (Forall is_row_work l1) as H1.
    { eapply (sat_run is_row_work (λ _, True) (λ _, True)); [|exact Hpid].
      destruct (pageid_from_mid mid); row_auto. }
    assert (Forall is_row_work l2) as H2.
    { eapply (sat_run is_row_work (λ _, True) (λ _, True)); [|exact Htitle].
      destruct pageid as [n|]; [destruct (n =? 0)|];
        first [apply sat_get_live_file_title | by apply sat_ret]. }
    destruct (sat_run _ _ _ _ _ _ _ _ (statement_part_frame _ _ _ _ _) Hstmt)
      as [H3 Hlen1].
    destruct (sat_run _ _ _ _ _ _ _ _ (captions_part_frame cfg _ _ _ _ _ _ _ _) Hcap)
      as [H4 Hlen2].
    assert (Forall is_row_work l7) as H7.
    { eapply (sat_run is_row_work (λ _, True) (λ _, True)); [|exact Hsleep].
      destruct (Qlt_le_dec 0 (SLEEP_BETWEEN cfg)); row_auto. }
    destruct (checkpoint_run cfg i _ _ _ _ _ _ _ Hcp) as [Hmarks Hssf].
    simpl in Hlen1, Hlen2.
    exists [(ch2, df2)].
    rewrite !marks_app, (marks_row_work l1 H1), (marks_row_work l2 H2),
      (marks_row_work l3 H3), (marks_row_work l4 H4), (marks_row_work l7 H7).
    simpl app. rewrite app_nil_r.
    split; [exact Hmarks|]. split; [exact Hssf|].
    split; [|simpl; congruence].
    constructor; [simpl; congruence | constructor].
  - intros [= <- _ <-]. exists []. simpl.
    by rewrite !df_set_if_empty_length, df_set_length.
Qed.

Lemma main_loop_marks work st w st' w' l :
  main_loop cfg work st w = (Ok st', w', l) →
  ∃ rows,
    marks l = checkpoint_marks (CHECKPOINT_EVERY_SUCCESS cfg)
                (ls_success_since_flush st) rows
    ∧ ls_success_since_flush st' =
        checkpoint_counter (CHECKPOINT_EVERY_SUCCESS cfg)
          (ls_success_since_flush st) rows
    ∧ Forall (λ r, length r.2 = length (ls_df st)) rows
    ∧ length (ls_df st') = length (ls_df st).
Proof.
  revert st w l. induction work as [|[i row] work IH]; intros st w l; simpl.
  - intros [= <- _ <-]. by exists [].
  - intros Hrun.
    apply bind_ok_inv in Hrun as (st1 & w1 & l1 & l2 & Hrow & Hrest & ->).
    apply process_row_marks in Hrow as (rows1 & Hm1 & Hc1 & Hf1 & Hlen1).
    apply IH in Hrest as (rows2 & Hm2 & Hc2 & Hf2 & Hlen2).
    exists (rows1 ++ rows2).
    rewrite marks_app, checkpoint_marks_app, checkpoint_counter_app, Hm1, Hm2, Hc2,
      Hc1, Hlen2, Hlen1.
    repeat split; try done.
    apply Forall_app. split; [done|].
    eapply Forall_impl; [exact Hf2|]. intros r Hr. simpl in Hr. congruence.
Qed.

(** A run of [main] that ends leaves the marks of the rule, then the
    final persist call with the frame it returns. *)
Lemma main_rows_marks df work csrf w dfN w' evs :
  main_rows cfg df work csrf w = (Ok dfN, w', evs) →
  ∃ rows st,
    marks evs = checkpoint_marks (CHECKPOINT_EVERY_SUCCESS cfg) 0 rows
                ++ [FlushMark dfN]
    ∧ dfN = ls_df st
    ∧ ls_success_since_flush st =
        checkpoint_counter (CHECKPOINT_EVERY_SUCCESS cfg) 0 rows
    ∧ Forall (λ r, length r.2 = length df) rows
    ∧ length dfN = length df.
Proof.
  unfold main_rows. intros Hrun.
  apply bind_ok_inv in Hrun as (st & w1 & l1 & l2 & Hloop & Hrun & ->).
  apply bind_ok_inv in Hrun as ([] & w2 & l3 & l4 & Hwb & Hrun & ->).
  injection Hrun as <- _ <-.
  apply main_loop_marks in Hloop as (rows & Hm & Hc & Hf & Hlen). simpl in *.
  exists rows, st. rewrite marks_app, Hm. repeat split; try done.
  f_equal. revert Hwb. unfold write_back. rewrite bind_run.
  unfold emit at 1. cbn [prepend]. rewrite bind_run.
  destruct (env_write (ls_df st) w1) as [[] w3]; cbn; [|done].
  by intros [= _ <-].
Qed.

(** The final write-back is made whatever the counter is, and whether
    or not the workbook can be written. *)
Lemma main_rows_events df work csrf w st w1 evl :
  main_loop cfg work (mkLoop df csrf 0 0) w = (Ok st, w1, evl) →
  (main_rows cfg df work csrf w).2 = evl ++ [EvWriteBack (ls_df st)].
Proof.
  intros Hloop. unfold main_rows. rewrite bind_run, Hloop. cbn [prepend].
  rewrite bind_run. unfold write_back. rewrite bind_run.
  unfold emit at 1. cbn [prepend]. rewrite bind_run.
  by destruct (env_write (ls_df st) w1) as [[] w3].
Qed.

(** C7.  With the threshold 3, when the loop of [main] comes to its end
    and seven rows ended with a change, [write_back] is called three
    times: twice in the loop, at the end of the third and of the sixth of
    these rows, with the frame as that row left it, the counter starting
    again from zero each time (so it ends at one); and once after the
    loop, with the frame the loop ends with.  Every frame passed has all
    the rows of the sheet. *)
Theorem seven_changed_rows_three_write_backs df work csrf w st w1 evl :
  CHECKPOINT_EVERY_SUCCESS cfg = 3 →
  main_loop cfg work (mkLoop df csrf 0 0) w = (Ok st, w1, evl) →
  changed_rows (marks evl) = 7%nat →
  let evs := (main_rows cfg df work csrf w).2 in
  evs = evl ++ [EvWriteBack (ls_df st)]
  ∧ flush_counts 0 (marks evl) = [3; 6]%nat
  ∧ flushes_follow_rows None (marks evl)
  ∧ ls_success_since_flush st = 1
  ∧ flush_counts 0 (marks evs) = [3; 6; 7]%nat
  ∧ length (List.filter is_flush (marks evs)) = 3%nat
  ∧ Forall (λ m, length (frame_of m) = length df) (marks evs).
Proof.
  intros Hcfg Hloop Hseven evs.
  pose proof (main_rows_events _ _ _ _ _ _ _ Hloop) as Hevs. fold evs in Hevs.
  apply main_loop_marks in Hloop as (rows & Hm & Hc & Hf & Hlen).
  rewrite Hcfg in Hm, Hc. simpl in Hm, Hc, Hf, Hlen.
  assert (flush_counts 0 (marks evl) = [3; 6]%nat) as Hloopflush.
  { rewrite Hm, flush_counts_checkpoint_marks, <- Hm, Hseven. reflexivity. }
  assert (flush_counts 0 (marks evs) = [3; 6; 7]%nat) as Hall.
  { rewrite Hevs, marks_app, flush_counts_app, Hloopflush, Hseven. reflexivity. }
  split; [exact Hevs|]. split; [exact Hloopflush|].
  split; [rewrite Hm; apply flushes_follow_checkpoint_marks|].
  split; [rewrite Hc, flush_counter_checkpoint_marks, <- Hm, Hseven; reflexivity|].
  split; [exact Hall|].
  split; [by rewrite <- flush_counts_length with (seen := 0%nat), Hall|].
  rewrite Hevs, marks_app. apply Forall_app. split.
  - rewrite Hm. clear -Hf. generalize 0 at 1.
    induction Hf as [|[changed df1] rows Hr _ IH]; intros c; simpl; [constructor|].
    simpl in Hr.
    destruct changed; [destruct (3 <=? c + 1)|]; repeat constructor; auto.
  - repeat constructor. exact Hlen.
Qed.

End Orchestration.

Lemma sheet_run_ends : sheet_run = (Ok sheet_state, sheet_run.1.2, sheet_run.2).
Proof.
  assert (is_ok sheet_run.1.1 = true) as Hok by (vm_compute; reflexivity).
  unfold sheet_state. by destruct sheet_run as [[[st|e|] w] l].
Qed.

Lemma seven_changed_rows_three_write_backs_witness :
  sheet_run = (Ok sheet_state, sheet_run.1.2, sheet_run.2)
  ∧ changed_rows (marks sheet_run.2) = 7%nat
  ∧ let evs := (main_rows (lib := sample_lib) checkpoint_3 sheet sheet_work "tok"
                  wiki_sheet).2 in
    evs = sheet_run.2 ++ [EvWriteBack (ls_df sheet_state)]
    ∧ flush_counts 0 (marks sheet_run.2) = [3; 6]%nat
    ∧ flushes_follow_rows None (marks sheet_run.2)
    ∧ ls_success_since_flush sheet_state = 1
    ∧ flush_counts 0 (marks evs) = [3; 6; 7]%nat
    ∧ length (List.filter is_flush (marks evs)) = 3%nat
    ∧ Forall (λ m, length (frame_of m) = length sheet) (marks evs).
Proof.
  split; [exact sheet_run_ends|].
  split; [vm_compute; reflexivity|].
  apply (seven_changed_rows_three_write_backs (env := wiki_env) (lib := sample_lib)
           checkpoint_3 sheet sheet_work "tok" wiki_sheet
           sheet_state sheet_run.1.2 sheet_run.2).
  - reflexivity.
  - exact sheet_run_ends.
  - vm_compute; reflexivity.
Defined.

(* ===================================================================== *)
(** ** Patterns and their language *)
(* ===================================================================== *)

Lemma string_app_cons c s t : String c s +:+ t = String c (s +:+ t).
Proof. reflexivity. Qed.

Lemma string_app_nil_l s : "" +:+ s = s.
Proof. reflexivity. Qed.

(** Unfolds the appends whose left side is known. *)
Ltac string_simpl := rewrite ?string_app_cons, ?string_app_nil_l.
Ltac string_simpl_in H := rewrite ?string_app_cons, ?string_app_nil_l in H.

Lemma string_app_nil_r s : s +:+ "" = s.
Proof. induction s as [|c s IH]; [done|]. string_simpl. by rewrite IH. Qed.

Lemma string_app_assoc s1 s2 s3 : (s1 +:+ s2) +:+ s3 = s1 +:+ (s2 +:+ s3).
Proof. induction s1 as [|c s1 IH]; [done|]. string_simpl. by rewrite IH. Qed.

Lemma string_app_length s1 s2 :
  String.length (s1 +:+ s2) = (String.length s1 + String.length s2)%nat.
Proof. induction s1 as [|c s1 IH]; [done|]. string_simpl. simpl. by rewrite IH. Qed.

Lemma string_app_empty s1 s2 : s1 +:+ s2 = "" → s1 = "" ∧ s2 = "".
Proof. by destruct s1. Qed.

Lemma nullable_spec r : Re.nullable r = true ↔ re_matches r "".
Proof.
  split.
  - induction r as [| |p|r1 IH1 r2 IH2|r1 IH1 r2 IH2|r IH]; simpl; try done.
    + intros _. constructor.
    + intros [H1 H2]%andb_true_iff. apply (MatchSeq r1 r2 "" ""); auto.
    + intros [H|H]%orb_true_iff; [apply MatchAltL | apply MatchAltR]; auto.
    + intros _. constructor.
  - intros H. remember "" as s eqn:Hs.
    induction H as [|p c Hp|r1 r2 s1 s2 _ IH1 _ IH2|r1 r2 s _ IH|r1 r2 s _ IH|r
                    |r s1 s2 _ _ _ _]; simpl; try done.
    + apply string_app_empty in Hs as [-> ->]. by rewrite IH1, IH2.
    + by rewrite IH.
    + rewrite IH by done. by rewrite orb_true_r.
Qed.

Lemma deriv_sound c r s : re_matches (Re.deriv c r) s → re_matches r (String c s).
Proof.
  revert s.
  induction r as [| |p|r1 IH1 r2 IH2|r1 IH1 r2 IH2|r IH]; intros s; simpl.
  - inversion 1.
  - inversion 1.
  - destruct (p c) eqn:Hp; inversion 1; subst. by constructor.
  - destruct (Re.nullable r1) eqn:Hn.
    + inversion 1 as [| | | ? ? ? Hl | ? ? ? Hr | |]; subst.
      * inversion Hl as [| |? ? s1 s2 H1 H2| | | |]; subst.
        apply (MatchSeq r1 r2 (String c s1) s2); auto.
      * apply (MatchSeq r1 r2 "" (String c s)); [by apply nullable_spec | auto].
    + inversion 1 as [| |? ? s1 s2 H1 H2| | | |]; subst.
      apply (MatchSeq r1 r2 (String c s1) s2); auto.
  - inversion 1; subst; [apply MatchAltL | apply MatchAltR]; auto.
  - inversion 1 as [| |? ? s1 s2 H1 H2| | | |]; subst.
    apply (MatchStarApp r (String c s1) s2); auto.
Qed.

Lemma deriv_complete c r s : re_matches r (String c s) → re_matches (Re.deriv c r) s.
Proof.
  intros H. remember (String c s) as s0 eqn:Hs. revert s Hs.
  induction H as [|p c0 Hp|r1 r2 s1 s2 H1 IH1 H2 IH2|r1 r2 s0 _ IH|r1 r2 s0 _ IH|r
                  |r s1 s2 H1 IH1 H2 IH2]; intros s Hs; simpl; try done.
  - injection Hs as -> <-. rewrite Hp. constructor.
  - destruct s1 as [|c1 s1]; string_simpl_in Hs.
    + subst s2. apply nullable_spec in H1. rewrite H1.
      apply MatchAltR. by apply IH2.
    + injection Hs as -> <-.
      destruct (Re.nullable r1); [apply MatchAltL|]; constructor; auto.
  - apply MatchAltL. auto.
  - apply MatchAltR. auto.
  - destruct s1 as [|c1 s1]; string_simpl_in Hs.
    + by apply IH2.
    + injection Hs as -> <-. constructor; auto.
Qed.

(** [Re.fullmatch] decides the language of the pattern. *)
Lemma fullmatch_spec r s : Re.fullmatch r s = true ↔ re_matches r s.
Proof.
  revert r. induction s as [|c s IH]; intros r; simpl.
  - apply nullable_spec.
  - rewrite IH. split; [apply deriv_sound | apply deriv_complete].
Qed.

Lemma matches_seq_inv r1 r2 s :
  re_matches (Re.Seq r1 r2) s →
  ∃ s1 s2, s = s1 +:+ s2 ∧ re_matches r1 s1 ∧ re_matches r2 s2.
Proof. inversion 1; subst; eauto. Qed.

Lemma matches_sym_inv p s :
  re_matches (Re.Sym p) s → ∃ c, s = String c "" ∧ p c = true.
Proof. inversion 1; subst; eauto. Qed.

Lemma matches_star_sym p s :
  re_matches (Re.Star (Re.Sym p)) s ↔ all_chars p s = true.
Proof.
  split.
  - intros H. remember (Re.Star (Re.Sym p)) as r eqn:Hr.
    induction H as [| | | | | |r s1 s2 H1 _ _ IH2]; try done.
    injection Hr as ->. apply matches_sym_inv in H1 as (c & -> & Hc).
    string_simpl. simpl. by rewrite Hc, IH2.
  - induction s as [|c s IH]; simpl; [constructor|].
    intros [Hc Hs]%andb_true_iff.
    apply (MatchStarApp _ (String c "") s); [by constructor | auto].
Qed.

Lemma matches_plus_sym p s :
  re_matches (Re.plus (Re.Sym p)) s ↔ (s ≠ "" ∧ all_chars p s = true).
Proof.
  unfold Re.plus. split.
  - intros (s1 & s2 & -> & H1 & H2)%matches_seq_inv.
    apply matches_sym_inv in H1 as (c & -> & Hc).
    apply matches_star_sym in H2. string_simpl. simpl. by rewrite Hc, H2.
  - intros [Hne Hs]. destruct s as [|c s]; [done|]. simpl in Hs.
    apply andb_true_iff in Hs as [Hc Hs].
    apply (MatchSeq _ _ (String c "") s); [by constructor | by apply matches_star_sym].
Qed.

Lemma all_chars_app p s1 s2 :
  all_chars p (s1 +:+ s2) = all_chars p s1 && all_chars p s2.
Proof. induction s1 as [|c s1 IH]; [done|]. string_simpl. simpl. by rewrite IH, andb_assoc. Qed.

(** A search anchored at the end: the first position from which the rest
    of the text matches. *)
Lemma search_end_spec r s i :
  Re.search_end r s = Some i ↔
  ((i <= String.length s)%nat ∧ re_matches r (Py.drop i s)
   ∧ ∀ j, (j < i)%nat → ¬ re_matches r (Py.drop j s)).
Proof.
  revert i. induction s as [|c s IH]; intros i; simpl.
  - destruct (Re.nullable r) eqn:Hn.
    + split.
      * intros [= <-]. split; [lia|]. split; [by apply nullable_spec | lia].
      * intros (Hi & _ & _). f_equal. lia.
    + split; [done|]. intros (Hi & Hm & _).
      assert (i = 0%nat) as -> by lia. simpl in Hm.
      apply nullable_spec in Hm. congruence.
  - destruct (Re.fullmatch (Re.deriv c r) s) eqn:Hf.
    + assert (re_matches r (String c s)) as Hm.
      { apply (fullmatch_spec r (String c s)). exact Hf. }
      split.
      * intros [= <-]. split; [lia|]. split; [done | lia].
      * intros (_ & _ & Hmin). destruct i as [|i]; [done|].
        destruct (Hmin 0%nat); [lia | done].
    + assert (¬ re_matches r (String c s)) as Hm.
      { intros Hm. apply (fullmatch_spec r (String c s)) in Hm. simpl in Hm. congruence. }
      destruct (Re.search_end r s) as [k|] eqn:Hk; simpl.
      * split.
        -- intros [= <-]. destruct (proj1 (IH k) eq_refl) as (Hk' & Hmk & Hmin).
           split; [lia|]. split; [done|].
           intros [|j] Hj; [done|]. simpl. apply Hmin. lia.
        -- intros (Hi & Hmi & Hmin). destruct i as [|i]; [done|].
           assert (Some k = Some i) as [= ->]; [|done].
           apply IH. split; [lia|]. split; [done|].
           intros j Hj. apply (Hmin (S j)). lia.
      * split; [done|]. intros (Hi & Hmi & Hmin). destruct i as [|i]; [done|].
        assert (None = Some i) as Hsome; [|done].
        apply IH. split; [lia|]. split; [done|].
        intros j Hj. apply (Hmin (S j)). lia.
Qed.

(* ===================================================================== *)
(** ** MediaInfo IDs *)
(* ===================================================================== *)

Ltac by_cases_on_char c :=
  destruct c as [[] [] [] [] [] [] [] []]; try done; vm_compute; auto.

Lemma isdigit_not_space c : Py.isdigit c = true → Py.isspace c = false.
Proof. by_cases_on_char c. Qed.

Lemma isdigit_upper c : Py.isdigit c = true → Py.upper_char c = c.
Proof. by_cases_on_char c. Qed.

Lemma letter_m_upper c :
  Ascii.eqb (Py.lower_char c) (Py.lower_char "M") = true →
  Py.upper_char c = "M"%char ∧ Py.isspace c = false.
Proof. by_cases_on_char c. Qed.

Lemma one_of_Mm c :
  existsb (Ascii.eqb c) (list_ascii_of_string "Mm") = true →
  Py.upper_char c = "M"%char ∧ Py.isspace c = false.
Proof. by_cases_on_char c. Qed.

Lemma one_of_seps_not_digit c :
  existsb (Ascii.eqb c) (list_ascii_of_string "/?#") = true → Py.isdigit c = false.
Proof. by_cases_on_char c. Qed.

Lemma upper_digits ds : all_chars Py.isdigit ds = true → Py.upper ds = ds.
Proof.
  induction ds as [|c ds IH]; [done|]. simpl.
  intros [Hc Hds]%andb_true_iff. unfold Py.upper in *. simpl.
  by rewrite (isdigit_upper c Hc), IH.
Qed.

(** A text without white space at either end is its own [strip]. *)
Lemma lstrip_headed_id c s : Py.isspace c = false → Py.lstrip (String c s) = String c s.
Proof. intros Hc. simpl. by rewrite Hc. Qed.

Lemma rstrip_digits ds : all_chars Py.isdigit ds = true → Py.rstrip ds = ds.
Proof.
  induction ds as [|c ds IH]; [done|]. simpl.
  intros [Hc Hds]%andb_true_iff. rewrite IH by done.
  destruct ds; [by rewrite (isdigit_not_space c Hc) | done].
Qed.

Lemma strip_digits ds : all_chars Py.isdigit ds = true → Py.strip ds = ds.
Proof.
  intros Hds. unfold Py.strip. destruct ds as [|c ds]; [done|].
  pose proof Hds as Hds'. simpl in Hds'. apply andb_true_iff in Hds' as [Hc _].
  rewrite (lstrip_headed_id c ds (isdigit_not_space c Hc)). by apply rstrip_digits.
Qed.

Lemma strip_letter_digits m ds :
  Py.isspace m = false → all_chars Py.isdigit ds = true →
  Py.strip (String m ds) = String m ds.
Proof.
  intros Hm Hds. unfold Py.strip. rewrite (lstrip_headed_id m ds Hm).
  simpl. rewrite (rstrip_digits ds Hds). destruct ds; [by rewrite Hm | done].
Qed.

(** The digits at the start of a text that goes on with something else. *)
Lemma digit_run_app ds tail :
  all_chars Py.isdigit ds = true →
  match tail with
  | EmptyString => True
  | String c _ => Py.isdigit c = false
  end →
  digit_run (ds +:+ tail) = ds.
Proof.
  intros Hds Htail. induction ds as [|c ds IH]; string_simpl.
  - destruct tail as [|c t]; [done|]. simpl. by rewrite Htail.
  - simpl in Hds |- *. apply andb_true_iff in Hds as [Hc Hds]. by rewrite Hc, IH.
Qed.

(** [int] of decimal digits. *)
Lemma int_digits_digits ds acc :
  all_chars Py.isdigit ds = true → 0 <= acc →
  ∃ n, Dyn.int_digits ds acc true = Some n ∧ 0 <= n.
Proof.
  revert acc. induction ds as [|c ds IH]; intros acc Hds Hacc; simpl.
  - by exists acc.
  - simpl in Hds. apply andb_true_iff in Hds as [Hc Hds]. rewrite Hc.
    apply IH; [done|].
    assert (48 <= Z.of_N (Py.code c)); [|lia].
    unfold Py.isdigit in Hc. apply andb_true_iff in Hc as [Hc _].
    apply N.leb_le in Hc. lia.
Qed.

Lemma int_of_str_digits ds :
  ds ≠ "" → all_chars Py.isdigit ds = true →
  ∃ n, Dyn.int_of_str ds = Some n ∧ 0 <= n.
Proof.
  intros Hne Hds. unfold Dyn.int_of_str. rewrite (strip_digits ds Hds).
  destruct ds as [|c ds]; [done|].
  pose proof Hds as Hds'. simpl in Hds'. apply andb_true_iff in Hds' as [Hc Hds'].
  assert (Dyn.int_digits (String c ds) 0 false = Dyn.int_digits (String c ds) 0 true)
    as Hflag by (simpl; by rewrite Hc).
  assert (∃ n, Dyn.int_digits (String c ds) 0 false = Some n ∧ 0 <= n) as Hn.
  { rewrite Hflag. by apply int_digits_digits. }
  by destruct c as [[] [] [] [] [] [] [] []].
Qed.

(** The texts of the shape [[Mm]\d+]. *)
Lemma mid_shape_spec s :
  Re.fullmatch MID_SHAPE s = true ↔
  ∃ m ds, s = String m ds
          ∧ existsb (Ascii.eqb m) (list_ascii_of_string "Mm") = true
          ∧ ds ≠ "" ∧ all_chars Py.isdigit ds = true.
Proof.
  rewrite fullmatch_spec. unfold MID_SHAPE. split.
  - intros (s1 & s2 & -> & H1 & H2)%matches_seq_inv.
    apply matches_sym_inv in H1 as (m & -> & Hm).
    apply matches_plus_sym in H2 as [Hne Hds]. by exists m, s2.
  - intros (m & ds & -> & Hm & Hne & Hds).
    apply (MatchSeq _ _ (String m "") ds); [by constructor|].
    by apply matches_plus_sym.
Qed.

(** The texts [MID_RE] matches from their start: a slash, the letter, the
    digits, and then nothing or one of [/ ? #] and the rest. *)
Lemma mid_re_inv s :
  re_matches MID_RE s →
  ∃ m ds tail,
    s = String "/" (String m (ds +:+ tail))
    ∧ Ascii.eqb (Py.lower_char m) (Py.lower_char "M") = true
    ∧ ds ≠ "" ∧ all_chars Py.isdigit ds = true
    ∧ match tail with
      | EmptyString => True
      | String c _ => Py.isdigit c = false
      end.
Proof.
  unfold MID_RE. intros (s1 & s2 & -> & H1 & H2)%matches_seq_inv.
  apply matches_sym_inv in H1 as (c & -> & Hc).
  apply Ascii.eqb_eq in Hc as <-.
  apply matches_seq_inv in H2 as (s3 & tail & -> & H3 & H4).
  apply matches_seq_inv in H3 as (s5 & ds & -> & H5 & H6).
  apply matches_sym_inv in H5 as (m & -> & Hm).
  apply matches_plus_sym in H6 as [Hne Hds].
  exists m, ds, tail. repeat split; try done.
  unfold Re.opt in H4. inversion H4 as [| | |? ? ? Hl|? ? ? Hr| |]; subst.
  - by inversion Hl.
  - apply matches_seq_inv in Hr as (s6 & s7 & -> & H6 & _).
    apply matches_sym_inv in H6 as (c & -> & Hc). string_simpl.
    by apply one_of_seps_not_digit.
Qed.

(** [str(n)] consists of digits, and [int] reads it back. *)
Lemma string_of_uint_digits d :
  all_chars Py.isdigit (NilEmpty.string_of_uint d) = true.
Proof. induction d; simpl; auto. Qed.

Lemma int_digits_string_of_uint d acc :
  Dyn.int_digits (NilEmpty.string_of_uint d) acc true =
  Some (acc * 10 ^ Z.of_N (Unsigned.usize d) + Z.of_N (Unsigned.of_lu (Decimal.rev d))).
Proof.
  revert acc.
  induction d as [|d IH|d IH|d IH|d IH|d IH|d IH|d IH|d IH|d IH|d IH]; intros acc;
    [simpl; f_equal; lia|..];
    unfold Decimal.rev; cbn [Decimal.revapp];
    rewrite Unsigned.of_lu_revapp; fold (Decimal.rev d);
    cbn [Unsigned.usize Unsigned.of_lu NilEmpty.string_of_uint Dyn.int_digits];
    (match goal with |- context [Py.isdigit ?c] => change (Py.isdigit c) with true end);
    cbv beta iota; rewrite IH;
    rewrite N2Z.inj_succ, Z.pow_succ_r by lia;
    rewrite N2Z.inj_add, N2Z.inj_mul, N2Z.inj_pow;
    f_equal;
    (match goal with |- context [Z.of_N (Py.code ?c)] =>
       let v := eval vm_compute in (Z.of_N (Py.code c)) in
       change (Z.of_N (Py.code c)) with v end);
    (match goal with |- context [Z.of_N (?a * ?b) ] => idtac | _ => idtac end);
    rewrite ?N2Z.inj_add, ?N2Z.inj_mul; change (Z.of_N 10) with 10;
    change (Z.of_N 0) with 0; lia.
Qed.

Lemma str_of_int_spec n :
  0 <= n →
  str_of_int n ≠ "" ∧ all_chars Py.isdigit (str_of_int n) = true
  ∧ Dyn.int_of_str (str_of_int n) = Some n.
Proof.
  intros Hn. unfold str_of_int.
  destruct n as [|p|p]; [by vm_compute | | lia].
  cbn [Z.to_int NilZero.string_of_int]. unfold NilZero.string_of_uint.
  pose proof (Unsigned.to_uint_nonnil p) as Hnil.
  assert (NilEmpty.string_of_uint (Pos.to_uint p) ≠ "") as Hne.
  { destruct (Pos.to_uint p); done. }
  assert (match Pos.to_uint p with
          | Decimal.Nil => "0"
          | _ => NilEmpty.string_of_uint (Pos.to_uint p)
          end = NilEmpty.string_of_uint (Pos.to_uint p)) as ->.
  { destruct (Pos.to_uint p); done. }
  pose proof (string_of_uint_digits (Pos.to_uint p)) as Hds.
  split; [done|]. split; [done|].
  unfold Dyn.int_of_str. rewrite (strip_digits _ Hds).
  destruct (NilEmpty.string_of_uint (Pos.to_uint p)) as [|c ds] eqn:Hs; [done|].
  pose proof Hds as Hds'. simpl in Hds'. apply andb_true_iff in Hds' as [Hc _].
  assert (Dyn.int_digits (String c ds) 0 false = Some (Z.pos p)) as Hval.
  { transitivity (Dyn.int_digits (String c ds) 0 true); [simpl; by rewrite Hc|].
    rewrite <- Hs, int_digits_string_of_uint.
    rewrite <- Unsigned.of_uint_alt, Unsigned.of_to. f_equal; lia. }
  by destruct c as [[] [] [] [] [] [] [] []].
Qed.

(** A well-formed MID is accepted as it is and gives its page id. *)
Lemma normal_mid ds :
  ds ≠ "" → all_chars Py.isdigit ds = true →
  is_mid (String "M" ds) = true
  ∧ pageid_from_mid (String "M" ds) = Dyn.int_of_str ds.
Proof.
  intros Hne Hds. unfold is_mid, pageid_from_mid.
  rewrite (strip_letter_digits "M" ds eq_refl Hds).
  assert (Re.fullmatch MID_SHAPE (String "M" ds) = true) as Hshape.
  { apply mid_shape_spec. by exists "M"%char, ds. }
  by rewrite Hshape.
Qed.

(** X1.  Whatever text [extract_mid] is given, a MID it returns is the
    letter M, in upper case, followed by one or more digits; the other
    functions accept it as a MID.  When the digits are no more than [int()]
    reads, [pageid_from_mid] reads its page id, so that the second try of
    [main] for the page id is not needed. *)
Theorem extract_mid_normalised u mid :
  extract_mid u = Some mid →
  ∃ ds, mid = String "M" ds ∧ ds ≠ "" ∧ all_chars Py.isdigit ds = true
        ∧ is_mid mid = true
        ∧ ((String.length ds <= int_max_str_digits)%nat →
           ∃ n, pageid_from_mid mid = Some n ∧ 0 <= n).
Proof.
  intros Hex.
  assert (∃ ds, mid = String "M" ds ∧ ds ≠ "" ∧ all_chars Py.isdigit ds = true)
    as (ds & -> & Hne & Hds).
  { revert Hex. unfold extract_mid.
    destruct (Py.is_empty (Py.strip u)); [done|].
    destruct (Re.search_end MID_RE (Py.strip u)) as [i|] eqn:Hsearch.
    - apply search_end_spec in Hsearch as (_ & Hm & _).
      apply mid_re_inv in Hm as (m & ds & tail & -> & Hm & Hne & Hds & Htail).
      intros [= <-]. exists ds. split; [|done].
      unfold mid_group. cbn [Py.drop]. rewrite (digit_run_app ds tail Hds Htail).
      unfold Py.upper. cbn [Py.smap]. fold Py.upper.
      by rewrite (proj1 (letter_m_upper m Hm)), (upper_digits ds Hds).
    - destruct (Re.fullmatch MID_SHAPE (Py.strip u)) eqn:Hshape; [|done].
      apply mid_shape_spec in Hshape as (m & ds & -> & Hm & Hne & Hds).
      intros [= <-]. exists ds. split; [|done].
      unfold Py.upper. cbn [Py.smap]. fold Py.upper.
      by rewrite (proj1 (one_of_Mm m Hm)), (upper_digits ds Hds). }
  exists ds. destruct (normal_mid ds Hne Hds) as [Hmid Hpage].
  repeat split; try done.
  intros _. rewrite Hpage. by apply int_of_str_digits.
Qed.

Lemma extract_mid_normalised_witness :
  extract_mid " https://commons.wikimedia.org/entity/m109018409?uselang=nl"
    = Some "M109018409"
  ∧ ∃ ds, "M109018409" = String "M" ds ∧ ds ≠ "" ∧ all_chars Py.isdigit ds = true
          ∧ is_mid "M109018409" = true
          ∧ ∃ n, pageid_from_mid "M109018409" = Some n ∧ 0 <= n.
Proof.
  split; [vm_compute; reflexivity|].
  destruct (extract_mid_normalised
              " https://commons.wikimedia.org/entity/m109018409?uselang=nl"
              "M109018409" eq_refl) as (ds & Heq & Hne & Hds & Hmid & Hpage).
  exists ds. injection Heq as <-.
  repeat split; try done.
  apply Hpage. unfold int_max_str_digits. simpl. lia.
Defined.

(** The URL of an entity page, as [main] writes it in its log. *)
Lemma entity_url_search ds :
  ds ≠ "" → all_chars Py.isdigit ds = true →
  Re.search_end MID_RE ("https://commons.wikimedia.org/entity/M" +:+ ds) = Some 36%nat.
Proof.
  intros Hne Hds. apply search_end_spec. string_simpl. split; [simpl; lia|]. split.
  - cbn [Py.drop]. unfold MID_RE.
    apply (MatchSeq _ _ "/" (String "M" ds)); [by constructor|].
    replace (String "M" ds) with (String "M" ds +:+ "") by apply string_app_nil_r.
    apply (MatchSeq _ _ (String "M" ds) ""); [|apply MatchAltL; constructor].
    apply (MatchSeq _ _ "M" ds); [by constructor | by apply matches_plus_sym].
  - intros j Hj Hm. apply mid_re_inv in Hm as (m & ds' & tail & Heq & Hm & _).
    do 36 (destruct j as [|j]; [cbn [Py.drop] in Heq; injection Heq as Heq; try done;
                                subst; by vm_compute in Hm|]).
    lia.
Qed.

(** X2.  Round trip of the identifiers: for a page id [n] that is not
    negative, the MID written as M and [str(n)] is read back to [n] by
    [pageid_from_mid]; [extract_mid] returns that MID when it is given the
    MID itself, the MID with a small m, or the URL of the entity page. *)
Theorem mid_round_trip n :
  0 <= n →
  let mid := "M" +:+ str_of_int n in
  pageid_from_mid mid = Some n
  ∧ extract_mid mid = Some mid
  ∧ extract_mid ("m" +:+ str_of_int n) = Some mid
  ∧ extract_mid ("https://commons.wikimedia.org/entity/" +:+ mid) = Some mid.
Proof.
  intros Hn mid. subst mid.
  change ("M" +:+ str_of_int n) with (String "M" (str_of_int n)).
  change ("m" +:+ str_of_int n) with (String "m" (str_of_int n)).
  destruct (str_of_int_spec n Hn) as (Hne & Hds & Hint).
  set (ds := str_of_int n) in *.
  destruct (normal_mid ds Hne Hds) as [Hmid Hpage].
  assert (∀ m, existsb (Ascii.eqb m) (list_ascii_of_string "Mm") = true →
               Py.isdigit m = false →
               extract_mid (String m ds) = Some (String "M" ds)) as Hbare.
  { intros m Hm Hnd. unfold extract_mid.
    destruct (one_of_Mm m Hm) as [Hup Hsp].
    rewrite (strip_letter_digits m ds Hsp Hds). cbn [Py.is_empty].
    destruct (Re.search_end MID_RE (String m ds)) as [i|] eqn:Hsearch.
    - exfalso. apply search_end_spec in Hsearch as (Hi & Hm' & _).
      apply mid_re_inv in Hm' as (m' & ds' & tail & Heq & _ & Hne' & Hds' & _).
      assert (all_chars (λ c, negb (Ascii.eqb c "/")) (String m ds) = true) as Hno.
      { simpl. apply andb_true_iff. split; [by destruct m as [[] [] [] [] [] [] [] []]|].
        clear -Hds. induction ds as [|c ds IH]; [done|]. simpl in *.
        apply andb_true_iff in Hds as [Hc Hds]. rewrite IH by done.
        by destruct c as [[] [] [] [] [] [] [] []]. }
      clear -Heq Hno. revert i Heq. generalize (String m ds) Hno. clear.
      intros s. induction s as [|c s IH]; intros Hno i Heq.
      + by destruct i.
      + simpl in Hno. apply andb_true_iff in Hno as [Hc Hno].
        destruct i as [|i]; cbn [Py.drop] in Heq.
        * injection Heq as -> _. done.
        * by apply (IH Hno i).
    - assert (Re.fullmatch MID_SHAPE (String m ds) = true) as ->.
      { apply mid_shape_spec. by exists m, ds. }
      unfold Py.upper. cbn [Py.smap]. fold Py.upper.
      by rewrite Hup, (upper_digits ds Hds). }
  split; [by rewrite Hpage|].
  split; [by apply Hbare|]. split; [by apply Hbare|].
  unfold extract_mid.
  assert (Py.strip ("https://commons.wikimedia.org/entity/M" +:+ ds)
          = "https://commons.wikimedia.org/entity/M" +:+ ds) as Hstrip.
  { string_simpl. unfold Py.strip. cbn [Py.lstrip]. 
    change (Py.isspace "h") with false. cbv iota.
    assert (∀ p, all_chars (λ c, negb (Py.isspace c)) p = true →
                 Py.rstrip (p +:+ ds) = p +:+ ds) as Hr.
    { induction p as [|c p IH]; string_simpl.
      - intros _. by apply rstrip_digits.
      - simpl. intros [Hc Hp]%andb_true_iff. rewrite (IH Hp).
        destruct (p +:+ ds) eqn:Hpd; [|done].
        apply string_app_empty in Hpd as [_ ->]. done. }
    apply (Hr "https://commons.wikimedia.org/entity/M"). reflexivity. }
  change ("https://commons.wikimedia.org/entity/" +:+ String "M" ds)
    with ("https://commons.wikimedia.org/entity/M" +:+ ds).
  rewrite Hstrip, (entity_url_search ds Hne Hds).
  string_simpl. cbn [Py.is_empty Py.drop]. unfold mid_group. cbn [Py.drop].
  rewrite <- (string_app_nil_r ds) at 1.
  rewrite (digit_run_app ds "" Hds I).
  unfold Py.upper. cbn [Py.smap]. fold Py.upper.
  by rewrite (upper_digits ds Hds).
Qed.

Lemma mid_round_trip_witness :
  pageid_from_mid "M109018409" = Some 109018409
  ∧ extract_mid "M109018409" = Some "M109018409"
  ∧ extract_mid "m109018409" = Some "M109018409"
  ∧ extract_mid "https://commons.wikimedia.org/entity/M109018409" = Some "M109018409".
Proof. apply (mid_round_trip 109018409). lia. Defined.

(* ===================================================================== *)
(** ** Caption candidates *)
(* ===================================================================== *)

Lemma collapse_run_length b s :
  (String.length (Py.collapse_run b s) <= String.length s)%nat.
Proof.
  revert b. induction s as [|c s IH]; intros b; simpl; [lia|].
  pose proof (IH true). pose proof (IH false).
  destruct (Py.isspace c); [destruct b|]; simpl; lia.
Qed.

Lemma collapse_run_idem b s :
  Py.collapse_run b (Py.collapse_run b s) = Py.collapse_run b s.
Proof.
  revert b. induction s as [|c s IH]; intros b; simpl; [done|].
  destruct (Py.isspace c) eqn:Hc; [destruct b|]; simpl.
  - apply IH.
  - by rewrite IH.
  - by rewrite Hc, IH.
Qed.

(** Inside a run nothing that is collapsed starts with white space. *)
Lemma collapsed_in_run s :
  Py.collapse_run true s = s → Py.lstrip s = s ∧ Py.collapse_run false s = s.
Proof.
  destruct s as [|c s]; [done|]. simpl.
  destruct (Py.isspace c) eqn:Hc; [|done].
  intros Heq. apply (f_equal String.length) in Heq. simpl in Heq.
  pose proof (collapse_run_length true s). lia.
Qed.

Lemma collapsed_lstrip s :
  Py.collapse_run false s = s → Py.collapse_run false (Py.lstrip s) = Py.lstrip s.
Proof.
  destruct s as [|c s]; [done|]. simpl.
  destruct (Py.isspace c) eqn:Hc.
  - intros [= _ Heq]. destruct (collapsed_in_run s Heq) as [-> ->]. done.
  - intros Heq. simpl. by rewrite Hc.
Qed.

Lemma collapse_run_cons b c t :
  Py.collapse_run b (String c t) =
  if Py.isspace c
  then (if b then Py.collapse_run true t else String " " (Py.collapse_run true t))
  else String c (Py.collapse_run false t).
Proof. reflexivity. Qed.

Lemma collapsed_rstrip b s :
  Py.collapse_run b s = s → Py.collapse_run b (Py.rstrip s) = Py.rstrip s.
Proof.
  revert b. induction s as [|c s IH]; intros b; [done|].
  rewrite collapse_run_cons. cbn [Py.rstrip].
  destruct (Py.isspace c) eqn:Hc.
  - destruct b.
    + intros Heq. apply (f_equal String.length) in Heq. simpl in Heq.
      pose proof (collapse_run_length true s). lia.
    + intros [= Hsp Heq]. pose proof (IH true Heq) as IHt.
      destruct (Py.rstrip s) as [|c' s']; [done|].
      rewrite collapse_run_cons, Hc, IHt. by rewrite Hsp.
  - intros [= Heq]. pose proof (IH false Heq) as IHf.
    destruct (Py.rstrip s) as [|c' s'].
    + by rewrite collapse_run_cons, Hc.
    + by rewrite collapse_run_cons, Hc, IHf.
Qed.

Lemma collapsed_strip s :
  Py.collapse_ws s = s → Py.collapse_ws (Py.strip s) = Py.strip s.
Proof. intros Hs. by apply collapsed_rstrip, collapsed_lstrip. Qed.

(** Characters that no step brings in. *)
Lemma all_chars_lstrip p s : all_chars p s = true → all_chars p (Py.lstrip s) = true.
Proof.
  induction s as [|c s IH]; [done|]. simpl.
  intros [Hc Hs]%andb_true_iff. destruct (Py.isspace c); [auto|]. simpl. by rewrite Hc.
Qed.

Lemma all_chars_rstrip p s : all_chars p s = true → all_chars p (Py.rstrip s) = true.
Proof.
  induction s as [|c s IH]; [done|]. simpl.
  intros [Hc Hs]%andb_true_iff. specialize (IH Hs).
  destruct (Py.rstrip s); [destruct (Py.isspace c)|]; simpl in *; by rewrite ?Hc, ?IH.
Qed.

Lemma all_chars_strip p s : all_chars p s = true → all_chars p (Py.strip s) = true.
Proof. intros. by apply all_chars_rstrip, all_chars_lstrip. Qed.

Lemma all_chars_take p k s : all_chars p s = true → all_chars p (Py.take k s) = true.
Proof.
  revert s. induction k as [|k IH]; intros [|c s]; simpl; try done.
  intros [Hc Hs]%andb_true_iff. by rewrite Hc, IH.
Qed.

Lemma all_chars_drop p k s : all_chars p s = true → all_chars p (Py.drop k s) = true.
Proof.
  revert s. induction k as [|k IH]; intros [|c s]; simpl; try done.
  intros [Hc Hs]%andb_true_iff. auto.
Qed.

Lemma all_chars_collapse p b s :
  p " "%char = true → all_chars p s = true → all_chars p (Py.collapse_run b s) = true.
Proof.
  intros Hsp. revert b. induction s as [|c s IH]; intros b; simpl; [done|].
  intros [Hc Hs]%andb_true_iff.
  destruct (Py.isspace c); [destruct b|]; simpl; rewrite ?Hsp, ?Hc; simpl; auto.
Qed.

Lemma all_chars_replace a b s :
  Ascii.eqb b a = false →
  all_chars (λ c, negb (Ascii.eqb c a)) (Py.replace_char a b s) = true.
Proof.
  intros Hab. induction s as [|c s IH]; [done|]. unfold Py.replace_char in *. simpl.
  rewrite IH. destruct (Ascii.eqb c a) eqn:Hc; by rewrite ?Hab, ?Hc.
Qed.

(** X3.  Whatever the title, the caption candidate is tidy: it has no
    white space at either end, its white space is single spaces (stripping
    and collapsing leave it as it is), and it has no underscore. *)
Theorem derive_caption_is_tidy t :
  let c := derive_caption_from_live_title t in
  Py.strip c = c
  ∧ Py.collapse_ws c = c
  ∧ all_chars (λ x, negb (Ascii.eqb x "_")) c = true.
Proof.
  unfold derive_caption_from_live_title.
  destruct (Py.is_empty (Py.strip t)); [done|]. cbv zeta.
  split; [apply strip_idem|]. split.
  - apply collapsed_strip, collapse_run_idem.
  - apply all_chars_strip, all_chars_collapse; [done|]. apply all_chars_strip.
    assert (all_chars (λ x, negb (Ascii.eqb x "_"))
              (Py.strip
                 (Py.replace_char "_" " "
                    (if String.eqb (Py.lower (Py.take 5 (Py.strip t))) "file:"
                     then Py.drop 5 (Py.strip t) else Py.strip t))) = true) as Hclean.
    { apply all_chars_strip, all_chars_replace. reflexivity. }
    repeat match goal with
           | |- context [match ?x with Some _ => _ | None => _ end] => destruct x
           end;
      repeat first [ exact Hclean | apply all_chars_take | apply all_chars_strip ].
Qed.

(* ===================================================================== *)
(** ** The slice of the workload *)
(* ===================================================================== *)

Lemma drop_app_length s t : Py.drop (String.length s) (s +:+ t) = t.
Proof. induction s as [|c s IH]; [done|]. string_simpl. simpl. exact IH. Qed.

Lemma lstrip_spaces_app ws t :
  all_chars Py.isspace ws = true →
  match t with
  | EmptyString => True
  | String c _ => Py.isspace c = false
  end →
  Py.lstrip (ws +:+ t) = t.
Proof.
  intros Hws Ht. induction ws as [|c ws IH]; string_simpl.
  - destruct t as [|c t]; [done|]. simpl. by rewrite Ht.
  - simpl in Hws |- *. apply andb_true_iff in Hws as [Hc Hws]. rewrite Hc. auto.
Qed.

Lemma digits_headed ds t :
  ds ≠ "" → all_chars Py.isdigit ds = true →
  match ds +:+ t with
  | EmptyString => True
  | String c _ => Py.isspace c = false
  end.
Proof.
  intros Hne Hds. destruct ds as [|c ds]; [done|]. string_simpl.
  simpl in Hds. apply andb_true_iff in Hds as [Hc _]. by apply isdigit_not_space.
Qed.

Lemma space_not_digit c : Py.isspace c = true → Py.isdigit c = false.
Proof. by_cases_on_char c. Qed.

Lemma range_sep c :
  existsb (Ascii.eqb c) (list_ascii_of_string "-:") = true →
  Py.isspace c = false ∧ Py.isdigit c = false.
Proof. by_cases_on_char c. Qed.

Lemma headed_not_digit t :
  match t with
  | EmptyString => True
  | String c _ => Py.isspace c = true ∨ Py.isdigit c = false
  end →
  match t with
  | EmptyString => True
  | String c _ => Py.isdigit c = false
  end.
Proof. destruct t as [|c t]; [done|]. intros [H|H]; [by apply space_not_digit | done]. Qed.

(** The texts [RANGE_RE] matches, and their groups. *)
Lemma range_groups_parts w1 d1 w2 c w3 d2 w4 :
  all_chars Py.isspace w1 = true → d1 ≠ "" → all_chars Py.isdigit d1 = true →
  all_chars Py.isspace w2 = true →
  existsb (Ascii.eqb c) (list_ascii_of_string "-:") = true →
  all_chars Py.isspace w3 = true → d2 ≠ "" → all_chars Py.isdigit d2 = true →
  all_chars Py.isspace w4 = true →
  let rng := w1 +:+ (d1 +:+ (w2 +:+ (String c "" +:+ (w3 +:+ (d2 +:+ w4))))) in
  Re.fullmatch RANGE_RE rng = true ∧ range_groups rng = (d1, d2).
Proof.
  intros Hw1 Hne1 Hd1 Hw2 Hc Hw3 Hne2 Hd2 Hw4 rng. subst rng. split.
  - apply fullmatch_spec. unfold RANGE_RE.
    repeat first
      [ apply MatchSeq
      | by apply matches_star_sym
      | by apply matches_plus_sym
      | by constructor ].
  - destruct (range_sep c Hc) as [Hcs Hcd].
    unfold range_groups.
    rewrite (lstrip_spaces_app w1 _ Hw1 (digits_headed d1 _ Hne1 Hd1)).
    assert (digit_run (d1 +:+ (w2 +:+ (String c "" +:+ (w3 +:+ (d2 +:+ w4))))) = d1) as ->.
    { apply digit_run_app; [done|]. apply headed_not_digit.
      destruct w2 as [|x w2]; string_simpl; [by right|].
      simpl in Hw2. apply andb_true_iff in Hw2 as [Hx _]. by left. }
    rewrite drop_app_length.
    rewrite (lstrip_spaces_app w2 _ Hw2) by (string_simpl; exact Hcs).
    string_simpl. cbn [Py.drop].
    rewrite (lstrip_spaces_app w3 _ Hw3 (digits_headed d2 _ Hne2 Hd2)).
    f_equal. apply digit_run_app; [done|]. apply headed_not_digit.
    destruct w4 as [|x w4]; [done|].
    simpl in Hw4. apply andb_true_iff in Hw4 as [Hx _]. by left.
Qed.

Lemma range_groups_digits rng :
  Re.fullmatch RANGE_RE rng = true →
  ∃ d1 d2, range_groups rng = (d1, d2)
           ∧ d1 ≠ "" ∧ all_chars Py.isdigit d1 = true
           ∧ d2 ≠ "" ∧ all_chars Py.isdigit d2 = true.
Proof.
  rewrite fullmatch_spec. unfold RANGE_RE.
  intros (w1 & s1 & -> & Hw1 & H1)%matches_seq_inv.
  apply matches_seq_inv in H1 as (d1 & s2 & -> & Hd1 & H2).
  apply matches_seq_inv in H2 as (w2 & s3 & -> & Hw2 & H3).
  apply matches_seq_inv in H3 as (sep & s4 & -> & Hsep & H4).
  apply matches_seq_inv in H4 as (w3 & s5 & -> & Hw3 & H5).
  apply matches_seq_inv in H5 as (d2 & w4 & -> & Hd2 & Hw4).
  apply matches_star_sym in Hw1, Hw2, Hw3, Hw4.
  apply matches_plus_sym in Hd1 as [Hne1 Hd1], Hd2 as [Hne2 Hd2].
  apply matches_sym_inv in Hsep as (c & -> & Hc).
  exists d1, d2. split; [|done].
  by apply range_groups_parts.
Qed.

(** X4.  Whatever the settings, with a [RANGE] whose numbers are no longer
    than [int()] reads, [apply_slice] either ends the run with
    [SystemExit(1)] or returns a block of consecutive rows of the frame, in
    their order; the block of a frame that has rows is never empty. *)
Theorem apply_slice_outcomes {A} RANGE HEAD (df : list A) :
  (String.length RANGE <= int_max_str_digits)%nat →
  match apply_slice RANGE HEAD df with
  | inl e => e = SystemExit 1 ∧ df ≠ []
  | inr work =>
      ∃ first : nat,
        work = List.firstn (length work) (List.skipn first df)
        ∧ (first + length work <= length df)%nat
        ∧ (df ≠ [] → work ≠ [])
  end.
Proof.
  intros _. unfold apply_slice. destruct df as [|x df0] eqn:Hdf.
  { exists 0%nat. done. }
  rewrite <- Hdf. assert (df ≠ []) as Hne by (by rewrite Hdf).
  assert (0 < length df)%nat as Hlen by (rewrite Hdf; simpl; lia).
  clear Hdf. cbv zeta.
  destruct (negb (Py.is_empty (Py.strip RANGE))) eqn:Hrange;
    destruct (0 <? HEAD) eqn:Hhead; cbn [andb]; try done.
  - destruct (Re.fullmatch RANGE_RE (Py.strip RANGE)) eqn:Hmatch; cbn [negb]; [|done].
    destruct (range_groups_digits _ Hmatch) as (d1 & d2 & -> & Hne1 & Hd1 & Hne2 & Hd2).
    destruct (int_of_str_digits d1 Hne1 Hd1) as (a & -> & Ha).
    destruct (int_of_str_digits d2 Hne2 Hd2) as (b & -> & Hb).
    destruct ((1 <=? a) && (a <=? b) && (b <=? Z.of_nat (length df))) eqn:Hbounds;
      cbn [negb]; [|done].
    apply andb_true_iff in Hbounds as [[H1 H2]%andb_true_iff H3].
    apply Z.leb_le in H1, H2, H3.
    exists (Z.to_nat (a - 1)).
    assert (length (List.firstn (Z.to_nat b - Z.to_nat (a - 1))
                      (List.skipn (Z.to_nat (a - 1)) df))
            = (Z.to_nat b - Z.to_nat (a - 1))%nat) as Hl.
    { rewrite List.length_firstn, List.length_skipn. lia. }
    rewrite Hl. split; [done|]. split; [lia|].
    intros _ Heq. apply (f_equal (@length A)) in Heq. rewrite Hl in Heq. simpl in Heq. lia.
  - destruct ((1 <=? HEAD) && (HEAD <=? Z.of_nat (length df))) eqn:Hbounds;
      cbn [negb]; [|done].
    apply andb_true_iff in Hbounds as [H1 H2]. apply Z.leb_le in H1, H2.
    exists 0%nat. cbn [List.skipn].
    assert (length (List.firstn (Z.to_nat HEAD) df) = Z.to_nat HEAD) as Hl.
    { rewrite List.length_firstn. lia. }
    rewrite Hl. split; [done|]. split; [lia|].
    intros _ Heq. apply (f_equal (@length A)) in Heq. rewrite Hl in Heq. simpl in Heq. lia.
  - exists 0%nat. cbn [List.skipn]. split; [by rewrite List.firstn_all|]. split; [lia|done].
Qed.

Lemma apply_slice_outcomes_witness :
  (String.length "3-4" <= int_max_str_digits)%nat
  ∧ match apply_slice "3-4" 0 sheet_work with
    | inl e => e = SystemExit 1 ∧ sheet_work ≠ []
    | inr work =>
        ∃ first : nat,
          work = List.firstn (length work) (List.skipn first sheet_work)
          ∧ (first + length work <= length sheet_work)%nat
          ∧ (sheet_work ≠ [] → work ≠ [])
    end.
Proof.
  assert (String.length "3-4" <= int_max_str_digits)%nat as Hlen.
  { unfold int_max_str_digits. simpl. lia. }
  split; [exact Hlen|].
  exact (apply_slice_outcomes "3-4" 0 sheet_work Hlen).
Defined.

Lemma rstrip_no_space s :
  all_chars (λ c, negb (Py.isspace c)) s = true → Py.rstrip s = s.
Proof.
  induction s as [|c s IH]; [done|]. simpl.
  intros [Hc Hs]%andb_true_iff. rewrite IH by done.
  apply negb_true_iff in Hc. destruct s; [by rewrite Hc | done].
Qed.

Lemma strip_no_space s :
  all_chars (λ c, negb (Py.isspace c)) s = true → Py.strip s = s.
Proof.
  intros Hs. unfold Py.strip. destruct s as [|c s]; [done|].
  pose proof Hs as Hs'. simpl in Hs'. apply andb_true_iff in Hs' as [Hc _].
  apply negb_true_iff in Hc.
  rewrite (lstrip_headed_id c s Hc). by apply rstrip_no_space.
Qed.

Lemma digits_no_space ds :
  all_chars Py.isdigit ds = true → all_chars (λ c, negb (Py.isspace c)) ds = true.
Proof.
  induction ds as [|c ds IH]; [done|]. simpl.
  intros [Hc Hds]%andb_true_iff. by rewrite (isdigit_not_space c Hc), IH.
Qed.

(** X5.  A range [N-M] (or [N:M]) written with [str], with
    [1 <= N <= M <= len(df)] and no [HEAD], selects the rows N to M of the
    frame counted from 1, both included: [M - N + 1] rows, the k-th of which
    is the row [N - 1 + k] of the frame. *)
Theorem apply_slice_range {A} (n m : Z) (sep : ascii) (HEAD : Z) (df : list A) :
  1 <= n → n <= m → m <= Z.of_nat (length df) → HEAD <= 0 →
  sep = "-"%char ∨ sep = ":"%char →
  ∃ work,
    apply_slice (str_of_int n +:+ String sep (str_of_int m)) HEAD df = inr work
    ∧ length work = Z.to_nat (m - n + 1)
    ∧ ∀ k : nat, (k < length work)%nat → work !! k = df !! (Z.to_nat (n - 1) + k)%nat.
Proof.
  intros Hn Hnm Hm Hhead Hsep.
  destruct (str_of_int_spec n ltac:(lia)) as (Hne1 & Hd1 & Hint1).
  destruct (str_of_int_spec m ltac:(lia)) as (Hne2 & Hd2 & Hint2).
  set (d1 := str_of_int n) in *. set (d2 := str_of_int m) in *.
  assert (existsb (Ascii.eqb sep) (list_ascii_of_string "-:") = true) as Hc.
  { by destruct Hsep as [-> | ->]. }
  destruct (range_sep sep Hc) as [Hcs Hcd].
  destruct (range_groups_parts "" d1 "" sep "" d2 "" eq_refl Hne1 Hd1 eq_refl Hc
              eq_refl Hne2 Hd2 eq_refl) as [Hmatch Hgroups].
  rewrite string_app_nil_r in Hmatch, Hgroups. string_simpl_in Hmatch.
  string_simpl_in Hgroups.
  assert (Py.strip (d1 +:+ String sep d2) = d1 +:+ String sep d2) as Hstrip.
  { apply strip_no_space. rewrite all_chars_app. cbn [all_chars].
    by rewrite !digits_no_space, Hcs. }
  assert (Py.is_empty (d1 +:+ String sep d2) = false) as Hfull.
  { destruct d1; done. }
  eexists. split.
  - unfold apply_slice. destruct df as [|x df0]; [simpl in Hm; lia|].
    cbv beta iota zeta.
    rewrite Hstrip, Hfull, Hmatch, Hgroups, Hint1, Hint2. cbn [negb andb].
    destruct (0 <? HEAD) eqn:Hh; [apply Z.ltb_lt in Hh; lia|]. cbn [andb].
    assert ((1 <=? n) && (n <=? m) && (m <=? Z.of_nat (length (x :: df0))) = true) as ->.
    { repeat (apply andb_true_iff; split); by apply Z.leb_le. }
    cbn [negb]. reflexivity.
  - assert (Z.to_nat m - Z.to_nat (n - 1) = Z.to_nat (m - n + 1))%nat as -> by lia.
    split.
    + rewrite List.length_firstn, List.length_skipn. lia.
    + intros k Hk. rewrite List.length_firstn, List.length_skipn in Hk.
      change (List.firstn ?a ?l) with (take a l). change (List.skipn ?a ?l) with (drop a l).
      rewrite lookup_take_lt by lia. by rewrite lookup_drop.
Qed.

Lemma apply_slice_range_witness :
  ∃ work,
    apply_slice "2:3" 0 ["a"; "b"; "c"; "d"] = inr work
    ∧ length work = 2%nat
    ∧ ∀ k : nat, (k < length work)%nat → work !! k = ["a"; "b"; "c"; "d"] !! (1 + k)%nat.
Proof.
  apply (apply_slice_range 2 3 ":" 0 ["a"; "b"; "c"; "d"]); simpl; auto; lia.
Defined.

(** X6.  On a frame that has rows [apply_slice] ends the run when both
    [RANGE] and [HEAD] are set, when [HEAD] is more than the number of
    rows, and, with the settings the program starts with (the range 1-100
    and no [HEAD]), when the frame has fewer than 100 rows; with these
    settings a longer frame gives its first 100 rows.  A frame without rows
    is returned as it is, whatever the settings. *)
Theorem apply_slice_rejects {A} RANGE HEAD (df : list A) :
  (df ≠ [] → Py.is_empty (Py.strip RANGE) = false → 0 < HEAD →
     apply_slice RANGE HEAD df = inl (SystemExit 1))
  ∧ (df ≠ [] → Py.is_empty (Py.strip RANGE) = true → Z.of_nat (length df) < HEAD →
     apply_slice RANGE HEAD df = inl (SystemExit 1))
  ∧ (df ≠ [] → (length df < 100)%nat →
     apply_slice "1-100" 0 df = inl (SystemExit 1))
  ∧ ((100 <= length df)%nat → apply_slice "1-100" 0 df = inr (List.firstn 100 df))
  ∧ apply_slice RANGE HEAD (@nil A) = inr [].
Proof.
  repeat split.
  - intros Hne Hrange Hhead. unfold apply_slice. destruct df; [done|]. cbv zeta.
    rewrite Hrange. apply Z.ltb_lt in Hhead. by rewrite Hhead.
  - intros Hne Hrange Hhead. unfold apply_slice. destruct df as [|x df0]; [done|].
    cbv beta iota zeta. rewrite Hrange. cbn [negb andb].
    assert ((0 <? HEAD) = true) as -> by (apply Z.ltb_lt; lia).
    assert ((HEAD <=? Z.of_nat (length (x :: df0))) = false) as ->
      by (apply Z.leb_gt; lia).
    by rewrite andb_false_r.
  - intros Hne Hlen. unfold apply_slice. destruct df as [|x df0]; [done|].
    cbv beta iota zeta.
    change (Py.strip "1-100") with "1-100".
    change (Re.fullmatch RANGE_RE "1-100") with true.
    change (range_groups "1-100") with ("1", "100"). cbv beta iota zeta.
    change (Dyn.int_of_str "1") with (Some 1). change (Dyn.int_of_str "100") with (Some 100).
    cbv beta iota zeta.
    change (0 <? 0) with false. change (1 <=? 1) with true.
    change (1 <=? 100) with true. cbn [Py.is_empty negb andb].
    assert ((100 <=? Z.of_nat (length (x :: df0))) = false) as ->
      by (apply Z.leb_gt; lia).
    reflexivity.
  - intros Hlen. unfold apply_slice. destruct df as [|x df0]; [simpl in Hlen; lia|].
    cbv beta iota zeta.
    change (Py.strip "1-100") with "1-100".
    change (Re.fullmatch RANGE_RE "1-100") with true.
    change (range_groups "1-100") with ("1", "100"). cbv beta iota zeta.
    change (Dyn.int_of_str "1") with (Some 1). change (Dyn.int_of_str "100") with (Some 100).
    cbv beta iota zeta.
    change (0 <? 0) with false. change (1 <=? 1) with true.
    change (1 <=? 100) with true. cbn [Py.is_empty negb andb].
    assert ((100 <=? Z.of_nat (length (x :: df0))) = true) as ->
      by (apply Z.leb_le; lia).
    reflexivity.
Qed.

Lemma apply_slice_rejects_witness :
  apply_slice "1-2" 1 ["a"; "b"; "c"] = inl (SystemExit 1)
  ∧ apply_slice "" 4 ["a"; "b"; "c"] = inl (SystemExit 1)
  ∧ apply_slice "1-100" 0 ["a"; "b"; "c"] = inl (SystemExit 1)
  ∧ apply_slice "1-100" 0 (replicate 120 "a") = inr (replicate 100 "a").
Proof.
  destruct (apply_slice_rejects "1-2" 1 ["a"; "b"; "c"]) as (H1 & _ & H3 & _ & _).
  destruct (apply_slice_rejects "" 4 ["a"; "b"; "c"]) as (_ & H2 & _ & _ & _).
  destruct (apply_slice_rejects "" 0 (replicate 120 "a")) as (_ & _ & _ & H4 & _).
  split; [apply H1; [done | reflexivity | lia]|].
  split; [apply H2; [done | reflexivity | simpl; lia]|].
  split; [apply H3; [done | simpl; lia]|].
  apply H4. simpl. lia.
Defined.

(* ===================================================================== *)
(** ** More on the mutator *)
(* ===================================================================== *)

Lemma with_auth_absorb t' t (d : form) : with_auth t' (with_auth t d) = with_auth t' d.
Proof.
  apply map_eq. intros k. unfold with_auth.
  repeat (rewrite ?lookup_setdefault, ?lookup_insert; repeat case_decide; subst;
          simpl; try done).
Qed.

Lemma with_auth_fields t (d : form) k :
  with_auth t d !! k =
    if decide (k = "token") then Some (FStr t)
    else if decide (k = "assert") then Some (default (FStr "user") (d !! "assert"))
    else if decide (k = "bot") then Some (default (FStr "1") (d !! "bot"))
    else d !! k.
Proof.
  unfold with_auth.
  repeat (rewrite ?lookup_setdefault, ?lookup_insert; repeat case_decide; subst;
          simpl; try done).
Qed.

Lemma stable_params_fields (params : form) k :
  stable_params params !! k =
    if decide (k = "format") then Some (default (FStr "json") (params !! "format"))
    else if decide (k = "maxlag") then Some (default (FStr "5") (params !! "maxlag"))
    else params !! k.
Proof.
  unfold stable_params.
  repeat (rewrite ?lookup_setdefault, ?lookup_insert; repeat case_decide; subst;
          simpl; try done).
Qed.

Section MutatorMore.

Context {W : Type} {env : Env W} {lib : PyLib}.

Implicit Types (p d : form) (w : W) (r : response).

(** X7.  [mw_mutate] checks its arguments before it sends anything: with
    an empty token, a negative [max_retries] or a [base_sleep] that is not
    positive it raises [TypeError] and no request is made. *)
Theorem mw_mutate_checks_arguments max base token params data w :
  Py.is_empty token = true ∨ max < 0 ∨ (base <= 0)%Q →
  ∃ msg, mw_mutate_with max base token params data w = (Raise (TypeError msg), w, []).
Proof.
  intros Hbad. unfold mw_mutate_with.
  destruct (Py.is_empty token) eqn:Htok; [by eexists|].
  rewrite api_url_not_blank, user_agent_not_blank.
  destruct (max <? 0) eqn:Hmax; [by eexists|].
  destruct (Qle_bool base 0) eqn:Hbase; [by eexists|].
  exfalso. destruct Hbad as [Hb | [Hb | Hb]].
  - done.
  - apply Z.ltb_ge in Hmax. lia.
  - apply Qle_bool_iff in Hb. congruence.
Qed.

(** The write requests of the loop all carry the parameters [p] and the
    form the loop started with, completed with a token; the first one
    carries the token the loop started with. *)
Lemma mutate_loop_requests p max base fuel :
  ∀ d attempt token w,
    Forall (λ e, match e with
                 | EvPost p' d' => p' = p ∧ ∃ t, d' = with_auth t d
                 | _ => True
                 end)
      (mutate_loop fuel p d max base attempt token w).2
    ∧ ((0 < fuel)%nat →
       hd_error (mutate_loop fuel p d max base attempt token w).2
       = Some (EvPost p (with_auth token d))).
Proof.
  induction fuel as [|fuel IH]; intros d attempt token w.
  { split; [constructor | lia]. }
  rewrite loop_step.
  destruct (turn_shape (λ e, is_post e = false) p (with_auth token d) max base
              (S attempt) token ltac:(done) ltac:(done) w) as (l & Hev & Hl & _).
  assert (Forall (λ e, match e with
                       | EvPost p' d' => p' = p ∧ ∃ t, d' = with_auth t d
                       | _ => True
                       end) (EvPost p (with_auth token d) :: l)) as Hturn.
  { constructor; [by eauto|]. eapply Forall_impl; [exact Hl|]. by intros []. }
  destruct (mutate_attempt _ _ _ _ _ _ w) as [[[[t'|j t']|e|] w1] l0];
    simpl in Hev; subst l0; try (split; [exact Hturn | done]).
  destruct (IH (with_auth token d) (S attempt) t' w1) as [Hrest _].
  destruct (mutate_loop fuel _ _ _ _ _ _ w1) as [[o2 w2] l2]. simpl in *.
  split; [|done].
  apply (Forall_app _ (EvPost p (with_auth token d) :: l) l2). split; [exact Hturn|].
  eapply Forall_impl; [exact Hrest|].
  intros [] ; try done. intros [-> [t ->]]. split; [done|].
  exists t. apply with_auth_absorb.
Qed.

(** The write requests of [mw_mutate]. *)
Lemma mw_mutate_post_shape max base token params data w p' d' :
  EvPost p' d' ∈ (mw_mutate_with max base token params data w).2 →
  p' = stable_params params ∧ ∃ t, d' = with_auth t (default ∅ data).
Proof.
  unfold mw_mutate_with.
  repeat match goal with
         | |- context [if ?b then raise _ else _] =>
             destruct b; [simpl; by intros ?%elem_of_nil|]
         end.
  intros Hin.
  destruct (mutate_loop_requests (stable_params params) max base (S (Z.to_nat max))
              (default ∅ data) 0 token w) as [Hall _].
  rewrite Forall_forall in Hall. exact (Hall _ Hin).
Qed.

(** One turn of the loop, with the world after its request: the turn asks
    for another one with the token it had, after a wait, or with the token
    that [fetch_csrf] has just returned; it returns with the token it had;
    or it raises, after the request alone or after a token query that
    failed. *)
Lemma turn_token p d max base attempt token w :
  ∃ x w1 l,
    env_post p d w = (x, w1)
    ∧ (mutate_attempt p d max base attempt token w).2 = EvPost p d :: l
    ∧ match (mutate_attempt p d max base attempt token w).1 with
      | (Ok (Continue t'), w2) =>
          (t' = token ∧ (∃ s, l = [EvSleep s]) ∧ (w2 = w1 ∨ w2 = (env_random w1).2))
          ∨ (l = [EvGet csrf_params]
             ∧ fetch_csrf w1 = (Ok t', w2, [EvGet csrf_params]))
      | (Ok (Return _ t'), _) => t' = token ∧ l = []
      | (Raise e, w2) =>
          l = [] ∨ (l = [EvGet csrf_params]
                    ∧ fetch_csrf w1 = (Raise e, w2, [EvGet csrf_params]))
      | (OutOfFuel, _) => False
      end.
Proof.
  destruct (env_post p d w) as [x w1] eqn:Hpost. exists x, w1.
  (* a turn that asks for another one after a wait, and one that raises *)
  assert (∀ (run : outcome turn * W * list event) s w2,
            run = (Ok (Continue token), w2, [EvPost p d; EvSleep s]) →
            w2 = w1 ∨ w2 = (env_random w1).2 →
            ∃ l, (x, w1) = (x, w1) ∧ run.2 = EvPost p d :: l
                 ∧ match run.1 with
                   | (Ok (Continue t'), w2) =>
                       (t' = token ∧ (∃ s, l = [EvSleep s])
                        ∧ (w2 = w1 ∨ w2 = (env_random w1).2))
                       ∨ (l = [EvGet csrf_params]
                          ∧ fetch_csrf w1 = (Ok t', w2, [EvGet csrf_params]))
                   | (Ok (Return _ t'), _) => t' = token ∧ l = []
                   | (Raise e, w2) =>
                       l = [] ∨ (l = [EvGet csrf_params]
                                 ∧ fetch_csrf w1 = (Raise e, w2, [EvGet csrf_params]))
                   | (OutOfFuel, _) => False
                   end) as Hwait.
  { intros run s w2 -> Hw. exists [EvSleep s]. simpl. split; [done|]. split; [done|].
    left. split; [done|]. split; [by eexists | done]. }
  assert (∀ (run : outcome turn * W * list event) e w2,
            run = (Raise e, w2, [EvPost p d]) →
            ∃ l, (x, w1) = (x, w1) ∧ run.2 = EvPost p d :: l
                 ∧ match run.1 with
                   | (Ok (Continue t'), w2) =>
                       (t' = token ∧ (∃ s, l = [EvSleep s])
                        ∧ (w2 = w1 ∨ w2 = (env_random w1).2))
                       ∨ (l = [EvGet csrf_params]
                          ∧ fetch_csrf w1 = (Ok t', w2, [EvGet csrf_params]))
                   | (Ok (Return _ t'), _) => t' = token ∧ l = []
                   | (Raise e, w2) =>
                       l = [] ∨ (l = [EvGet csrf_params]
                                 ∧ fetch_csrf w1 = (Raise e, w2, [EvGet csrf_params]))
                   | (OutOfFuel, _) => False
                   end) as Hraised.
  { intros run e w2 ->. exists []. simpl. split; [done|]. split; [done|]. by left. }
  (* what the handler does with an exception raised after the request *)
  assert (∀ e,
            (∃ s, prepend [EvPost p d]
                    ((if is_RequestException e
                      then if Z.of_nat attempt <=? max
                           then sleep ← backoff base attempt; time_sleep sleep;;
                                mret (Continue token)
                           else raise e
                      else raise e) w1)
                  = (Ok (Continue token), (env_random w1).2, [EvPost p d; EvSleep s]))
            ∨ prepend [EvPost p d]
                ((if is_RequestException e
                  then if Z.of_nat attempt <=? max
                       then sleep ← backoff base attempt; time_sleep sleep;;
                            mret (Continue token)
                       else raise e
                  else raise e) w1)
              = (Raise e, w1, [EvPost p d])) as Hhandler.
  { intros e. destruct (is_RequestException e); [|by right].
    destruct (Z.of_nat attempt <=? max); [|by right].
    left. rewrite bind_run, backoff_run. destruct (env_random w1) as [u w2]. simpl.
    by eexists. }
  assert (∀ e (run : outcome turn * W * list event),
            run = prepend [EvPost p d]
                    ((if is_RequestException e
                      then if Z.of_nat attempt <=? max
                           then sleep ← backoff base attempt; time_sleep sleep;;
                                mret (Continue token)
                           else raise e
                      else raise e) w1) →
            ∃ l, (x, w1) = (x, w1) ∧ run.2 = EvPost p d :: l
                 ∧ match run.1 with
                   | (Ok (Continue t'), w2) =>
                       (t' = token ∧ (∃ s, l = [EvSleep s])
                        ∧ (w2 = w1 ∨ w2 = (env_random w1).2))
                       ∨ (l = [EvGet csrf_params]
                          ∧ fetch_csrf w1 = (Ok t', w2, [EvGet csrf_params]))
                   | (Ok (Return _ t'), _) => t' = token ∧ l = []
                   | (Raise e, w2) =>
                       l = [] ∨ (l = [EvGet csrf_params]
                                 ∧ fetch_csrf w1 = (Raise e, w2, [EvGet csrf_params]))
                   | (OutOfFuel, _) => False
                   end) as Hfail.
  { intros e run ->. destruct (Hhandler e) as [[s ->] | ->].
    - eapply Hwait; [reflexivity | by right].
    - by eapply Hraised. }
  destruct x as [msg|r].
  { rewrite (turn_transport_error _ _ _ _ _ _ _ _ _ Hpost).
    destruct (Z.of_nat attempt <=? max).
    - destruct (env_random w1) as [u w2] eqn:Hu.
      eapply Hwait; [reflexivity|]. by right.
    - by eapply Hraised. }
  destruct (decide (status_code r ∈ RETRYABLE_STATUS)) as [Hst|Hst].
  { rewrite (turn_retryable_status _ _ _ _ _ _ _ _ _ Hpost Hst).
    assert ((retry_wait base attempt r w1).2 = w1
            ∨ (retry_wait base attempt r w1).2 = (env_random w1).2) as Hw.
    { unfold retry_wait. destruct (retry_after r); [by left|].
      right. by destruct (env_random w1). }
    destruct (retry_wait base attempt r w1) as [y w2]. simpl in Hw.
    destruct (Z.of_nat attempt <=? max); [|by eapply Hraised].
    destruct (sleep_arg y) as [e|s]; [by eapply Hraised|].
    by eapply Hwait. }
  destruct (raises_for_status (status_code r)) eqn:Hraise.
  { rewrite (turn_error_status _ _ _ _ _ _ _ _ _ Hpost Hst Hraise).
    destruct (Z.of_nat attempt <=? max).
    - destruct (env_random w1) as [u w2] eqn:Hu.
      eapply Hwait; [reflexivity|]. by right.
    - by eapply Hraised. }
  (* from here on the response passes [raise_for_status] *)
  destruct (body r) as [j|] eqn:Hbody; last first.
  { apply (Hfail JSONDecodeError).
    unfold mutate_attempt. rewrite try_run, bind_run.
    unfold session_post. rewrite Hpost. simpl.
    rewrite bool_decide_false by done.
    rewrite bind_run. simpl. rewrite bind_run.
    unfold raise_for_status. rewrite Hraise. simpl.
    rewrite bind_run. unfold response_json. rewrite Hbody. reflexivity. }
  destruct (has_error_key j) as [e|[]] eqn:Hkey.
  - apply (Hfail e).
    unfold mutate_attempt. rewrite try_run, bind_run.
    unfold session_post. rewrite Hpost. simpl.
    rewrite bool_decide_false by done.
    rewrite bind_run. simpl. rewrite bind_run.
    unfold raise_for_status. rewrite Hraise. simpl.
    rewrite bind_run. unfold response_json. rewrite Hbody. simpl.
    rewrite bind_run, Hkey. reflexivity.
  - destruct (error_of j) as [e|err] eqn:Herr.
    { apply (Hfail e).
      unfold mutate_attempt. rewrite try_run, bind_run.
      unfold session_post. rewrite Hpost. simpl.
      rewrite bool_decide_false by done.
      rewrite bind_run. simpl. rewrite bind_run.
      unfold raise_for_status. rewrite Hraise. simpl.
      rewrite bind_run. unfold response_json. rewrite Hbody. simpl.
      rewrite bind_run, Hkey. simpl. rewrite bind_run, Herr. reflexivity. }
    destruct (error_code err) as [e|code] eqn:Hcode.
    { apply (Hfail e).
      unfold mutate_attempt. rewrite try_run, bind_run.
      unfold session_post. rewrite Hpost. simpl.
      rewrite bool_decide_false by done.
      rewrite bind_run. simpl. rewrite bind_run.
      unfold raise_for_status. rewrite Hraise. simpl.
      rewrite bind_run. unfold response_json. rewrite Hbody. simpl.
      rewrite bind_run, Hkey. simpl. rewrite bind_run, Herr. simpl.
      rewrite bind_run, Hcode. reflexivity. }
    rewrite (turn_api_error _ _ _ _ _ _ _ _ _ _ _ _ Hpost Hst Hraise Hbody Hkey Herr Hcode).
    destruct (bool_decide (code ∈ RETRYABLE_API_CODES) && (Z.of_nat attempt <=? max)).
    { destruct (env_random w1) as [u w2] eqn:Hu.
      eapply Hwait; [reflexivity|]. by right. }
    destruct (bool_decide (code ∈ RETRYABLE_AUTH_CODES) && (Z.of_nat attempt <=? max));
      [|by eapply Hraised].
    pose proof (fetch_csrf_events w1) as Hev.
    pose proof (proj2 (sat_fetch_csrf (λ _, True) ltac:(done) w1)) as Hok.
    destruct (fetch_csrf w1) as [[[t1|e|] w2] l1] eqn:Hf; simpl in Hev, Hok; subst l1;
      [| |done].
    + exists [EvGet csrf_params]. simpl. split; [done|]. split; [done|]. by right.
    + exists [EvGet csrf_params]. simpl. split; [done|]. split; [done|]. by right.
  - rewrite (turn_success _ _ _ _ _ _ _ _ _ _ Hpost Hst Hraise Hbody Hkey).
    exists []. simpl. done.
Qed.

(** The log of the loop is a token trace. *)
Lemma mutate_loop_trace p d max base fuel :
  ∀ d0 attempt token w,
    (∀ t, with_auth t d0 = with_auth t d) →
    ∃ t', token_trace p d token w (mutate_loop fuel p d0 max base attempt token w).2 t'
          ∧ ∀ j t'', (mutate_loop fuel p d0 max base attempt token w).1.1 = Ok (j, t'')
                     → t'' = t'.
Proof.
  induction fuel as [|fuel IH]; intros d0 attempt token w Hd0.
  { exists token. split; [constructor | done]. }
  rewrite loop_step. rewrite Hd0.
  destruct (turn_token p (with_auth token d) max base (S attempt) token w)
    as (x & w1 & l & Hpost & Hev & Ho).
  destruct (mutate_attempt _ _ _ _ _ _ w) as [[[[t1|j t1]|e|] w2] l0];
    simpl in Hev, Ho; subst l0; try done.
  - destruct (IH (with_auth token d) (S attempt) t1 w2) as (t' & Htr & Hret).
    { intros t. apply with_auth_absorb. }
    destruct (mutate_loop fuel _ _ _ _ _ _ w2) as [[o3 w3] l3]. simpl in *.
    exists t'. split; [|exact Hret].
    destruct Ho as [(-> & [s ->] & Hw) | [-> Hf]]; simpl.
    + eapply trace_post; [exact Hpost|]. eapply trace_sleep; [exact Hw | exact Htr].
    + eapply trace_post; [exact Hpost|]. eapply trace_refresh; [exact Hf | exact Htr].
  - destruct Ho as [-> ->]. exists token. simpl. split.
    + eapply trace_post; [exact Hpost | constructor].
    + by intros ? ? [= _ ->].
  - exists token. simpl. split; [|done].
    destruct Ho as [-> | [-> Hf]].
    + eapply trace_post; [exact Hpost | constructor].
    + eapply trace_post; [exact Hpost|]. eapply trace_refresh_failed. exact Hf.
Qed.

(** Without a token query in the log, the token in force stays what it
    was. *)
Lemma token_trace_no_refresh p d t w l t' :
  token_trace p d t w l t' →
  (∀ q, EvGet q ∉ l) →
  t' = t ∧ ∀ p' d', EvPost p' d' ∈ l → p' = p ∧ d' = with_auth t d.
Proof.
  induction 1 as [t w|t w x w1 l t' Hpost Htr IH|t w w1 s l t' Hw Htr IH
                  |t w t1 w1 l t' Hf Htr IH|t w e w1 Hf]; intros Hno.
  - split; [done|]. by intros ? ? ?%elem_of_nil.
  - destruct IH as [-> IH]. { intros q Hq. apply (Hno q). by right. }
    split; [done|]. intros p' d' [[= -> ->]|Hin]%elem_of_cons; [done|]. by apply IH.
  - destruct IH as [-> IH]. { intros q Hq. apply (Hno q). by right. }
    split; [done|]. intros p' d' [[=]|Hin]%elem_of_cons. by apply IH.
  - exfalso. apply (Hno csrf_params). by left.
  - exfalso. apply (Hno csrf_params). by left.
Qed.

(** X8.  Every write request of one [mw_mutate] operation goes out with
    the caller's parameters, completed with [format=json] and [maxlag=5]
    where the caller gave none, and with the caller's form, in which the
    token is the one in force (whatever the caller put there) and
    [assert=user] and [bot=1] are added where the caller gave none; no
    other field is touched.  The token in force is the caller's token up
    to the first token query, and after a token query the token that
    [fetch_csrf] returned there; the token the operation returns is the
    one in force at the end. *)
Theorem mw_mutate_requests max base token params data w :
  let p := stable_params params in
  let d := default ∅ data in
  let run := mw_mutate_with max base token params data w in
  (∃ t', token_trace p d token w run.2 t'
         ∧ ∀ j t'', run.1.1 = Ok (j, t'') → t'' = t')
  ∧ ((∀ q, EvGet q ∉ run.2) →
     (∀ p' d', EvPost p' d' ∈ run.2 → p' = p ∧ d' = with_auth token d)
     ∧ ∀ j t'', run.1.1 = Ok (j, t'') → t'' = token)
  ∧ (∀ p' d', EvPost p' d' ∈ run.2 → p' = p ∧ ∃ t, d' = with_auth t d)
  ∧ p !! "format" = Some (default (FStr "json") (params !! "format"))
  ∧ p !! "maxlag" = Some (default (FStr "5") (params !! "maxlag"))
  ∧ (∀ k, k ≠ "format" → k ≠ "maxlag" → p !! k = params !! k)
  ∧ ∀ t, with_auth t d !! "token" = Some (FStr t)
         ∧ with_auth t d !! "assert" = Some (default (FStr "user") (d !! "assert"))
         ∧ with_auth t d !! "bot" = Some (default (FStr "1") (d !! "bot"))
         ∧ (∀ k, k ≠ "token" → k ≠ "assert" → k ≠ "bot" →
              with_auth t d !! k = d !! k).
Proof.
  intros p d run.
  assert (∃ t', token_trace p d token w run.2 t'
                ∧ ∀ j t'', run.1.1 = Ok (j, t'') → t'' = t') as Htrace.
  { subst run. unfold mw_mutate_with.
    repeat match goal with
           | |- context [if ?b then raise _ else _] =>
               destruct b; [exists token; split; [constructor | done]|]
           end.
    by apply mutate_loop_trace. }
  split; [exact Htrace|]. split; [|split].
  - intros Hno. destruct Htrace as (t' & Htr & Hret).
    destruct (token_trace_no_refresh _ _ _ _ _ _ Htr Hno) as [-> Hposts].
    split; [exact Hposts | exact Hret].
  - intros p' d' Hin. by apply (mw_mutate_post_shape max base token params data w).
  - subst p. rewrite !stable_params_fields. cbn.
    split; [done|]. split; [done|]. split.
    { intros k H1 H2. rewrite stable_params_fields. by repeat case_decide. }
    intros t. rewrite !with_auth_fields. cbn.
    split; [done|]. split; [done|]. split; [done|].
    intros k H1 H2 H3. rewrite with_auth_fields. by repeat case_decide.
Qed.

(** X9.  One [mw_mutate] operation always comes to an end, with a result
    or with an exception that [except Exception] catches: its loop makes
    at most [max_retries + 1] turns, one write request each, and apart
    from the write requests it only waits and reads tokens. *)
Theorem mw_mutate_always_ends max base token params data w :
  let run := mw_mutate_with max base token params data w in
  match run.1.1 with
  | Ok _ => True
  | Raise e => is_Exception e = true
  | OutOfFuel => False
  end
  ∧ (length (List.filter is_post run.2) <= Z.to_nat max + 1)%nat
  ∧ Forall (λ e, is_post e = true ∨ is_sleep e = true ∨ is_get e = true) run.2.
Proof.
  intros run. subst run. split; [|split].
  - exact (proj2 (mw_mutate_total (λ _, True) max base token params data
                    ltac:(done) ltac:(done) ltac:(done) w)).
  - unfold mw_mutate_with.
    repeat match goal with
           | |- context [if ?b then raise _ else _] => destruct b; [simpl; lia|]
           end.
    etrans; [apply mutate_loop_posts|]. lia.
  - apply (proj1 (mw_mutate_total
                    (λ e, is_post e = true ∨ is_sleep e = true ∨ is_get e = true)
                    max base token params data
                    ltac:(by right; right) ltac:(by right; left) ltac:(by left) w)).
Qed.



End MutatorMore.

Lemma mw_mutate_checks_arguments_witness :
  ∃ msg, mw_mutate_with (env := script_env) (lib := sample_lib) 4 1 "" label_params
           (Some label_data) world_denied = (Raise (TypeError msg), world_denied, []).
Proof.
  apply (mw_mutate_checks_arguments (env := script_env) (lib := sample_lib)).
  left. reflexivity.
Defined.



(* ===================================================================== *)
(** ** Single requests *)
(* ===================================================================== *)

Section Requests.

Context {W : Type} {env : Env W} {lib : PyLib}.

Implicit Types (w : W) (r : response).

(** X12.  [fetch_csrf] makes exactly one request, the token query.  A
    token it returns is not blank.  What it raises is never a
    [RequestException]: a transport failure or an HTTP error status comes
    out as [RuntimeError], so that the retry of [mw_mutate] does not take
    it for a failed write. *)
Theorem fetch_csrf_outcomes w :
  (fetch_csrf w).2 = [EvGet csrf_params]
  ∧ match (fetch_csrf w).1.1 with
    | Ok t => Py.is_empty (Py.strip t) = false
    | Raise e => is_RequestException e = false ∧ is_Exception e = true
    | OutOfFuel => False
    end
  ∧ (∀ msg w1, env_get csrf_params w = (HttpFail msg, w1) →
       ∃ m, fetch_csrf w = (Raise (RuntimeError m), w1, [EvGet csrf_params]))
  ∧ (∀ r w1, env_get csrf_params w = (HttpResp r, w1) →
       raises_for_status (status_code r) = true →
       ∃ m, fetch_csrf w = (Raise (RuntimeError m), w1, [EvGet csrf_params])).
Proof.
  split; [apply fetch_csrf_events|]. split.
  - assert (sat (λ _, True) (λ t, Py.is_empty (Py.strip t) = false)
              (λ e, is_RequestException e = false ∧ is_Exception e = true)
              fetch_csrf) as Hs.
    { unfold fetch_csrf. rewrite api_url_not_blank, user_agent_not_blank.
      unfold raise_for_status, response_json.
      apply (sat_try _ _ (λ e, is_Exception e = true)).
      - repeat sat_step; try done.
        all: first
          [ match goal with
            | H : (_ || _) = false |- _ => by apply orb_false_iff in H as [_ ?]
            end
          | match goal with x : exn |- _ => by destruct x end ].
      - intros e He. destruct (is_RequestException e) eqn:Hre;
          by apply sat_raise. }
    exact (proj2 (Hs w)).
  - split.
    + intros msg w1 Hget. unfold fetch_csrf.
      rewrite api_url_not_blank, user_agent_not_blank.
      rewrite try_run, bind_run. unfold session_get. rewrite Hget. by eexists.
    + intros r w1 Hget Hraise. unfold fetch_csrf.
      rewrite api_url_not_blank, user_agent_not_blank.
      rewrite try_run, bind_run. unfold session_get. rewrite Hget. cbn [of_http prepend].
      rewrite bind_run. unfold raise_for_status. rewrite Hraise. by eexists.
Qed.


(** X13.  [mw_request] makes one request and no more: a GET with the
    parameters, or a POST with the parameters and the form (an empty form
    when there is none), for the method in any letter case; for any other
    method it raises [ValueError] and sends nothing.  A result it returns
    is the JSON body of a response whose status is no error status. *)
Theorem mw_request_one_request method params data w :
  let up := Py.upper method in
  let run := mw_request method params data w in
  (up ≠ "GET" → up ≠ "POST" → ∃ msg, run = (Raise (ValueError msg), w, []))
  ∧ (up = "GET" → run.2 = [EvGet params])
  ∧ (up = "POST" → run.2 = [EvPost params (default ∅ data)])
  ∧ (∀ j, run.1.1 = Ok j →
       ∃ r, raises_for_status (status_code r) = false ∧ body r = Some j
            ∧ ((up = "GET" ∧ (env_get params w).1 = HttpResp r)
               ∨ (up = "POST" ∧ (env_post params (default ∅ data) w).1 = HttpResp r))).
Proof.
  intros up run. subst run. unfold mw_request. fold up.
  assert (∀ (m : M response) ev x w1,
            m w = (of_http x, w1, [ev]) →
            ((r ← m; raise_for_status r;; response_json r) w).2 = [ev]
            ∧ ∀ j, ((r ← m; raise_for_status r;; response_json r) w).1.1 = Ok j →
                   ∃ r, raises_for_status (status_code r) = false ∧ body r = Some j
                        ∧ x = HttpResp r) as Hbody.
  { intros m ev x w1 Hm. rewrite bind_run, Hm.
    destruct x as [msg|r]; cbn [of_http prepend]; [done|].
    rewrite bind_run. unfold raise_for_status, response_json.
    destruct (raises_for_status (status_code r)) eqn:Hr; [done|]. simpl.
    destruct (body r) as [j|] eqn:Hb; simpl; [|done].
    split; [done|]. intros j' [= <-]. by exists r. }
  destruct (String.eqb up "GET") eqn:Hget; [apply String.eqb_eq in Hget|
    apply String.eqb_neq in Hget];
    (destruct (String.eqb up "POST") eqn:Hpost; [apply String.eqb_eq in Hpost|
       apply String.eqb_neq in Hpost]); cbn [orb negb].
  - congruence.
  - destruct (env_get params w) as [x w1] eqn:Hx.
    destruct (Hbody (session_get params) (EvGet params) x w1) as [Hev Hok].
    { unfold session_get. by rewrite Hx. }
    split; [done|]. split; [done|]. split; [congruence|].
    intros j Hj. destruct (Hok j Hj) as (r & Hr & Hb & ->). exists r. auto.
  - destruct (env_post params (default ∅ data) w) as [x w1] eqn:Hx.
    destruct (Hbody (session_post params (default ∅ data))
                (EvPost params (default ∅ data)) x w1) as [Hev Hok].
    { unfold session_post. by rewrite Hx. }
    split; [done|]. split; [congruence|]. split; [done|].
    intros j Hj. destruct (Hok j Hj) as (r & Hr & Hb & ->). exists r. auto.
  - split; [by eexists|]. done.
Qed.

End Requests.

Lemma mw_request_one_request_witness :
  (∃ msg, mw_request (env := script_env) "PUT" label_params None world_denied
          = (Raise (ValueError msg), world_denied, []))
  ∧ (mw_request (env := script_env) "get" label_params (Some label_data) world_denied).2
    = [EvGet label_params]
  ∧ (mw_request (env := script_env) "Post" label_params None world_denied).2
    = [EvPost label_params ∅].
Proof.
  destruct (mw_request_one_request (env := script_env) "PUT" label_params None
              world_denied) as (Hput & _).
  destruct (mw_request_one_request (env := script_env) "get" label_params
              (Some label_data) world_denied) as (_ & Hget & _).
  destruct (mw_request_one_request (env := script_env) "Post" label_params None
              world_denied) as (_ & _ & Hpost & _).
  split; [by apply Hput|]. split; [by apply Hget | by apply Hpost].
Defined.

(* ===================================================================== *)
(** ** More on the statement reconciler *)
(* ===================================================================== *)

Section StatementsMore.

Context {W : Type} {env : Env W} {lib : PyLib}.

Implicit Types (w : W).

(** X14.  [ensure_statement] sends nothing for an entity id that is not
    the letter M followed by digits (a blank one included), nor for a
    resolver URL that is blank or does not start with http:// or https://:
    it raises [ValueError] before any request. *)
Theorem ensure_statement_rejects csrf mid url w :
  is_mid mid = false
  ∨ Py.is_empty (Py.strip url) = true
  ∨ (Py.startswith "http://" url || Py.startswith "https://" url) = false →
  ∃ msg, ensure_statement csrf mid url w = (Raise (ValueError msg), w, []).
Proof.
  intros Hbad. unfold ensure_statement.
  destruct (Py.is_empty (Py.strip mid)) eqn:Hblank; [by eexists|].
  destruct (Py.is_empty (Py.strip url)) eqn:Hu1; [by eexists|].
  destruct (Py.startswith "http://" url || Py.startswith "https://" url) eqn:Hu2;
    cbn [negb orb]; [|by eexists].
  destruct Hbad as [Hmid | [? | ?]]; try done.
  rewrite bind_run. unfold get_p7482_claims. rewrite Hmid. cbn [negb].
  cbn [mret M_ret ret prepend List.find]. rewrite bind_run.
  unfold create_p7482_claim. rewrite Hmid. cbn [negb].
  destruct (Py.is_empty (Py.strip csrf)); by eexists.
Qed.

(** X15.  When the first statement of value Q74228490 that the read
    returns has neither qualifier and the remote end accepts both writes,
    [ensure_statement] returns "updated" after exactly two writes on that
    statement, the URL qualifier P973 first and the operator P137 second;
    it creates nothing. *)
Theorem both_qualifiers_are_added token mid url existing target cid
    r1 j1 r2 j2 (w w1 w2 w3 : W) evs0 :
  Py.is_empty token = false →
  Py.is_empty (Py.strip mid) = false →
  valid_resolver_url url →
  get_p7482_claims mid w = (Ok existing, w1, evs0) →
  List.find (λ cl, claim_has_value_q cl Q_FILE_ONLINE) existing = Some target →
  Dyn.get target "id" = inr (JStr cid) →
  Py.is_empty (Py.strip cid) = false →
  claim_has_qualifier_url target P_DESCRIBED_AT_URL url = inr false →
  claim_has_qualifier_q target P_OPERATOR Q_DELPHER = inr false →
  let p := stable_params set_qualifier_params in
  let d1 := with_auth token
              (set_qualifier_data token cid P_DESCRIBED_AT_URL (JStr (Py.strip url))) in
  let d2 := with_auth token
              (set_qualifier_data token cid P_OPERATOR (item_value Q_DELPHER)) in
  env_post p d1 w1 = (HttpResp r1, w2) →
  200 <= status_code r1 < 300 → body r1 = Some j1 → has_error_key j1 = inr false →
  env_post p d2 w2 = (HttpResp r2, w3) →
  200 <= status_code r2 < 300 → body r2 = Some j2 → has_error_key j2 = inr false →
  ensure_statement token mid url w =
    (Ok ("updated", JStr cid, token), w3, evs0 ++ [EvPost p d1; EvPost p d2])
  ∧ writes (evs0 ++ [EvPost p d1; EvPost p d2])
    = [("wbsetqualifier", "P973"); ("wbsetqualifier", "P137")].
Proof.
  intros Htok Hmid (Hu1 & Hu2 & Hu3) Hread Hfind Hid Hcid Hurl Hq p d1 d2
    Hpost1 Hst1 Hbody1 Hkey1 Hpost2 Hst2 Hbody2 Hkey2.
  assert (∀ what, set_qualifier what token cid P_DESCRIBED_AT_URL (JStr (Py.strip url)) w1
                  = (Ok (j1, token), w2, [EvPost p d1])) as Hset1.
  { intros what. unfold set_qualifier. rewrite bind_run.
    rewrite (mw_mutate_accepted _ _ _ _ _ _ _ Htok Hpost1 Hst1 Hbody1 Hkey1).
    cbn [prepend]. rewrite bind_run, Hkey1. reflexivity. }
  assert (∀ what, set_qualifier what token cid P_OPERATOR (item_value Q_DELPHER) w2
                  = (Ok (j2, token), w3, [EvPost p d2])) as Hset2.
  { intros what. unfold set_qualifier. rewrite bind_run.
    rewrite (mw_mutate_accepted _ _ _ _ _ _ _ Htok Hpost2 Hst2 Hbody2 Hkey2).
    cbn [prepend]. rewrite bind_run, Hkey2. reflexivity. }
  split.
  - unfold ensure_statement. rewrite Hmid, Hu1, Hu2. cbn [negb orb].
    rewrite bind_run, Hread, Hfind. cbn [prepend].
    rewrite bind_run, Hid. cbn [lift prepend mret M_ret ret].
    rewrite bind_run, Hurl. cbn [lift prepend mret M_ret ret negb].
    rewrite bind_run, bind_run.
    unfold add_qualifier_url. rewrite Hcid, Hu1, Hu3. cbn [negb].
    change (Py.is_empty (Py.strip P_DESCRIBED_AT_URL)) with false. cbv iota.
    rewrite (Hset1 _). cbn [prepend mret M_ret ret].
    rewrite bind_run, Hq. cbn [lift prepend mret M_ret ret negb].
    rewrite bind_run, bind_run.
    unfold add_qualifier_q. rewrite Hcid. cbn [negb].
    change (Py.is_empty (Py.strip P_OPERATOR)) with false.
    change (Q_DELPHER <=? 0) with false. cbv iota.
    rewrite (Hset2 _). unfold prepend, mret, M_ret, ret.
    by rewrite ?app_nil_r.
  - unfold writes. rewrite omap_app.
    pose proof (get_p7482_claims_reads_only mid w) as Hnone.
    rewrite Hread in Hnone. unfold writes in Hnone. simpl in Hnone. rewrite Hnone.
    subst p d1 d2. vm_compute. reflexivity.
Qed.

(** X16.  Against any remote end: when the first statement of value
    Q74228490 that the read returns has both qualifiers, [ensure_statement]
    returns "already-present" with the id of that statement and the token
    it was given, after the read alone: it writes nothing. *)
Theorem complete_statement_is_left_alone token mid url existing target cid
    (w w1 : W) evs0 :
  Py.is_empty (Py.strip mid) = false →
  Py.is_empty (Py.strip url) = false →
  (Py.startswith "http://" url || Py.startswith "https://" url) = true →
  get_p7482_claims mid w = (Ok existing, w1, evs0) →
  List.find (λ cl, claim_has_value_q cl Q_FILE_ONLINE) existing = Some target →
  Dyn.get target "id" = inr cid →
  claim_has_qualifier_url target P_DESCRIBED_AT_URL url = inr true →
  claim_has_qualifier_q target P_OPERATOR Q_DELPHER = inr true →
  ensure_statement token mid url w = (Ok ("already-present", cid, token), w1, evs0)
  ∧ writes evs0 = []
  ∧ Forall (λ e, is_get e = true) evs0.
Proof.
  intros Hmid Hu1 Hu2 Hread Hfind Hid Hurl Hq. split; [|split].
  - unfold ensure_statement. rewrite Hmid, Hu1, Hu2. cbn [negb orb].
    rewrite bind_run, Hread, Hfind. cbn [prepend].
    rewrite bind_run, Hid. cbn [lift prepend mret M_ret ret].
    rewrite bind_run, Hurl. cbn [lift prepend mret M_ret ret negb].
    rewrite bind_run. cbn [mret M_ret ret prepend].
    rewrite bind_run, Hq. cbn [lift prepend mret M_ret ret negb].
    rewrite bind_run. unfold prepend, mret, M_ret, ret. by rewrite ?app_nil_r.
  - pose proof (get_p7482_claims_reads_only mid w) as Hnone. by rewrite Hread in Hnone.
  - assert (sat (λ e, is_get e = true) (λ _ : list json, True) (λ _, True)
              (get_p7482_claims mid)) as Hs.
    { unfold get_p7482_claims, mw_request, raise_for_status, response_json.
      change (Py.upper "GET") with "GET". cbn [String.eqb Ascii.eqb Bool.eqb orb negb].
      sat_auto. }
    pose proof (proj1 (Hs w)) as Hl. by rewrite Hread in Hl.
Qed.

End StatementsMore.

Lemma ensure_statement_rejects_witness :
  is_mid "M12 and more" = false
  ∧ ∃ msg, ensure_statement (lib := sample_lib) "tok" "M12 and more" sample_url wiki_fresh
           = (Raise (ValueError msg), wiki_fresh, []).
Proof.
  split; [reflexivity|].
  apply (ensure_statement_rejects (env := wiki_env) (lib := sample_lib)).
  left. reflexivity.
Defined.

Lemma both_qualifiers_are_added_witness :
  ∃ w3 evs,
    ensure_statement (lib := sample_lib) "tok" "M109018409" sample_url wiki_bare
      = (Ok ("updated", JStr "M109018409$3", "tok"), w3, evs)
    ∧ writes evs = [("wbsetqualifier", "P973"); ("wbsetqualifier", "P137")].
Proof.
  eexists. eexists.
  apply (both_qualifiers_are_added (env := wiki_env) (lib := sample_lib)
           "tok" "M109018409" sample_url
           [other_value_claim; bare_claim "M109018409$3"]
           (bare_claim "M109018409$3") "M109018409$3"
           write_done success write_done success
           wiki_bare wiki_bare
           (wiki_with [other_value_claim; url_only_claim "M109018409$3"]));
    try reflexivity.
  - repeat split; reflexivity.
  - simpl. lia.
  - simpl. lia.
Defined.

Lemma complete_statement_is_left_alone_witness :
  ensure_statement (lib := sample_lib) "tok" "M109018409" sample_url wiki_two_claims
    = (Ok ("already-present", JStr "M109018409$2", "tok"), wiki_two_claims,
       [EvGet (get_claims_params "M109018409")])
  ∧ writes [EvGet (get_claims_params "M109018409")] = []
  ∧ Forall (λ e, is_get e = true) [EvGet (get_claims_params "M109018409")].
Proof.
  apply (complete_statement_is_left_alone (env := wiki_env) (lib := sample_lib)
           "tok" "M109018409" sample_url
           [reconciled_claim "M109018409$2" sample_url; url_only_claim "M109018409$3"]
           (reconciled_claim "M109018409$2" sample_url) (JStr "M109018409$2")
           wiki_two_claims wiki_two_claims);
    reflexivity.
Defined.

(* ===================================================================== *)
(** ** More on labels and titles *)
(* ===================================================================== *)

(** The loop of [get_existing_labels] keeps trimmed texts that are not
    empty, and nothing else. *)
Lemma collect_labels_trimmed items (out out' : gmap string string) :
  map_Forall (λ _ v, Py.is_empty v = false ∧ Py.strip v = v) out →
  collect_labels items out = inr out' →
  map_Forall (λ _ v, Py.is_empty v = false ∧ Py.strip v = v) out'.
Proof.
  revert out. induction items as [|[lang obj] items IH]; intros out Hout; simpl.
  - by intros [= <-].
  - destruct (Dyn.get_default (Dyn.or_empty_dict obj) "value" (JStr "")) as [e|val];
      simpl; [done|].
    destruct val as [| | |v| |]; try by apply IH.
    destruct (Py.is_empty (Py.strip v)) eqn:Hv; [by apply IH|].
    apply IH. apply map_Forall_insert_2; [|done].
    split; [done | apply strip_idem].
Qed.

Section LabelsMore.

Context {W : Type} {env : Env W} {lib : PyLib}.

Implicit Types (w : W).

(** X17.  The labels [get_existing_labels] returns are trimmed and not
    empty: a label that the wiki stores as blank text counts as missing.
    For an id that is not the letter M followed by digits the function
    raises [ValueError] and sends nothing. *)
Theorem existing_labels_are_trimmed mid w :
  match (get_existing_labels mid w).1.1 with
  | Ok labels =>
      ∀ lang v, labels !! lang = Some v → Py.is_empty v = false ∧ Py.strip v = v
  | _ => True
  end
  ∧ (is_mid mid = false →
     ∃ msg, get_existing_labels mid w = (Raise (ValueError msg), w, [])).
Proof.
  split.
  - assert (sat (λ _, True)
              (map_Forall (λ (_ : string) v, Py.is_empty v = false ∧ Py.strip v = v))
              (λ _, True) (get_existing_labels mid)) as Hs.
    { unfold get_existing_labels, mw_request, raise_for_status, response_json.
      change (Py.upper "GET") with "GET". cbn [String.eqb Ascii.eqb Bool.eqb orb negb].
      repeat sat_step; try done; try apply map_Forall_empty.
      all: try (eapply collect_labels_trimmed; [apply map_Forall_empty | eassumption]). }
    pose proof (proj2 (Hs w)) as Hq.
    destruct ((get_existing_labels mid w).1.1); [|done..].
    intros lang v Hv. exact (Hq lang v Hv).
  - intros Hmid. unfold get_existing_labels.
    destruct (Py.is_empty (Py.strip mid)); [by eexists|]. rewrite Hmid. by eexists.
Qed.

(** X18.  [set_label] lets no HTTP or transport error through: what it
    raises is a [ValueError] for its own arguments, a [RuntimeError] for
    any failure of the write, or the [AttributeError] of an error payload
    that is no dict.  With an id that is not a MID, or a blank language or
    text, nothing is sent.  Every write request it sends is a wbsetlabel
    for the trimmed id and language, with the text as given. *)
Theorem set_label_failures csrf mid lang value w :
  let run := set_label csrf mid lang value w in
  match run.1.1 with
  | Ok _ => True
  | Raise e => (∃ msg, e = ValueError msg ∨ e = RuntimeError msg) ∨ e = AttributeError
  | OutOfFuel => False
  end
  ∧ (is_mid mid = false ∨ Py.is_empty (Py.strip lang) = true
     ∨ Py.is_empty (Py.strip value) = true →
     ∃ msg, run = (Raise (ValueError msg), w, []))
  ∧ (∀ p d, EvPost p d ∈ run.2 →
       p !! "action" = Some (FStr "wbsetlabel")
       ∧ d !! "id" = Some (FStr (Py.strip mid))
       ∧ d !! "language" = Some (FStr (Py.strip lang))
       ∧ d !! "value" = Some (FStr value)).
Proof.
  intros run. subst run. split; [|split].
  - assert (sat (λ _, True) (λ _ : json, True)
              (λ e, (∃ msg, e = ValueError msg ∨ e = RuntimeError msg) ∨ e = AttributeError)
              (set_label csrf mid lang value)) as Hs.
    { unfold set_label.
      pose proof (mw_mutate_total (λ _, True) 4 1 csrf {[ "action" := FStr "wbsetlabel" ]}
                    (Some (set_label_data mid lang value))
                    ltac:(done) ltac:(done) ltac:(done)) as Hmut.
      fold (mw_mutate csrf {[ "action" := FStr "wbsetlabel" ]}
              (Some (set_label_data mid lang value))) in Hmut.
      repeat match goal with
             | |- sat _ _ _ (if ?b then raise _ else _) =>
                 destruct b; [apply sat_raise; left; eexists; by left|]
             end.
      eapply (sat_bind _ (λ _, True)).
      - apply (sat_try _ _ (λ e, is_Exception e = true)); [exact Hmut|].
        intros e He. destruct e; try done;
          apply sat_raise; left; eexists; by right.
      - intros [j t] _.
        destruct j as [| | | | |jd]; try by apply sat_ret.
        destruct (Dyn.assoc "error" jd) as [err|]; [|by apply sat_ret].
        eapply (sat_bind _ (λ _, True)).
        { apply sat_lift; [done|]. intros e He. right. destruct err; simpl in He; congruence. }
        intros code _. eapply (sat_bind _ (λ _, True)).
        { apply sat_lift; [done|]. intros e He. right. destruct err; simpl in He; congruence. }
        intros info _. apply sat_raise. left. eexists. by right. }
    exact (proj2 (Hs w)).
  - intros Hbad. unfold set_label.
    destruct (Py.is_empty (Py.strip mid) || negb (is_mid mid)) eqn:Hm; [by eexists|].
    destruct (Py.is_empty (Py.strip lang)) eqn:Hl; [by eexists|].
    destruct (Py.is_empty (Py.strip value)) eqn:Hv; [by eexists|].
    apply orb_false_iff in Hm as [_ Hm]. apply negb_false_iff in Hm.
    destruct Hbad as [? | [? | ?]]; congruence.
  - intros p d. unfold set_label.
    repeat match goal with
           | |- context [if ?b then raise _ else _] =>
               destruct b; [simpl; by intros ?%elem_of_nil|]
           end.
    rewrite bind_run, try_run.
    assert (∀ l : list event, EvPost p d ∈ l →
                 (∀ p' d', EvPost p' d' ∈ l → EvPost p' d' ∈
                    (mw_mutate csrf {[ "action" := FStr "wbsetlabel" ]}
                       (Some (set_label_data mid lang value)) w).2) →
                 p !! "action" = Some (FStr "wbsetlabel")
                 ∧ d !! "id" = Some (FStr (Py.strip mid))
                 ∧ d !! "language" = Some (FStr (Py.strip lang))
                 ∧ d !! "value" = Some (FStr value)) as Hshape.
    { intros l Hin Hall.
      destruct (mw_mutate_post_shape _ _ _ _ _ _ _ _ (Hall _ _ Hin)) as [-> (t & ->)].
      rewrite stable_params_action, !with_auth_fields. done. }
    destruct (mw_mutate _ _ _ w) as [[[[j t]|e|] w1] l1] eqn:Hrun; cbn [fst snd] in *.
    + cbn [prepend]. 
      assert (∀ (m : M json), (∀ w, (m w).2 = []) →
                EvPost p d ∈ (prepend l1 (m w1)).2 → EvPost p d ∈ l1) as Hquiet.
      { intros m Hm. specialize (Hm w1). destruct (m w1) as [[o w2] l2].
        simpl in *. subst l2. by rewrite app_nil_r. }
      intros Hin. apply (Hshape l1); [|done].
      revert Hin. apply Hquiet. intros w0.
      destruct j as [| | | | |jd]; try done.
      destruct (Dyn.assoc "error" jd) as [err|]; [|done].
      rewrite bind_run. destruct (Dyn.get err "code") as [e|code]; [done|]. simpl.
      rewrite bind_run. by destruct (Dyn.get err "info").
    + destruct e; simpl; rewrite ?app_nil_r; intros Hin; by apply (Hshape l1).
    + simpl. intros Hin. by apply (Hshape l1).
Qed.


End LabelsMore.

(* ===================================================================== *)
(** ** What a run does to the frame *)
(* ===================================================================== *)

Lemma keeps_inputs_setters :
  keeps_inputs set_SDCStatus ∧ keeps_inputs set_CaptionENStatus
  ∧ keeps_inputs set_CaptionNLStatus ∧ keeps_inputs set_CaptionCandidate.
Proof. repeat split. Qed.

Lemma frame_step_refl rows df : frame_step rows df df.
Proof. split; [done|]. intros j r Hr. by exists r. Qed.

Lemma frame_step_set rows set i v df0 df :
  keeps_inputs set → i ∈ rows →
  frame_step rows df0 df → frame_step rows df0 (df_set set i v df).
Proof.
  intros Hset Hi [Hlen Hrows]. split; [by rewrite df_set_length|].
  intros j r Hr. destruct (Hrows j r Hr) as (r' & Hr' & Hu & Hres & Hsame).
  unfold df_set. destruct (decide (j = i)) as [->|Hne].
  - exists (set v r'). rewrite list_lookup_alter_eq, Hr'. simpl.
    destruct (Hset v r') as [-> ->]. done.
  - exists r'. by rewrite list_lookup_alter_ne.
Qed.

Lemma frame_step_set_if_empty rows col set i v df0 df :
  keeps_inputs set → i ∈ rows →
  frame_step rows df0 df → frame_step rows df0 (df_set_if_empty col set i v df).
Proof.
  intros Hset Hi Hdf. unfold df_set_if_empty.
  destruct (Py.is_empty _); [by apply frame_step_set | done].
Qed.

Section FrameInvariant.

Context {W : Type} {env : Env W} {lib : PyLib}.
Variable cfg : Config.

(** A property of the frame that filling in a result cell of the row [i]
    keeps. *)
Variable i : nat.
Variable inv : list Row → Prop.
Hypothesis inv_set : ∀ set v df, keeps_inputs set → inv df → inv (df_set set i v df).

Implicit Types (w : W) (df : list Row) (st : LoopState).

Lemma inv_set_if_empty col set v df :
  keeps_inputs set → inv df → inv (df_set_if_empty col set i v df).
Proof using inv_set.
  intros Hset Hdf. unfold df_set_if_empty. destruct (Py.is_empty _); auto.
Qed.

Lemma statement_part_inv mid resolver df csrf :
  inv df →
  sat (W:=W) (λ _, True) (λ r, inv r.1.1) (λ _, True)
    (statement_part i mid resolver df csrf).
Proof using inv_set.
  intros Hdf. unfold statement_part.
  apply (sat_try _ _ (λ _, True)).
  - destruct (_ && _).
    + eapply (sat_bind _ (λ _, True)).
      { eapply sat_mono; [apply sat_ensure_statement | done..]. }
      intros [[status cid] csrf'] _. apply sat_ret. simpl.
      apply inv_set; [apply keeps_inputs_setters | done].
    + apply sat_ret. simpl. apply inv_set; [apply keeps_inputs_setters | done].
  - intros e _. destruct (caught_message e); [|by apply sat_raise].
    apply sat_ret. simpl. apply inv_set; [apply keeps_inputs_setters | done].
Qed.

Lemma captions_failed_inv df changed opened e :
  inv df →
  sat (W:=W) (λ _, True) (λ r, inv r.1.1) (λ _, True)
    (captions_failed i df changed opened e).
Proof using inv_set.
  intros Hdf. unfold captions_failed.
  destruct (caught_message e); [|by apply sat_raise].
  apply sat_ret. simpl.
  repeat (apply inv_set_if_empty; [apply keeps_inputs_setters|]). done.
Qed.

Lemma caption_lang_inv set lang mid candidate csrf labels df changed :
  keeps_inputs set → inv df →
  sat (W:=W) (λ _, True) (λ r, inv r.1) (λ _, True)
    (caption_lang set lang i mid candidate csrf labels df changed).
Proof using inv_set.
  intros Hset Hdf. unfold caption_lang.
  destruct (labels !! lang).
  - apply sat_ret. simpl. by apply inv_set.
  - eapply (sat_bind _ (λ _, True)).
    + eapply sat_mono; [apply sat_set_label_any | done..].
    + intros j _. apply sat_ret. simpl. by apply inv_set.
Qed.

Lemma captions_nl_inv mid candidate csrf labels df changed opened :
  inv df →
  sat (W:=W) (λ _, True) (λ r, inv r.1.1) (λ _, True)
    (captions_nl cfg i mid candidate csrf labels df changed opened).
Proof using inv_set.
  intros Hdf. unfold captions_nl.
  apply (sat_try _ _ (λ _, True)); [|intros e _; by apply captions_failed_inv].
  eapply sat_bind; [apply caption_lang_inv; [apply keeps_inputs_setters | done]|].
  intros [df1 ch1] Hdf1. simpl in Hdf1.
  destruct (_ && _ && _).
  - eapply (sat_bind _ (λ _, True)).
    + unfold open_page_in_browser. sat_auto; done.
    + intros [] _. by apply sat_ret.
  - by apply sat_ret.
Qed.

Lemma captions_langs_inv mid candidate csrf labels df changed opened :
  inv df →
  sat (W:=W) (λ _, True) (λ r, inv r.1.1) (λ _, True)
    (captions_langs cfg i mid candidate csrf labels df changed opened).
Proof using inv_set.
  intros Hdf. unfold captions_langs.
  apply (sat_try _ _ (λ _, True)); [|intros e _; by apply captions_failed_inv].
  eapply sat_bind; [apply caption_lang_inv; [apply keeps_inputs_setters | done]|].
  intros [df1 ch1] Hdf1. simpl in Hdf1. by apply captions_nl_inv.
Qed.

Lemma captions_part_inv mid pageid live_title csrf df changed opened :
  inv df →
  sat (W:=W) (λ _, True) (λ r, inv r.1.1) (λ _, True)
    (captions_part cfg i mid pageid live_title csrf df changed opened).
Proof using inv_set.
  intros Hdf. unfold captions_part.
  apply (sat_try _ _ (λ _, True)); [|intros e _; by apply captions_failed_inv].
  eapply (sat_bind _ (λ _, True)).
  { destruct pageid as [n|]; [destruct (n =? 0)|]; sat_auto; done. }
  intros pid _.
  eapply (sat_bind _ (λ _, True)).
  { destruct live_title as [t|]; [by apply sat_ret|].
    eapply (sat_bind _ (λ _, True)).
    - eapply sat_mono; [apply sat_get_live_file_title | done..].
    - intros [t|] _; sat_auto; done. }
  intros t _. cbv zeta.
  assert (inv (df_set set_CaptionCandidate i (derive_caption_from_live_title t) df))
    as Hdfc by (apply inv_set; [apply keeps_inputs_setters | done]).
  apply (sat_try _ _ (λ _, True)); [|intros e _; by apply captions_failed_inv].
  destruct (Py.is_empty _).
  - apply sat_ret. simpl.
    repeat (apply inv_set_if_empty; [apply keeps_inputs_setters|]). done.
  - eapply (sat_bind _ (λ _, True)).
    + assert (sat (W:=W) (λ _, True) (λ _ : gmap string string, True) (λ _, True)
                (get_existing_labels mid)) as Hs; [|exact Hs].
      unfold get_existing_labels, mw_request, raise_for_status, response_json.
      change (Py.upper "GET") with "GET". cbn [String.eqb Ascii.eqb Bool.eqb orb negb].
      sat_auto; done.
    + intros labels _. by apply captions_langs_inv.
Qed.

(** The work on the row [i] keeps the property. *)
Lemma process_row_inv row st w st' w' l :
  inv (ls_df st) →
  process_row cfg i row st w = (Ok st', w', l) →
  inv (ls_df st').
Proof using inv_set.
  intros Hdf. unfold process_row. destruct (extract_mid (URL row)) as [mid|].
  - intros Hrun.
    apply bind_ok_inv in Hrun as (pageid & w1 & l1 & l1' & Hpid & Hrun & ->).
    apply bind_ok_inv in Hrun as (title & w2 & l2 & l2' & Htitle & Hrun & ->).
    apply bind_ok_inv in Hrun as ([[df1 csrf1] ch1] & w3 & l3 & l3' & Hstmt & Hrun & ->).
    apply bind_ok_inv in Hrun as ([[df2 ch2] op2] & w4 & l4 & l4' & Hcap & Hrun & ->).
    apply bind_ok_inv in Hrun as ([] & w5 & l5 & l5' & Hend & Hrun & ->).
    apply bind_ok_inv in Hrun as (ssf & w6 & l6 & l6' & Hcp & Hrun & ->).
    apply bind_ok_inv in Hrun as ([] & w7 & l7 & l7' & Hsleep & Hrun & ->).
    injection Hrun as <- _ _. simpl.
    destruct (sat_run _ _ _ _ _ _ _ _ (statement_part_inv _ _ _ _ Hdf) Hstmt)
      as [_ Hdf1]. simpl in Hdf1.
    by destruct (sat_run _ _ _ _ _ _ _ _ (captions_part_inv _ _ _ _ _ _ _ Hdf1) Hcap)
      as [_ Hdf2].
  - intros [= <- _ _]. simpl.
    repeat (apply inv_set_if_empty; [apply keeps_inputs_setters|]).
    apply inv_set; [apply keeps_inputs_setters | done].
Qed.

End FrameInvariant.

Section FrameOfARun.

Context {W : Type} {env : Env W} {lib : PyLib}.
Variable cfg : Config.

Implicit Types (w : W) (df : list Row) (st : LoopState).

Lemma main_loop_frame_step rows df0 work st w st' w' l :
  work.*1 ⊆ rows →
  frame_step rows df0 (ls_df st) →
  main_loop cfg work st w = (Ok st', w', l) →
  frame_step rows df0 (ls_df st').
Proof.
  revert st w l. induction work as [|[i row] work IH]; intros st w l Hsub Hdf; simpl.
  - by intros [= <- _ _].
  - intros Hrun.
    apply bind_ok_inv in Hrun as (st1 & w1 & l1 & l2 & Hrow & Hrest & ->).
    assert (i ∈ rows) as Hi by (apply Hsub; simpl; by left).
    eapply IH; [|..|exact Hrest].
    + intros j Hj. apply Hsub. simpl. by right.
    + eapply (process_row_inv cfg i (frame_step rows df0)); [|exact Hdf|exact Hrow].
      intros set v df Hset Hinv. by apply frame_step_set.
Qed.

(** X20.  A run of the loop of [main] that comes to its end leaves the
    frame with the rows it had.  The input cells, URL and ResolverURL, are
    what they were in every row, and a row that is not part of the
    workload is what it was in every cell: the loop only fills in result
    cells of the rows it was given. *)
Theorem main_loop_only_fills_results work st w st' w' l :
  main_loop cfg work st w = (Ok st', w', l) →
  length (ls_df st') = length (ls_df st)
  ∧ ∀ j r, ls_df st !! j = Some r →
      ∃ r', ls_df st' !! j = Some r'
            ∧ URL r' = URL r ∧ ResolverURL r' = ResolverURL r
            ∧ (j ∉ work.*1 → r' = r).
Proof.
  intros Hrun.
  apply (main_loop_frame_step (work.*1) (ls_df st) work st w st' w' l);
    [done | apply frame_step_refl | done].
Qed.

End FrameOfARun.

Lemma slice_run_ends : slice_run = (Ok slice_state, slice_run.1.2, slice_run.2).
Proof.
  assert (is_ok slice_run.1.1 = true) as Hok by (vm_compute; reflexivity).
  unfold slice_state. by destruct slice_run as [[[st|e|] w] l].
Qed.

Lemma main_loop_only_fills_results_witness :
  slice_work.*1 = [2; 3]%nat
  ∧ length (ls_df slice_state) = length sheet
  ∧ ∀ j r, sheet !! j = Some r →
      ∃ r', ls_df slice_state !! j = Some r'
            ∧ URL r' = URL r ∧ ResolverURL r' = ResolverURL r
            ∧ (j ∉ slice_work.*1 → r' = r).
Proof.
  split; [vm_compute; reflexivity|].
  apply (main_loop_only_fills_results (env := wiki_env) (lib := sample_lib) checkpoint_3
           slice_work (mkLoop sheet "tok" 0 0) wiki_sheet slice_state
           slice_run.1.2 slice_run.2).
  exact slice_run_ends.
Defined.

(* ===================================================================== *)
(** ** Browser tabs *)
(* ===================================================================== *)

Lemma tabs_app l1 l2 : tabs (l1 ++ l2) = tabs l1 + tabs l2.
Proof. unfold tabs. rewrite List.filter_app, length_app. lia. Qed.

Lemma tabs_quiet l : Forall quiet l → tabs l = 0.
Proof.
  unfold tabs. induction 1 as [|e l He _ IH]; [done|]. simpl. by rewrite He.
Qed.

Lemma tabs_nonneg l : 0 <= tabs l.
Proof. unfold tabs. lia. Qed.

(** Decomposition for code that calls the API and waits, for any property
    of events these calls have. *)
Ltac net_auto :=
  repeat first
    [ apply sat_mw_mutate; [done | done | done]
    | apply sat_mw_request; [done | done]
    | sat_step ];
  try done.

Section Quiet.

Context {W : Type} {env : Env W} {lib : PyLib}.

Implicit Types (w : W) (df : list Row).

Lemma quiet_get_live_file_title n :
  sat (W:=W) quiet (λ _, True) (λ _, True) (get_live_file_title n).
Proof. unfold get_live_file_title. net_auto. Qed.

Lemma quiet_statement_part i mid resolver df csrf :
  sat (W:=W) quiet (λ _, True) (λ _, True) (statement_part i mid resolver df csrf).
Proof.
  unfold statement_part, ensure_statement, get_p7482_claims, create_p7482_claim,
    add_qualifier_url, add_qualifier_q, set_qualifier.
  net_auto.
Qed.

Lemma quiet_get_existing_labels mid :
  sat (W:=W) quiet (λ _, True) (λ _, True) (get_existing_labels mid).
Proof. unfold get_existing_labels. net_auto. Qed.

Lemma quiet_caption_lang set lang i mid candidate csrf labels df changed :
  sat (W:=W) quiet (λ _, True) (λ _, True)
    (caption_lang set lang i mid candidate csrf labels df changed).
Proof. unfold caption_lang, set_label. net_auto. Qed.

Lemma quiet_write_back df :
  sat (W:=W) quiet (λ _, True) (λ _, True) (write_back df).
Proof.
  unfold write_back.
  eapply (sat_bind _ (λ _, True)); [by apply sat_emit|]. intros _ _.
  eapply (sat_bind _ (λ _, True)).
  - intros w. by destruct (env_write df w) as [b w1].
  - intros [] _; net_auto.
Qed.

End Quiet.

Section Tabs.

Context {W : Type} {env : Env W} {lib : PyLib}.
Variable cfg : Config.

Implicit Types (w : W) (df : list Row) (st : LoopState).

(** After a step without tabs, the rule depends on what follows. *)
Lemma tabs_counted_bind {A B} opened (get : B → Z) (m : M A) (f : A → M B) w :
  sat (W:=W) quiet (λ _, True) (λ _, True) m →
  (∀ a w1, tabs_counted cfg opened get (f a w1)) →
  tabs_counted cfg opened get ((m ≫= f) w).
Proof.
  intros Hm Hf. rewrite bind_run.
  pose proof (tabs_quiet _ (proj1 (Hm w))) as Hq.
  destruct (m w) as [[[a|e|] w1] l1]; simpl in Hq; try by (split; [done|]).
  specialize (Hf a w1). destruct (f a w1) as [[o w2] l2].
  unfold tabs_counted in *. simpl in *. rewrite tabs_app, Hq. simpl. exact Hf.
Qed.

(** What the [except] clauses of the caption block do opens no tab and
    leaves the counter as the block found it. *)
Lemma tabs_counted_try opened i df changed
    (m : M (list Row * bool * Z)) w :
  tabs_counted cfg opened (λ r, r.2) (m w) →
  tabs_counted cfg opened (λ r, r.2)
    (try_except m (captions_failed i df changed opened) w).
Proof.
  intros Hm. rewrite try_run.
  destruct (m w) as [[[a|e|] w1] l1]; try done.
  destruct Hm as [Hoff Hn]. simpl in Hoff, Hn.
  unfold captions_failed.
  destruct (caught_message e) as [msg|]; unfold tabs_counted; simpl;
    rewrite app_nil_r, Hn; repeat split; lia.
Qed.

Lemma captions_nl_tabs i mid candidate csrf labels df changed opened w :
  tabs_counted cfg opened (λ r, r.2)
    (captions_nl cfg i mid candidate csrf labels df changed opened w).
Proof.
  unfold captions_nl. apply tabs_counted_try.
  apply tabs_counted_bind; [apply quiet_caption_lang|].
  intros [df1 ch1] w1.
  destruct (negb (OPEN_AFTER_SUCCESS cfg =? 0)) eqn:Hon; cbn [andb];
    [|unfold tabs_counted, tabs; simpl; repeat split; lia].
  destruct (opened <? OPEN_AFTER_SUCCESS_MAX cfg) eqn:Hcap; cbn [andb];
    [|unfold tabs_counted, tabs; simpl; repeat split; lia].
  apply negb_true_iff, Z.eqb_neq in Hon. apply Z.ltb_lt in Hcap.
  destruct (_ || _); [|unfold tabs_counted, tabs; simpl; repeat split; lia].
  unfold open_page_in_browser.
  destruct (Py.is_empty (Py.strip mid));
    unfold tabs_counted, tabs; simpl; repeat split; lia.
Qed.

Lemma captions_part_tabs i mid pageid live_title csrf df changed opened w :
  tabs_counted cfg opened (λ r, r.2)
    (captions_part cfg i mid pageid live_title csrf df changed opened w).
Proof.
  unfold captions_part. apply tabs_counted_try.
  apply tabs_counted_bind.
  { destruct pageid as [n|]; [destruct (n =? 0)|]; net_auto. }
  intros pid w1. apply tabs_counted_bind.
  { destruct live_title as [t|]; [by apply sat_ret|].
    eapply (sat_bind _ (λ _, True)); [apply quiet_get_live_file_title|].
    intros [t|] _; net_auto. }
  intros t w2. cbv zeta. apply tabs_counted_try.
  destruct (Py.is_empty _); [unfold tabs_counted, tabs; simpl; repeat split; lia|].
  apply tabs_counted_bind; [apply quiet_get_existing_labels|].
  intros labels w3. unfold captions_langs. apply tabs_counted_try.
  apply tabs_counted_bind; [apply quiet_caption_lang|].
  intros [df1 ch1] w4. apply captions_nl_tabs.
Qed.

(** The work on one row. *)
Lemma process_row_tabs i row st w :
  tabs_bounded cfg (ls_opened st) ls_opened (process_row cfg i row st w).
Proof.
  unfold process_row. destruct (extract_mid (URL row)) as [mid|];
    [|unfold tabs_bounded, tabs; simpl; repeat split; lia].
  assert (∀ {A} (m : M A) (f : A → M LoopState) w0,
            sat (W:=W) quiet (λ _, True) (λ _, True) m →
            (∀ a w1, tabs_bounded cfg (ls_opened st) ls_opened (f a w1)) →
            tabs_bounded cfg (ls_opened st) ls_opened ((m ≫= f) w0)) as Hbind.
  { intros A m f w0 Hm Hf. rewrite bind_run.
    pose proof (tabs_quiet _ (proj1 (Hm w0))) as Hq.
    destruct (m w0) as [[[a|e|] w1] l1]; simpl in Hq;
      try (unfold tabs_bounded; simpl; rewrite Hq; repeat split; lia).
    specialize (Hf a w1). destruct (f a w1) as [[o w2] l2].
    unfold tabs_bounded in *. simpl in *. rewrite tabs_app, Hq. simpl. exact Hf. }
  apply Hbind.
  { destruct (pageid_from_mid mid); net_auto. }
  intros pageid w1. apply Hbind.
  { destruct pageid as [n|]; [destruct (n =? 0)|];
      first [apply quiet_get_live_file_title | by apply sat_ret]. }
  intros title w2. apply Hbind; [apply quiet_statement_part|].
  intros [[df1 csrf1] ch1] w3.
  rewrite bind_run.
  pose proof (captions_part_tabs i mid pageid title csrf1 df1 ch1 (ls_opened st) w3)
    as [Hoff Hcap].
  destruct (captions_part _ _ _ _ _ _ _ _ _ w3) as [[[[[df2 ch2] op2]|e|] w4] l4];
    simpl in Hoff, Hcap;
    try (unfold tabs_bounded; simpl; rewrite Hcap; repeat split; lia).
  assert (sat (W:=W) quiet (λ st', ls_opened st' = op2) (λ _, True)
            (emit (EvRowEnd i ch2 df2);;
             ssf ← checkpoint cfg df2 (ls_success_since_flush st) ch2;
             (if Qlt_le_dec 0 (SLEEP_BETWEEN cfg)
              then time_sleep (SLEEP_BETWEEN cfg) else mret tt);;
             mret (mkLoop df2 csrf1 op2 ssf))) as Hrest.
  { eapply (sat_bind _ (λ _, True)); [by apply sat_emit|]. intros _ _.
    eapply (sat_bind _ (λ _, True)).
    - unfold checkpoint.
      repeat first [apply quiet_write_back | sat_step]; done.
    - intros ssf _. net_auto. }
  destruct (Hrest w4) as [Hq Hret]. apply tabs_quiet in Hq.
  destruct ((emit (EvRowEnd i ch2 df2);; _) w4) as [[o w5] l5]. simpl in Hq, Hret.
  unfold tabs_bounded. simpl. rewrite tabs_app, Hq.
  pose proof (tabs_nonneg l4).
  split; [intros; rewrite Hoff by done; lia|]. split; [lia|].
  destruct o as [st'| |]; [|done..]. rewrite Hret. lia.
Qed.

Lemma main_loop_tabs work st w :
  tabs_bounded cfg (ls_opened st) ls_opened (main_loop cfg work st w).
Proof.
  revert st w. induction work as [|[i row] work IH]; intros st w; simpl.
  { unfold tabs_bounded, tabs; simpl; repeat split; lia. }
  rewrite bind_run.
  destruct (process_row_tabs i row st w) as (Hoff & Hmax & Hrow).
  destruct (process_row cfg i row st w) as [[[st1|e|] w1] l1]; simpl in *;
    try (by repeat split).
  destruct (IH st1 w1) as (Hoff2 & Hmax2 & Hrest).
  destruct (main_loop cfg work st1 w1) as [[o w2] l2]. simpl in *.
  unfold tabs_bounded. simpl. rewrite tabs_app.
  pose proof (tabs_nonneg l1). pose proof (tabs_nonneg l2).
  split; [intros; rewrite Hoff, Hoff2 by done; lia|]. split; [lia|].
  destruct o as [st'| |]; [|done..]. lia.
Qed.

(** X21.  A run of [main] never opens more browser tabs than
    [OPEN_AFTER_SUCCESS_MAX], however it ends and however many rows get a
    caption; with [OPEN_AFTER_SUCCESS] off, as it is when the program
    starts, it opens none. *)
Theorem browser_tabs_are_capped df work csrf w :
  let evs := (main_rows cfg df work csrf w).2 in
  tabs evs <= Z.max 0 (OPEN_AFTER_SUCCESS_MAX cfg)
  ∧ (OPEN_AFTER_SUCCESS cfg = 0 → tabs evs = 0).
Proof.
  intros evs. subst evs. unfold main_rows. rewrite bind_run.
  destruct (main_loop_tabs work (mkLoop df csrf 0 0) w) as (Hoff & Hmax & _).
  destruct (main_loop cfg work (mkLoop df csrf 0 0) w) as [[[st| |] w1] l1];
    simpl in *; rewrite ?Z.sub_0_r in Hmax; try done.
  assert (tabs ((write_back (ls_df st);; mret (ls_df st)) w1).2 = 0) as Hlast.
  { apply tabs_quiet.
    assert (sat (W:=W) quiet (λ _, True) (λ _, True)
              (write_back (ls_df st);; mret (ls_df st))) as Hs.
    { eapply (sat_bind _ (λ _, True)); [apply quiet_write_back|].
      intros _ _. by apply sat_ret. }
    exact (proj1 (Hs w1)). }
  destruct ((write_back (ls_df st);; mret (ls_df st)) w1) as [[o w2] l2].
  simpl in *. rewrite tabs_app, Hlast. split; [lia|].
  intros Hzero. rewrite Hoff by done. lia.
Qed.

End Tabs.

(** The cap is reached: on the sample sheet, with tabs switched on and a cap
    of two, seven rows change and two tabs are opened. *)
Lemma tabs_run_opens_two : is_ok tabs_run.1.1 = true ∧ tabs tabs_run.2 = 2.
Proof. split; vm_compute; reflexivity. Qed.

(* ===================================================================== *)
(** ** A workbook that cannot be written *)
(* ===================================================================== *)

Lemma write_backs_app l1 l2 : write_backs (l1 ++ l2) = write_backs l1 ++ write_backs l2.
Proof. apply List.filter_app. Qed.

Lemma write_backs_none l : Forall no_write_back l → write_backs l = [].
Proof.
  unfold write_backs. induction 1 as [|e l He _ IH]; [done|]. simpl. by rewrite He.
Qed.

(** The checks of a statement raise what [except Exception] catches. *)
Lemma claim_has_qualifier_url_exn claim prop url e :
  claim_has_qualifier_url claim prop url = inl e → is_Exception e = true.
Proof.
  unfold claim_has_qualifier_url. destruct (negb _); [done|].
  destruct (Dyn.get claim "qualifiers") as [e1|quals] eqn:H1; simpl.
  { intros [= <-]. by eapply dyn_get_exn. }
  destruct (Dyn.get (Dyn.or_empty_dict quals) prop) as [e2|q] eqn:H2; simpl.
  { intros [= <-]. by eapply dyn_get_exn. }
  by destruct q.
Qed.

Lemma claim_has_qualifier_q_exn claim prop q e :
  claim_has_qualifier_q claim prop q = inl e → is_Exception e = true.
Proof.
  unfold claim_has_qualifier_q. destruct (negb _); [done|].
  destruct (Dyn.get claim "qualifiers") as [e1|quals] eqn:H1; simpl.
  { intros [= <-]. by eapply dyn_get_exn. }
  destruct (Dyn.get (Dyn.or_empty_dict quals) prop) as [e2|q0] eqn:H2; simpl.
  { intros [= <-]. by eapply dyn_get_exn. }
  by destruct q0.
Qed.

Lemma collect_labels_exn items out e :
  collect_labels items out = inl e → is_Exception e = true.
Proof.
  revert out. induction items as [|[lang obj] rest IH]; intros out; [done|]. simpl.
  destruct (Dyn.get_default (Dyn.or_empty_dict obj) "value" (JStr "")) as [e1|val] eqn:H1;
    simpl.
  { intros [= <-]. by eapply dyn_get_default_exn. }
  destruct val; try apply IH. destruct (Py.is_empty _); apply IH.
Qed.

Section Caught.

Context {W : Type} {env : Env W} {lib : PyLib}.
Variable P : event → Prop.
Hypothesis P_get : ∀ p, P (EvGet p).
Hypothesis P_post : ∀ p d, P (EvPost p d).
Hypothesis P_sleep : ∀ s, P (EvSleep s).
Hypothesis P_browser : ∀ m, P (EvBrowser m).

(** What the requests raise, [except Exception] catches. *)
Lemma mw_request_caught method params data :
  sat (W:=W) P (λ _, True) (λ e, is_Exception e = true) (mw_request method params data).
Proof using P_get P_post.
  unfold mw_request, raise_for_status, response_json.
  repeat first [ apply P_get | apply P_post | sat_step ]; try done.
Qed.

Lemma mw_mutate_caught csrf params data :
  sat (W:=W) P (λ _, True) (λ e, is_Exception e = true) (mw_mutate csrf params data).
Proof using P_get P_post P_sleep.
  unfold mw_mutate, mw_mutate_with.
  repeat match goal with
         | |- sat _ _ _ (if ?b then raise _ else _) =>
             destruct b eqn:?; [by apply sat_raise|]
         end.
  apply (mutate_loop_sat _ (λ _, True)); try done. lia.
Qed.

Lemma get_live_file_title_caught n :
  sat (W:=W) P (λ _, True) (λ e, is_Exception e = true) (get_live_file_title n).
Proof using P_get P_post.
  unfold get_live_file_title.
  repeat first [ apply mw_request_caught | sat_step ]; try done.
Qed.

Lemma ensure_statement_caught csrf mid resolver :
  sat (W:=W) P (λ _, True) (λ e, is_Exception e = true) (ensure_statement csrf mid resolver).
Proof using P_get P_post P_sleep.
  unfold ensure_statement, get_p7482_claims, create_p7482_claim, add_qualifier_url,
    add_qualifier_q, set_qualifier.
  repeat first [ apply mw_request_caught | apply mw_mutate_caught | sat_step ];
    try done.
  all: first [ by eapply claim_has_qualifier_url_exn
             | by eapply claim_has_qualifier_q_exn ].
Qed.

Lemma statement_part_caught i mid resolver df csrf :
  sat (W:=W) P (λ _, True) (λ e, is_Exception e = true) (statement_part i mid resolver df csrf).
Proof using P_get P_post P_sleep.
  unfold statement_part.
  repeat first [ apply ensure_statement_caught | sat_step ]; try done.
Qed.

Lemma captions_part_caught cfg i mid pageid live_title csrf df changed opened :
  sat (W:=W) P (λ _, True) (λ e, is_Exception e = true)
    (captions_part cfg i mid pageid live_title csrf df changed opened).
Proof using P_get P_post P_sleep P_browser.
  unfold captions_part, captions_langs, captions_nl, caption_lang, captions_failed,
    open_page_in_browser, get_existing_labels, set_label.
  repeat first [ apply get_live_file_title_caught | apply mw_request_caught
               | apply mw_mutate_caught | sat_step ];
    try done.
  all: by eapply collect_labels_exn.
Qed.

End Caught.

Section LockedWorkbook.

Context {W : Type} {env : Env W} {lib : PyLib}.
Variable cfg : Config.
Hypothesis locked : ∀ d (w : W), (env_write d w).1 = false.

Implicit Types (w : W) (df : list Row) (st : LoopState).

Lemma stops_at_write_bind {A B} (m : M A) (f : A → M B) w :
  stops_at_write (m w) → (∀ a w1, stops_at_write (f a w1)) →
  stops_at_write ((m ≫= f) w).
Proof.
  intros Hm Hf. rewrite bind_run. unfold stops_at_write in *.
  destruct (m w) as [[[a|e|] w1] l1]; simpl in *; try done.
  specialize (Hf a w1). destruct (f a w1) as [[[b|e|] w2] l2]; simpl in *; try done.
  - by rewrite write_backs_app, Hm, Hf.
  - destruct Hf as [[Hn He]|(l0 & d & -> & Hn & ->)].
    + left. by rewrite write_backs_app, Hm, Hn.
    + right. exists (l1 ++ l0), d. rewrite app_assoc, write_backs_app, Hm, Hn. done.
Qed.

Lemma stops_at_write_sat {A} (m : M A) w :
  sat (W:=W) no_write_back (λ _, True) (λ e, is_Exception e = true) m →
  stops_at_write (m w).
Proof.
  intros Hm. destruct (Hm w) as [Hl Ho]. apply write_backs_none in Hl.
  unfold stops_at_write. destruct (m w) as [[[a|e|] w1] l1]; simpl in *; auto.
Qed.

Lemma write_back_locked df w :
  ∃ w1, write_back df w = (Raise (SystemExit 1), w1, [EvWriteBack df]).
Proof using locked.
  unfold write_back. rewrite bind_run. cbn. rewrite bind_run.
  pose proof (locked df w) as Hw. destruct (env_write df w) as [b w1].
  simpl in Hw. subst b. cbn. by exists w1.
Qed.

Lemma checkpoint_locked df ssf changed w :
  stops_at_write (checkpoint cfg df ssf changed w).
Proof using locked.
  unfold checkpoint. destruct changed; [|done].
  cbv zeta. destruct (_ <=? _); [|done].
  rewrite bind_run, try_run.
  destruct (write_back_locked df w) as [w1 ->]. cbn.
  right. by exists [], df.
Qed.

Lemma process_row_locked i row st w :
  stops_at_write (process_row cfg i row st w).
Proof using locked.
  unfold process_row. destruct (extract_mid (URL row)) as [mid|]; [|done].
  apply stops_at_write_bind.
  { apply stops_at_write_sat. destruct (pageid_from_mid mid); sat_auto; done. }
  intros pageid w1. apply stops_at_write_bind.
  { apply stops_at_write_sat.
    destruct pageid as [n|]; [destruct (n =? 0)|];
      first [by apply get_live_file_title_caught | by apply sat_ret]. }
  intros title w2. apply stops_at_write_bind.
  { apply stops_at_write_sat. by apply statement_part_caught. }
  intros [[df1 csrf1] ch1] w3. apply stops_at_write_bind.
  { apply stops_at_write_sat. by apply captions_part_caught. }
  intros [[df2 ch2] op2] w4. apply stops_at_write_bind; [done|].
  intros _ w5. apply stops_at_write_bind; [apply checkpoint_locked|].
  intros ssf w6. apply stops_at_write_bind.
  { apply stops_at_write_sat. destruct (Qlt_le_dec _ _); sat_auto; done. }
  done.
Qed.

Lemma main_loop_locked work st w :
  stops_at_write (main_loop cfg work st w).
Proof using locked.
  revert st w. induction work as [|[i row] work IH]; intros st w; [done|].
  simpl. apply stops_at_write_bind; [apply process_row_locked | apply IH].
Qed.

(** X22.  When the workbook cannot be written, a run of [main] does not
    complete: it ends with an exception, and the first attempt to write the
    workbook, at a checkpoint or at the end, is the last thing it does and
    ends it with [SystemExit(1)]; the [except Exception] around the
    checkpoint does not keep the run going. *)
Theorem locked_workbook_ends_run df work csrf w :
  let r := main_rows cfg df work csrf w in
  ∃ e, r.1.1 = Raise e
       ∧ ((write_backs r.2 = [] ∧ is_Exception e = true)
          ∨ ∃ l0 d, r.2 = l0 ++ [EvWriteBack d] ∧ write_backs l0 = []
                    ∧ e = SystemExit 1).
Proof using locked.
  intros r. subst r. unfold main_rows. rewrite bind_run.
  pose proof (main_loop_locked work (mkLoop df csrf 0 0) w) as Hloop.
  unfold stops_at_write in Hloop.
  destruct (main_loop cfg work (mkLoop df csrf 0 0) w) as [[[st|e|] w1] l1];
    simpl in *; [| by exists e | done].
  rewrite bind_run. destruct (write_back_locked (ls_df st) w1) as [w2 ->]. cbn.
  exists (SystemExit 1). split; [done|]. right. by exists l1, (ls_df st).
Qed.

End LockedWorkbook.

Lemma locked_workbook_ends_run_witness :
  let r := main_rows (env := locked_env) (lib := sample_lib) checkpoint_3
             sheet sheet_work "tok" (mkLocked wiki_sheet) in
  (∀ d (w0 : Locked), (env_write d w0).1 = false)
  ∧ ∃ e, r.1.1 = Raise e
         ∧ ((write_backs r.2 = [] ∧ is_Exception e = true)
            ∨ ∃ l0 d, r.2 = l0 ++ [EvWriteBack d] ∧ write_backs l0 = []
                      ∧ e = SystemExit 1).
Proof.
  intros r. split; [intros d w0; reflexivity|].
  exact (locked_workbook_ends_run (env := locked_env) (lib := sample_lib) checkpoint_3
           (λ _ _, eq_refl) sheet sheet_work "tok" (mkLocked wiki_sheet)).
Defined.

(* ===================================================================== *)
(** ** A statement that fails *)
(* ===================================================================== *)

Lemma caught_message_error {lib : PyLib} e msg :
  caught_message e = Some msg → Py.startswith "error:" msg = true.
Proof.
  unfold caught_message.
  destruct e; simpl; intros [= <-]; by string_simpl.
Qed.

Section StatementFails.

Context {W : Type} {env : Env W} {lib : PyLib}.

Implicit Types (w : W) (df : list Row).

(** X23.  When [ensure_statement] raises for a row with a usable resolver
    URL, whatever the failure, [main] goes on: the row's SDCStatus becomes
    a text that starts with error:, the other rows stay as they are, the
    token is the one the row started with and the row counts as
    unchanged. *)
Theorem statement_failure_is_recorded i mid resolver df csrf w e w' l :
  Py.is_empty resolver = false →
  Py.startswith "http" resolver = true →
  (i < length df)%nat →
  ensure_statement csrf mid resolver w = (Raise e, w', l) →
  ∃ df', statement_part i mid resolver df csrf w = (Ok (df', csrf, false), w', l)
         ∧ Py.startswith "error:" (df_get SDCStatus i df') = true
         ∧ ∀ j, j ≠ i → df' !! j = df !! j.
Proof.
  intros Hne Hhttp Hi Hrun.
  assert (is_Exception e = true) as Hexn.
  { pose proof (ensure_statement_caught (W:=W) (λ _, True) (λ _, I) (λ _ _, I) (λ _, I)
                  csrf mid resolver w) as [_ Ho].
    by rewrite Hrun in Ho. }
  destruct (caught_message_exception e Hexn) as [msg Hmsg].
  exists (df_set set_SDCStatus i msg df).
  split; [|split].
  - unfold statement_part. rewrite try_run, Hne, Hhttp. cbn [negb andb].
    rewrite bind_run, Hrun. cbn. rewrite Hmsg. cbn. by rewrite app_nil_r.
  - rewrite df_get_set_same; [|done|done]. by eapply caught_message_error.
  - intros j Hj. unfold df_set. by apply list_lookup_alter_ne.
Qed.

End StatementFails.

Lemma statement_failure_is_recorded_witness :
  let r := ensure_statement (env := script_env) (lib := sample_lib)
             "tok" "M109018409" sample_url world_offline in
  Py.is_empty sample_url = false
  ∧ Py.startswith "http" sample_url = true
  ∧ (0 < length [blank_row "M109018409"])%nat
  ∧ ∃ df', statement_part (env := script_env) (lib := sample_lib)
             0 "M109018409" sample_url [blank_row "M109018409"] "tok" world_offline
           = (Ok (df', "tok", false), r.1.2, r.2)
         ∧ Py.startswith "error:" (df_get SDCStatus 0 df') = true
         ∧ ∀ j, j ≠ 0%nat → df' !! j = [blank_row "M109018409"] !! j.
Proof.
  intros r. split; [reflexivity|]. split; [reflexivity|]. split; [simpl; lia|].
  assert (r = (Raise (TransportError "connection refused"), r.1.2, r.2)) as He.
  { vm_compute. reflexivity. }
  exact (statement_failure_is_recorded (env := script_env) (lib := sample_lib)
           0 "M109018409" sample_url [blank_row "M109018409"] "tok"
           world_offline (TransportError "connection refused") r.1.2 r.2
           eq_refl eq_refl (le_n 1) He).
Defined.
